(** * rayoptics.raytr.trace: ray tracing by relative aperture and field

    A shallow embedding of [src/rayoptics/raytr/trace.py] and the properties
    of its safe-trace wrapper, ray aiming, chief-ray lookup, batch sampling
    engines, Coddington recurrence and line-intersection primitive.

    Conventions of the embedding

    - Python floats and numpy float64 scalars are values of a type [F] that
      carries the arithmetic of the source ([FloatOps]).  Control flow is
      proved for every such [F]; algebraic identities are proved for the
      real numbers ([R_ops], exact arithmetic); concrete runs are evaluated
      in IEEE binary64 ([B64_ops]), the arithmetic Python really uses.
    - A Python call either returns or raises: [Py.outcome].
    - The collaborators that live outside this file (the trace primitive
      [rt.trace], the optical specification, scipy's root finders, the
      wavefront routines) are the fields of the class [Collaborators].
    - The [Field] object is the one piece of state the file assigns to; the
      functions that assign to it run in the state monad [M].
    - [Demo] is a three-surface system on which the properties are run. *)

From Stdlib Require Import Reals Lra ZArith List Bool String Lia Floats Uint63.
Import ListNotations.

Set Implicit Arguments.

(** ** Python values *)

Module Py.

(** The result of a call: a value, or a raised exception of type [E]. *)
Inductive outcome (E A : Type) : Type :=
| Ret (a : A)
| Raise (e : E).
Arguments Ret {E A} a.
Arguments Raise {E A} e.

Definition bind {E A B} (m : outcome E A) (k : A -> outcome E B) : outcome E B :=
  match m with
  | Ret a => k a
  | Raise e => Raise e
  end.

Definition returns {E A} (m : outcome E A) : Prop := exists a, m = Ret a.

(** [l[i]] on a list or tuple: negative indices count from the end,
    [None] stands for IndexError. *)
Definition index {A} (l : list A) (i : Z) : option A :=
  let n := Z.of_nat (List.length l) in
  if (0 <=? i)%Z then nth_error l (Z.to_nat i)
  else if (0 <=? n + i)%Z then nth_error l (Z.to_nat (n + i))
  else None.

(** [range(num)]: empty for a negative count. *)
Definition range_len (num : Z) : nat := Z.to_nat num.

(** [kwargs.get(key, default)] for an optional keyword. *)
Definition get {A} (kw : option A) (default : A) : A :=
  match kw with Some a => a | None => default end.

(** [itertools.zip_longest] over five sequences: the shorter ones are
    padded with [None]. *)
Fixpoint zip_longest5 {A B C D E}
    (la : list A) (lb : list B) (lc : list C) (ld : list D) (le : list E)
    (fuel : nat)
  : list (option A * option B * option C * option D * option E) :=
  match fuel with
  | O => []
  | S fuel' =>
      (hd_error la, hd_error lb, hd_error lc, hd_error ld, hd_error le)
        :: zip_longest5 (tl la) (tl lb) (tl lc) (tl ld) (tl le) fuel'
  end.

Definition zip_longest {A B C D E}
    (la : list A) (lb : list B) (lc : list C) (ld : list D) (le : list E) :=
  zip_longest5 la lb lc ld le
    (Nat.max (List.length la) (Nat.max (List.length lb)
     (Nat.max (List.length lc) (Nat.max (List.length ld) (List.length le))))).

End Py.

Import Py.

Declare Scope py_scope.
Notation "x <- m ;; k" := (Py.bind m (fun x => k))
  (at level 61, m at next level, right associativity) : py_scope.
Notation "' pat <- m ;; k" := (Py.bind m (fun x => match x with pat => k end))
  (at level 61, pat pattern, m at next level, right associativity) : py_scope.
Local Open Scope py_scope.

(** ** Floating-point arithmetic of the source *)

Class FloatOps (F : Type) : Type := {
  f0 : F;                       (* 0.0 *)
  f1 : F;                       (* 1.0 *)
  f1em4 : F;                    (* 0.0001 *)
  fadd : F -> F -> F;
  fsub : F -> F -> F;
  fmul : F -> F -> F;
  fdiv : F -> F -> F;           (* numpy division: no exception on a zero divisor *)
  fneg : F -> F;
  fsqrt : F -> F;               (* square root of a non-negative value *)
  feqb : F -> F -> bool;        (* == *)
  fltb : F -> F -> bool;        (* < *)
  of_int : Z -> F               (* int -> float conversion *)
}.

Declare Scope fl_scope.
Delimit Scope fl_scope with fl.
Infix "+" := fadd : fl_scope.
Infix "-" := fsub : fl_scope.
Infix "*" := fmul : fl_scope.
Infix "/" := fdiv : fl_scope.
Notation "- x" := (fneg x) : fl_scope.

(** Exact real arithmetic. *)
#[export] Instance R_ops : FloatOps R := {
  f0 := 0%R;
  f1 := 1%R;
  f1em4 := (1 / 10000)%R;
  fadd := Rplus;
  fsub := Rminus;
  fmul := Rmult;
  fdiv := Rdiv;
  fneg := Ropp;
  fsqrt := R_sqrt.sqrt;
  feqb := fun x y => if Req_dec_T x y then true else false;
  fltb := fun x y => if Rlt_dec x y then true else false;
  of_int := IZR
}.

(** IEEE 754 binary64, the arithmetic of Python floats and numpy float64. *)
Definition b64_of_int (z : Z) : float :=
  if (z <? 0)%Z then PrimFloat.opp (PrimFloat.of_uint63 (Uint63.of_Z (- z)))
  else PrimFloat.of_uint63 (Uint63.of_Z z).

#[export] Instance B64_ops : FloatOps float := {
  f0 := 0%float;
  f1 := 1%float;
  f1em4 := 0x1.a36e2eb1c432dp-14%float;
  fadd := PrimFloat.add;
  fsub := PrimFloat.sub;
  fmul := PrimFloat.mul;
  fdiv := PrimFloat.div;
  fneg := PrimFloat.opp;
  fsqrt := PrimFloat.sqrt;
  feqb := PrimFloat.eqb;
  fltb := PrimFloat.ltb;
  of_int := b64_of_int
}.

(** ** Data model *)

Section Model.

Context {F : Type} {FO : FloatOps F}.

(** Values produced by caller-supplied filters are opaque to this file. *)
Context {Obj : Type}.

Local Open Scope fl_scope.

(** 2D and 3D numpy vectors. *)
Record vec2 : Type := V2 { v2x : F; v2y : F }.
Record vec3 : Type := V3 { vx : F; vy : F; vz : F }.

Definition vsub (a b : vec3) : vec3 :=
  V3 (vx a - vx b) (vy a - vy b) (vz a - vz b).
Definition vdivs (a : vec3) (s : F) : vec3 :=
  V3 (vx a / s) (vy a / s) (vz a / s).
Definition vneg (a : vec3) : vec3 := V3 (- vx a) (- vy a) (- vz a).
Definition dot (a b : vec3) : F := vx a * vx b + vy a * vy b + vz a * vz b.
Definition cross (a b : vec3) : vec3 :=
  V3 (vy a * vz b - vz a * vy b)
     (vz a * vx b - vx a * vz b)
     (vx a * vy b - vy a * vx b).
Definition norm (a : vec3) : F := fsqrt (dot a a).
Definition vadd (a b : vec3) : vec3 :=
  V3 (vx a + vx b) (vy a + vy b) (vz a + vz b).
Definition vscale (s : F) (a : vec3) : vec3 := V3 (s * vx a) (s * vy a) (s * vz a).

Definition v2sub (a b : vec2) : vec2 := V2 (v2x a - v2x b) (v2y a - v2y b).
Definition v2add (a b : vec2) : vec2 := V2 (v2x a + v2x b) (v2y a + v2y b).
Definition v2divs (a : vec2) (s : F) : vec2 := V2 (v2x a / s) (v2y a / s).

(** One interface crossing: [pt, after_dir, after_dst, normal]. *)
Record RaySeg : Type := mkRaySeg {
  seg_p : vec3;
  seg_d : vec3;
  seg_dst : F;
  seg_nrml : vec3
}.

(** [(ray, op_delta, wvl)]. *)
Record RayPkg : Type := mkRayPkg {
  pkg_ray : list RaySeg;
  pkg_op : F;
  pkg_wvl : F
}.

(** The named tuple [RaySeg] built from the four items of [rs]. *)
Definition RaySeg_of (rs : RaySeg) : RaySeg :=
  mkRaySeg (seg_p rs) (seg_d rs) (seg_dst rs) (seg_nrml rs).

(** The named tuple [RayPkg] of the converted segments, [op_delta] and [wvl]. *)
Definition named_pkg (pkg : RayPkg) : RayPkg :=
  mkRayPkg (map RaySeg_of (pkg_ray pkg)) (pkg_op pkg) (pkg_wvl pkg).

(** The trace errors: [TraceError] and its two subclasses that record the
    failing surface.  [ray_pkg] is the package traced up to the failure;
    it is an attribute, so it can be reset to [None]. *)
Inductive trace_error : Type :=
| TraceError (ray_pkg : option RayPkg)
| TraceMissedSurfaceError (surf : Z) (ray_pkg : option RayPkg)
| TraceTIRError (surf : Z) (ray_pkg : option RayPkg).

Definition te_ray_pkg (e : trace_error) : option RayPkg :=
  match e with
  | TraceError pk | TraceMissedSurfaceError _ pk | TraceTIRError _ pk => pk
  end.

(** [rayerr.ray_pkg = v]. *)
Definition set_ray_pkg (e : trace_error) (v : option RayPkg) : trace_error :=
  match e with
  | TraceError _ => TraceError v
  | TraceMissedSurfaceError s _ => TraceMissedSurfaceError s v
  | TraceTIRError s _ => TraceTIRError s v
  end.

(** Exceptions that the code of this file raises or lets through.
    [NotSubscriptable] is what indexing a float raises: TypeError for a
    Python float, IndexError for a numpy scalar. *)
Inductive exn : Type :=
| TraceErr (e : trace_error)
| RuntimeError
| IndexError
| TypeError
| AttributeError
| UnboundLocalError
| ValueError
| NotSubscriptable
| OtherException (tag : string).

Definition result (A : Type) : Type := Py.outcome exn A.

(** ** The optical model, as far as this file reads it *)

(** An interface with its paraxial power. *)
Record Interface : Type := mkInterface { optical_power : F }.

(** A local coordinate transform [(rot, trns)]. *)
Record Tfrm : Type := mkTfrm { rot : vec3 * vec3 * vec3; trns : vec3 }.

(** [opt_model.seq_model]. *)
Record SequentialModel : Type := mkSeqModel {
  ifcs : list Interface;
  rndx : list (list F);
  lcl_tfrms : list Tfrm;
  z_dir : list F;
  stop_surface : option Z
}.

(** The first-order data [opt_model['analysis_results']['parax_data'].fod]. *)
Record FirstOrderData : Type := mkFod {
  enp_radius : F;
  obj_dist : F;
  enp_dist : F;
  exp_dist : F
}.

Record OpticalModel : Type := mkOpticalModel {
  seq_model : SequentialModel;
  fod : FirstOrderData;
  pupil_rays : list vec2        (* optical_spec.pupil.pupil_rays *)
}.

(** Chief ray exit pupil segment [(pt, dir, dist)]. *)
Record ExpSeg : Type := mkExpSeg { exp_pt : vec3; exp_dir : vec3; exp_dst : F }.

(** [(chief_ray, cr_exp_seg)]. *)
Definition chief_ray_pkg : Type := (RayPkg * ExpSeg)%type.

(** Reference sphere [(image_pt, ref_dir, ref_sphere_radius)]. *)
Record RefSphere : Type := mkRefSphere {
  image_pt : vec3;
  ref_dir : vec3;
  ref_sphere_radius : F
}.

(** A field point with its vignetting factors, aim point and the two
    cached values. *)
Record Field : Type := mkField {
  fld_x : F;
  fld_y : F;
  vux : F;
  vuy : F;
  vlx : F;
  vly : F;
  aim_pt : option vec2;
  chief_ray : option chief_ray_pkg;
  ref_sphere : option RefSphere
}.

(** [fld.chief_ray = v] and [fld.ref_sphere = v]. *)
Definition set_chief_ray (fld : Field) (v : option chief_ray_pkg) : Field :=
  mkField (fld_x fld) (fld_y fld) (vux fld) (vuy fld) (vlx fld) (vly fld)
          (aim_pt fld) v (ref_sphere fld).
Definition set_ref_sphere (fld : Field) (v : option RefSphere) : Field :=
  mkField (fld_x fld) (fld_y fld) (vux fld) (vuy fld) (vlx fld) (vly fld)
          (aim_pt fld) (chief_ray fld) v.

(** ** Filters and keyword arguments *)

(** An [output_filter] other than [None]: a string or a callable.  The
    callable is one that returns, [f] giving what it returns ([None] or an
    object); a callable that raises is not among the inputs described. *)
Inductive output_filter : Type :=
| OF_str (s : string)
| OF_call (f : RayPkg -> option Obj).

(** The keyword arguments this file passes around; [None] is an absent key. *)
Record kwargs : Type := mkKwargs {
  kw_apply_vignetting : option bool;
  kw_use_named_tuples : option bool;
  kw_check_apertures : option bool;
  kw_output_filter : option (option output_filter);
  kw_rayerr_filter : option (option string);
  kw_image_pt : option vec3
}.

Definition no_kwargs : kwargs := mkKwargs None None None None None None.

(** The keywords left in [**kwargs] once [apply_vignetting] is bound. *)
Definition drop_apply_vignetting (kw : kwargs) : kwargs :=
  mkKwargs None (kw_use_named_tuples kw) (kw_check_apertures kw)
           (kw_output_filter kw) (kw_rayerr_filter kw) (kw_image_pt kw).

(** What [trace_safe] hands back when it is not [None]. *)
Inductive ray_result : Type :=
| RR_pkg (pkg : RayPkg)                      (* the ray package *)
| RR_last (seg : RaySeg) (op wvl : F)        (* (ray[-1], op_delta, wvl) *)
| RR_custom (v : Obj)                        (* output_filter(ray_pkg) *)
| RR_err (e : trace_error).                  (* the exception object *)

(** The value of the residual function of the 1D iteration. *)
Inductive residual : Type :=
| Rscalar (x : F)
| Rvector (v : vec3).

(** What a grid cell appends: the image filter's value, or
    [[pupil[0], pupil[1], ray_result]]. *)
Inductive grid_entry : Type :=
| GE_filtered (r : option Obj)
| GE_triple (px py : F) (r : option ray_result).

(** An item of [grid]: an entry in the 'list' form, a row in the 'grid' form. *)
Inductive grid_item : Type :=
| GI_entry (e : grid_entry)
| GI_row (row : list grid_entry).

(** ** Collaborators outside this file *)

Class Collaborators : Type := {
  (* raytrace.trace(seq_model, pt0, dir0, wvl, **kwargs) *)
  rt_trace : SequentialModel -> vec3 -> vec3 -> F -> kwargs -> result RayPkg;
  (* optical_spec.obj_coords(fld) *)
  obj_coords : OpticalModel -> Field -> vec3;
  (* fld.apply_vignetting(pupil) *)
  apply_vignetting : Field -> vec2 -> vec2;
  (* the array [pupil] once fld.apply_vignetting(pupil) is through with it:
     the method scales the items of pupil[:], a view of the same data when
     [pupil] is a numpy array *)
  pupil_after_vignetting : Field -> vec2 -> vec2;
  (* waveabr.transfer_to_exit_pupil(ifc, (pt, dir), exp_dist) *)
  transfer_to_exit_pupil : Interface -> vec3 * vec3 -> F -> result ExpSeg;
  (* waveabr.calculate_reference_sphere(opt_model, fld, wvl, foc,
                                         chief_ray_pkg, image_pt_2d) *)
  calculate_reference_sphere :
    OpticalModel -> Field -> F -> F -> chief_ray_pkg -> option vec2 ->
    result RefSphere;
  (* waveabr.wave_abr_full_calc(fod, fld, wvl, foc, ray_pkg,
                                 chief_ray_pkg, ref_sphere) *)
  wave_abr_full_calc :
    FirstOrderData -> Field -> F -> F -> RayPkg -> chief_ray_pkg ->
    RefSphere -> result F;
  (* scipy.optimize.newton(func, x0, disp=False, full_output=True)[0] *)
  newton : (F -> result residual) -> F -> result F;
  (* scipy.optimize.fsolve(func, x0, epsfcn=eps) *)
  fsolve : (vec2 -> result vec2) -> vec2 -> F -> result vec2;
  (* seq_model.index_for_wavelength(wvl) *)
  index_for_wavelength : SequentialModel -> F -> Z;
  (* seq_model.central_wavelength() *)
  central_wavelength : SequentialModel -> F;
  (* np.array(grid): the array of the items of [grid], or the exception
     numpy raises for a list it cannot turn into an array *)
  np_array : list grid_item -> result (list grid_item)
}.

Context {X : Collaborators}.

(** The same collaborators around another trace primitive. *)
Definition with_rt_trace
    (t : SequentialModel -> vec3 -> vec3 -> F -> kwargs -> result RayPkg)
  : Collaborators :=
  {| rt_trace := t;
     obj_coords := obj_coords;
     apply_vignetting := apply_vignetting;
     pupil_after_vignetting := pupil_after_vignetting;
     transfer_to_exit_pupil := transfer_to_exit_pupil;
     calculate_reference_sphere := calculate_reference_sphere;
     wave_abr_full_calc := wave_abr_full_calc;
     newton := newton;
     fsolve := fsolve;
     index_for_wavelength := index_for_wavelength;
     central_wavelength := central_wavelength;
     np_array := np_array |}.

(** ** trace_base *)

(** The point [pt1] of the entrance pupil plane that [trace_base] aims at. *)
Definition trace_base_pt1 (opt_model : OpticalModel) (pupil : vec2)
    (fld : Field) (apply_vig : bool) : vec3 :=
  let vig_pupil := if apply_vig then apply_vignetting fld pupil else pupil in
  let fod := fod opt_model in
  let eprad := enp_radius fod in
  let aim_pt := match aim_pt fld with Some a => a | None => V2 f0 f0 end in
  V3 (eprad * v2x vig_pupil + v2x aim_pt)
     (eprad * v2y vig_pupil + v2y aim_pt)
     (obj_dist fod + enp_dist fod).

Definition trace_base (opt_model : OpticalModel) (pupil : vec2) (fld : Field)
    (wvl : F) (apply_vig : bool) (kw : kwargs) : result RayPkg :=
  let pt1 := trace_base_pt1 opt_model pupil fld apply_vig in
  let pt0 := obj_coords opt_model fld in
  let dir0 := vsub pt1 pt0 in
  let length := norm dir0 in
  let dir0 := vdivs dir0 length in
  let sm := seq_model opt_model in
  match Py.index (z_dir sm) 0 with
  | None => Raise IndexError
  | Some z0 =>
      let dir0 := if fltb (vz dir0 * z0) f0 then vneg dir0 else dir0 in
      rt_trace sm pt0 dir0 wvl kw
  end.

(** The call [trace_base(opt_model, pupil, fld, wvl, **kwargs)]: an
    [apply_vignetting] keyword binds the named parameter (default [True]),
    the other keywords go on to the trace primitive. *)
Definition call_trace_base (opt_model : OpticalModel) (pupil : vec2)
    (fld : Field) (wvl : F) (kw : kwargs) : result RayPkg :=
  trace_base opt_model pupil fld wvl (Py.get (kw_apply_vignetting kw) true)
             (drop_apply_vignetting kw).

(** The array [pupil] after [trace_base(opt_model, pupil, fld, wvl,
    **kwargs)]: the call hands it to [fld.apply_vignetting] unless the
    [apply_vignetting] keyword is false.  It matters to the two callers
    that pass a numpy array and keep using it, [trace_fan] and
    [trace_grid]. *)
Definition pupil_after_trace_base (fld : Field) (kw : kwargs) (pupil : vec2)
  : vec2 :=
  if Py.get (kw_apply_vignetting kw) true
  then pupil_after_vignetting fld pupil else pupil.

(** ** trace_safe *)

Definition trace_safe (opt_model : OpticalModel) (pupil : vec2) (fld : Field)
    (wvl : F) (output_filter : option output_filter)
    (rayerr_filter : option string) (kw : kwargs)
  : result (option ray_result) :=
  let use_named_tuples := Py.get (kw_use_named_tuples kw) false in
  match call_trace_base opt_model pupil fld wvl kw with
  | Raise (TraceErr rayerr) =>
      match rayerr_filter with
      | None => Ret None
      | Some s =>
          if String.eqb s "full" then
            match te_ray_pkg rayerr with
            | None => Raise TypeError
            | Some pkg =>
                Ret (Some (RR_err (set_ray_pkg rayerr (Some (named_pkg pkg)))))
            end
          else if String.eqb s "summary" then
            Ret (Some (RR_err (set_ray_pkg rayerr None)))
          else Ret None
      end
  | Raise e => Raise e
  | Ret ray_pkg =>
      let ray_pkg := if use_named_tuples then named_pkg ray_pkg else ray_pkg in
      match output_filter with
      | None => Ret (Some (RR_pkg ray_pkg))
      | Some (OF_str s) =>
          if String.eqb s "last" then
            match Py.index (pkg_ray ray_pkg) (-1) with
            | None => Raise IndexError
            | Some final_seg =>
                Ret (Some (RR_last final_seg (pkg_op ray_pkg) (pkg_wvl ray_pkg)))
            end
          else Raise TypeError
      | Some (OF_call f) => Ret (option_map RR_custom (f ray_pkg))
      end
  end.

(** ** iterate_ray *)

(** The local variable [ray] of [y_stop_coordinate]: the list of segments
    of a completed trace, or the [ray_pkg] attribute of a caught error. *)
Inductive ray_var : Type :=
| Traced (ray : list RaySeg)
| Payload (ray_pkg : option RayPkg).

(** The items of the tuple [(ray, op_delta, wvl)]. *)
Inductive pkg_item : Type :=
| Item_ray (ray : list RaySeg)
| Item_float (x : F).

Definition pkg_items (pkg : RayPkg) : list pkg_item :=
  [Item_ray (pkg_ray pkg); Item_float (pkg_op pkg); Item_float (pkg_wvl pkg)].

(** [ray[ifcx][mc.p][1] - y_target], with [mc.p = 0]. *)
Definition y_residual (ray : ray_var) (ifcx : Z) (y_target : F) : result residual :=
  match ray with
  | Traced segs =>
      match Py.index segs ifcx with
      | None => Raise IndexError
      | Some seg => Ret (Rscalar (vy (seg_p seg) - y_target))
      end
  | Payload None => Raise TypeError
  | Payload (Some pkg) =>
      match Py.index (pkg_items pkg) ifcx with
      | None => Raise IndexError
      | Some (Item_float _) => Raise NotSubscriptable
      | Some (Item_ray segs) =>
          match Py.index segs 0 with
          | None => Raise IndexError
          | Some seg =>
              let v := seg_d seg in
              Ret (Rvector (V3 (vx v - y_target) (vy v - y_target)
                               (vz v - y_target)))
          end
      end
  end.

Definition y_stop_coordinate (y1 : F) (seq_model : SequentialModel) (ifcx : Z)
    (pt0 : vec3) (dist wvl y_target : F) : result residual :=
  let pt1 := V3 f0 y1 dist in
  let dir0 := vsub pt1 pt0 in
  let length := norm dir0 in
  let dir0 := vdivs dir0 length in
  ray <- match rt_trace seq_model pt0 dir0 wvl no_kwargs with
         | Ret pkg => Ret (Traced (pkg_ray pkg))
         | Raise (TraceErr (TraceMissedSurfaceError surf ray_pkg)) =>
             if (surf <=? ifcx)%Z
             then Raise (TraceErr (TraceMissedSurfaceError surf ray_pkg))
             else Ret (Payload ray_pkg)
         | Raise (TraceErr (TraceTIRError surf ray_pkg)) =>
             if (surf <? ifcx)%Z
             then Raise (TraceErr (TraceTIRError surf ray_pkg))
             else Ret (Payload ray_pkg)
         | Raise e => Raise e
         end ;;
  y_residual ray ifcx y_target.

Definition surface_coordinate (coord : vec2) (seq_model : SequentialModel)
    (ifcx : Z) (pt0 : vec3) (dist wvl : F) (target : vec2) : result vec2 :=
  let pt1 := V3 (v2x coord) (v2y coord) dist in
  let dir0 := vsub pt1 pt0 in
  let length := norm dir0 in
  let dir0 := vdivs dir0 length in
  pkg <- rt_trace seq_model pt0 dir0 wvl no_kwargs ;;
  match Py.index (pkg_ray pkg) ifcx with
  | None => Raise IndexError
  | Some seg =>
      let xy_ray := V2 (vx (seg_p seg)) (vy (seg_p seg)) in
      Ret (v2sub xy_ray target)
  end.

Definition iterate_ray (opt_model : OpticalModel) (ifcx : option Z)
    (xy_target : vec2) (fld : Field) (wvl : F) : result vec2 :=
  let seq_model := seq_model opt_model in
  let fod := fod opt_model in
  let dist := obj_dist fod + enp_dist fod in
  let pt0 := obj_coords opt_model fld in
  match ifcx with
  | Some ifcx =>
      if feqb (vx pt0) f0 && feqb (v2x xy_target) f0 then
        (* 1D iteration: field and target points are zero in x *)
        let y_target := v2y xy_target in
        start_y <- match newton (fun y1 => y_stop_coordinate y1 seq_model ifcx
                                              pt0 dist wvl y_target) f0 with
                   | Ret start_y => Ret start_y
                   (* the handler reads [results], which was never bound *)
                   | Raise RuntimeError => Raise UnboundLocalError
                   | Raise (TraceErr _) => Ret f0
                   | Raise e => Raise e
                   end ;;
        Ret (V2 f0 start_y)
      else
        (* 2D iteration *)
        match fsolve (fun coord => surface_coordinate coord seq_model ifcx
                                     pt0 dist wvl xy_target)
                     (V2 f0 f0) (f1em4 * enp_radius fod) with
        | Ret start_coords => Ret start_coords
        | Raise (TraceErr _) => Ret (V2 f0 f0)
        | Raise e => Raise e
        end
  | None => (* floating stop surface *)
      Ret (v2add (V2 f0 f0) xy_target)
  end.

(** ** Chief ray *)

Definition aim_chief_ray (opt_model : OpticalModel) (fld : Field)
    (wvl : option F) : result vec2 :=
  let seq_model := seq_model opt_model in
  let wvl := match wvl with
             | None => central_wavelength seq_model
             | Some w => w
             end in
  let stop := stop_surface seq_model in
  iterate_ray opt_model stop (V2 f0 f0) fld wvl.

Definition trace_chief_ray (opt_model : OpticalModel) (fld : Field)
    (wvl foc : F) : result chief_ray_pkg :=
  let fod := fod opt_model in
  cr <- call_trace_base opt_model (V2 f0 f0) fld wvl no_kwargs ;;
  match Py.index (ifcs (seq_model opt_model)) (-2) with
  | None => Raise IndexError
  | Some ifc =>
      match Py.index (pkg_ray cr) (-2) with
      | None => Raise IndexError
      | Some seg =>
          cr_exp_seg <- transfer_to_exit_pupil ifc (seg_p seg, seg_d seg)
                                               (exp_dist fod) ;;
          Ret (cr, cr_exp_seg)
      end
  end.

(** *** The field as a mutable object

    A computation that may assign attributes of the [Field] object it is
    given: it takes the field's state and hands back the state it leaves,
    whether it returns or raises.  The functions above hold no assignment
    to the field, and the collaborators receive it as a value. *)
Definition M (A : Type) : Type := Field -> result A * Field.

Definition m_ret {A} (a : A) : M A := fun fld => (Ret a, fld).

Definition m_bind {A B} (m : M A) (k : A -> M B) : M B :=
  fun fld =>
    match m fld with
    | (Ret a, fld') => k a fld'
    | (Raise e, fld') => (Raise e, fld')
    end.

(** Read the current state of the field. *)
Definition m_get : M Field := fun fld => (Ret fld, fld).

(** Run a call that only reads the field. *)
Definition m_lift {A} (r : result A) : M A := fun fld => (r, fld).

(** An attribute assignment on the field. *)
Definition m_assign (f : Field -> Field) : M unit := fun fld => (Ret tt, f fld).

Notation "x <~ m ;; k" := (m_bind m (fun x => k))
  (at level 61, m at next level, right associativity).

Definition get_chief_ray_pkg (opt_model : OpticalModel) (wvl foc : F)
  : M chief_ray_pkg :=
  fld <~ m_get ;;
  match chief_ray fld with
  | None =>
      _ <~ m_lift (aim_chief_ray opt_model fld (Some wvl)) ;;
      m_lift (trace_chief_ray opt_model fld wvl foc)
  | Some cached =>
      if negb (feqb (pkg_wvl (fst cached)) wvl)
      then m_lift (trace_chief_ray opt_model fld wvl foc)
      else m_ret cached
  end.

Definition setup_pupil_coords (opt_model : OpticalModel) (wvl foc : F)
    (image_pt : option vec3) : M (RefSphere * chief_ray_pkg) :=
  chief_ray_pkg <~ get_chief_ray_pkg opt_model wvl foc ;;
  let image_pt_2d := option_map (fun v => V2 (vx v) (vy v)) image_pt in
  fld <~ m_get ;;
  ref_sphere <~ m_lift (calculate_reference_sphere opt_model fld wvl foc
                          chief_ray_pkg image_pt_2d) ;;
  m_ret (ref_sphere, chief_ray_pkg).

Definition trace_with_opd (opt_model : OpticalModel) (pupil : vec2)
    (wvl foc : F) (kw : kwargs) : M (list RaySeg * F * F * F) :=
  chief_ray_pkg <~ get_chief_ray_pkg opt_model wvl foc ;;
  let image_pt_2d := option_map (fun v => V2 (vx v) (vy v)) (kw_image_pt kw) in
  fld <~ m_get ;;
  ref_sphere <~ m_lift (calculate_reference_sphere opt_model fld wvl foc
                          chief_ray_pkg image_pt_2d) ;;
  ray_pkg <~ m_lift (call_trace_base opt_model pupil fld wvl kw) ;;
  let wvl := pkg_wvl ray_pkg in
  _ <~ m_assign (fun fld => set_chief_ray fld (Some chief_ray_pkg)) ;;
  _ <~ m_assign (fun fld => set_ref_sphere fld (Some ref_sphere)) ;;
  fld <~ m_get ;;
  opd <~ m_lift (wave_abr_full_calc (fod opt_model) fld wvl foc ray_pkg
                   chief_ray_pkg ref_sphere) ;;
  m_ret (pkg_ray ray_pkg, pkg_op ray_pkg, wvl, opd).

(** ** Batch sampling engines *)

(** *** trace_boundary_rays_at_field *)

(** The loop over [osp.pupil.pupil_rays]; [wvl] is rebound by every
    unpacking of a ray package. *)
Fixpoint boundary_rays_loop (opt_model : OpticalModel) (fld : Field)
    (use_named_tuples : bool) (pupil_rays : list vec2) (wvl : F)
    (rim_rays : list RayPkg) : result (list RayPkg) :=
  match pupil_rays with
  | [] => Ret rim_rays
  | p :: rest =>
      pkg <- match call_trace_base opt_model p fld wvl no_kwargs with
             | Ret pkg => Ret pkg
             | Raise (TraceErr ray_error) =>
                 match te_ray_pkg ray_error with
                 | None => Raise TypeError
                 | Some pkg => Ret pkg
                 end
             | Raise e => Raise e
             end ;;
      let ray := if use_named_tuples then map RaySeg_of (pkg_ray pkg)
                 else pkg_ray pkg in
      boundary_rays_loop opt_model fld use_named_tuples rest (pkg_wvl pkg)
        (rim_rays ++ [mkRayPkg ray (pkg_op pkg) (pkg_wvl pkg)])
  end.

Definition trace_boundary_rays_at_field (opt_model : OpticalModel)
    (fld : Field) (wvl : F) (use_named_tuples : bool) : result (list RayPkg) :=
  boundary_rays_loop opt_model fld use_named_tuples (pupil_rays opt_model)
                     wvl [].

(** *** trace_fan *)

(** An item [[pupil, result]] of a fan. *)
Inductive fan_item : Type :=
| Fan_filtered (pupil : vec2) (r : option Obj)
| Fan_pkg (pupil : vec2) (ray_pkg : RayPkg).

Fixpoint fan_loop (opt_model : OpticalModel) (fld : Field)
    (img_filter : option (vec2 -> RayPkg -> option Obj)) (kw : kwargs)
    (step : vec2) (count : nat) (start : vec2) (wvl : F)
    (fan : list fan_item) : result (list fan_item) :=
  match count with
  | O => Ret fan
  | S count' =>
      let pupil := start in
      ray_pkg <- call_trace_base opt_model pupil fld wvl kw ;;
      (* [pupil] names the array the call was given, as the call left it *)
      let pupil := pupil_after_trace_base fld kw pupil in
      let wvl := pkg_wvl ray_pkg in
      let fan := match img_filter with
                 | Some f => fan ++ [Fan_filtered pupil (f pupil ray_pkg)]
                 | None => fan ++ [Fan_pkg pupil ray_pkg]
                 end in
      fan_loop opt_model fld img_filter kw step count' (v2add start step)
               wvl fan
  end.

Definition trace_fan (opt_model : OpticalModel) (fan_rng : vec2 * vec2 * Z)
    (fld : Field) (wvl foc : F)
    (img_filter : option (vec2 -> RayPkg -> option Obj)) (kw : kwargs)
  : result (list fan_item) :=
  let '(start, stop, num) := fan_rng in
  let step := v2divs (v2sub stop start) (of_int (num - 1)) in
  fan_loop opt_model fld img_filter kw step (Py.range_len num) start wvl [].

(** *** trace_grid *)

(** The list object the name [working_grid] is bound to, if any. *)
Inductive wg_ref : Type :=
| WG_unbound
| WG_grid
| WG_row.

Record grid_state : Type := mkGridState {
  gs_start : vec2;
  gs_grid : list grid_item;
  gs_grid_row : list grid_entry;
  gs_working : wg_ref
}.

(** The state once [es] are appended to the list [working_grid] names. *)
Definition wg_extend (st : grid_state) (es : list grid_entry) : grid_state :=
  match gs_working st with
  | WG_unbound => st
  | WG_grid =>
      mkGridState (gs_start st) (gs_grid st ++ map GI_entry es)
                  (gs_grid_row st) (gs_working st)
  | WG_row =>
      mkGridState (gs_start st) (gs_grid st) (gs_grid_row st ++ es)
                  (gs_working st)
  end.

(** [working_grid.append(e)]. *)
Definition wg_append (st : grid_state) (e : grid_entry) : result grid_state :=
  match gs_working st with
  | WG_unbound => Raise UnboundLocalError
  | _ => Ret (wg_extend st [e])
  end.

Definition with_check_apertures (kw : kwargs) : kwargs :=
  mkKwargs (kw_apply_vignetting kw) (kw_use_named_tuples kw) (Some true)
           (kw_output_filter kw) (kw_rayerr_filter kw) (kw_image_pt kw).

(** The call [trace_safe(opt_model, pupil, fld, wvl, output_filter,
    rayerr_filter, check_apertures=True, **kwargs)]: a keyword of [kwargs]
    that names an argument already given is a TypeError. *)
Definition grid_trace_safe (opt_model : OpticalModel) (pupil : vec2)
    (fld : Field) (wvl : F) (output_filter : option output_filter)
    (rayerr_filter : option string) (kw : kwargs)
  : result (option ray_result) :=
  match kw_output_filter kw, kw_rayerr_filter kw, kw_check_apertures kw with
  | None, None, None =>
      trace_safe opt_model pupil fld wvl output_filter rayerr_filter
                 (with_check_apertures kw)
  | _, _, _ => Raise TypeError
  end.

Definition is_not_None {A} (o : option A) : bool :=
  match o with Some _ => true | None => false end.

(** [start[1] += step[1]]. *)
Definition advance_col (step : vec2) (st : grid_state) : grid_state :=
  mkGridState (V2 (v2x (gs_start st)) (v2y (gs_start st) + v2y step))
              (gs_grid st) (gs_grid_row st) (gs_working st).

(** The body of the inner loop. *)
Definition grid_cell (opt_model : OpticalModel) (fld : Field) (wvl : F)
    (img_filter : option (vec2 -> option ray_result -> option Obj))
    (append_if_none : bool) (output_filter : option output_filter)
    (rayerr_filter : option string) (kw : kwargs) (step : vec2)
    (st : grid_state) : result grid_state :=
  let pupil := gs_start st in
  ray_result <- grid_trace_safe opt_model pupil fld wvl output_filter
                                rayerr_filter kw ;;
  (* [pupil] names the array the call was given, as the call left it *)
  let pupil := pupil_after_trace_base fld kw pupil in
  st' <- match ray_result with
         | Some rr =>
             match img_filter with
             | Some f => wg_append st (GE_filtered (f pupil (Some rr)))
             | None =>
                 wg_append st (GE_triple (v2x pupil) (v2y pupil) (Some rr))
             end
         | None => (* ray outside pupil or failed *)
             match img_filter with
             | Some f =>
                 let r := f pupil None in
                 if is_not_None r || append_if_none
                 then wg_append st (GE_filtered r)
                 else Ret st
             | None =>
                 if append_if_none
                 then wg_append st (GE_triple (v2x pupil) (v2y pupil) None)
                 else Ret st
             end
         end ;;
  Ret (advance_col step st').

Fixpoint grid_inner_loop (cell : grid_state -> result grid_state)
    (count : nat) (st : grid_state) : result grid_state :=
  match count with
  | O => Ret st
  | S count' => st' <- cell st ;; grid_inner_loop cell count' st'
  end.

(** The body of the outer loop. *)
Definition grid_row_step (cell : grid_state -> result grid_state)
    (form : string) (num : Z) (start0 step : vec2) (st : grid_state)
  : result grid_state :=
  let st := if String.eqb form "list" then
              mkGridState (gs_start st) (gs_grid st) (gs_grid_row st) WG_grid
            else if String.eqb form "grid" then
              mkGridState (gs_start st) (gs_grid st) [] WG_row
            else st in
  st <- grid_inner_loop cell (Py.range_len num) st ;;
  let grid := if String.eqb form "grid"
              then gs_grid st ++ [GI_row (gs_grid_row st)]
              else gs_grid st in
  Ret (mkGridState (V2 (v2x (gs_start st) + v2x step) (v2y start0))
                   grid (gs_grid_row st) (gs_working st)).

Fixpoint grid_outer_loop (row : grid_state -> result grid_state)
    (count : nat) (st : grid_state) : result grid_state :=
  match count with
  | O => Ret st
  | S count' => st' <- row st ;; grid_outer_loop row count' st'
  end.

(** [trace_grid]. *)
Definition trace_grid (opt_model : OpticalModel) (grid_rng : vec2 * vec2 * Z)
    (fld : Field) (wvl foc : F)
    (img_filter : option (vec2 -> option ray_result -> option Obj))
    (form : string) (append_if_none : bool) (kw : kwargs)
  : result (list grid_item) :=
  let output_filter := Py.get (kw_output_filter kw) None in
  let rayerr_filter := Py.get (kw_rayerr_filter kw) None in
  let '(start, stop, num) := grid_rng in
  let step := v2divs (v2sub stop start) (of_int (num - 1)) in
  let cell := grid_cell opt_model fld wvl img_filter append_if_none
                        output_filter rayerr_filter kw step in
  st <- grid_outer_loop (grid_row_step cell form num start step)
                        (Py.range_len num)
                        (mkGridState start [] [] WG_unbound) ;;
  np_array (gs_grid st).

(** ** Coddington trace *)

(** [math.sqrt]: a negative argument is a ValueError. *)
Definition math_sqrt (x : F) : result F :=
  if fltb x f0 then Raise ValueError else Ret (fsqrt x).

(** The oblique power of an interface, from its paraxial power, the indices
    before and after it and the cosines of incidence and refraction. *)
Definition obl_power_of (optical_power before_rind after_rind cosI cosI_prime : F)
  : F :=
  let obl_power := optical_power in
  if negb (feqb obl_power f0) then
    obl_power * ((after_rind * cosI_prime - before_rind * cosI) /
                 (after_rind - before_rind))
  else obl_power.

(** The variables that live across the iterations of the loop over the
    path; [None] is a name not bound yet (or bound to [None]). *)
Record coddington_state : Type := mkCoddington {
  before_rind : F;
  before_dir : option vec3;
  s_before : option F;
  t_before : option F;
  s_prime : option F;
  t_prime : option F;
  after_dir : option vec3;
  pt : option vec3
}.

Definition path_item : Type :=
  (option RaySeg * option Interface * option F * option Tfrm * option F)%type.

(** The body of the loop over the path. *)
Definition coddington_step (st : coddington_state) (item : path_item)
  : result coddington_state :=
  let '(r, ifc, after_rind, tfrm, z_dir) := item in
  let after_rind := match after_rind with
                    | Some n => n
                    | None => before_rind st
                    end in
  match r with
  | None => Raise TypeError
  | Some seg =>
      let after_dst := seg_dst seg in
      let normal := seg_nrml seg in
      match before_dir st with
      | Some _ =>
          let normal_len := norm normal in
          let cosI_prime := dot (seg_d seg) normal / normal_len in
          sinI_prime <- math_sqrt (f1 - cosI_prime * cosI_prime) ;;
          let sinI := after_rind * sinI_prime / before_rind st in
          cosI <- math_sqrt (f1 - sinI * sinI) ;;
          match ifc with
          | None => Raise AttributeError
          | Some ifc =>
              let obl_power := obl_power_of (optical_power ifc) (before_rind st)
                                            after_rind cosI cosI_prime in
              match s_before st, t_before st with
              | Some s_b, Some t_b =>
                  let n_by_s_prime := before_rind st / s_b + obl_power in
                  let s_prime := after_rind / n_by_s_prime in
                  let n_cosIp2_by_t_prime :=
                    before_rind st * (cosI * cosI) / t_b + obl_power in
                  let t_prime :=
                    after_rind * (cosI_prime * cosI_prime) / n_cosIp2_by_t_prime in
                  Ret (mkCoddington after_rind (Some (seg_d seg))
                         (Some (s_prime - after_dst)) (Some (t_prime - after_dst))
                         (Some s_prime) (Some t_prime)
                         (Some (seg_d seg)) (Some (seg_p seg)))
              | _, _ => Raise TypeError
              end
          end
      | None =>
          Ret (mkCoddington after_rind (Some (seg_d seg))
                 (Some (- after_dst)) (Some (- after_dst))
                 (s_prime st) (t_prime st)
                 (Some (seg_d seg)) (Some (seg_p seg)))
      end
  end.

Fixpoint coddington_loop (path : list path_item) (st : coddington_state)
  : result coddington_state :=
  match path with
  | [] => Ret st
  | item :: rest => st' <- coddington_step st item ;; coddington_loop rest st'
  end.

(** [[n[wl] for n in seq_model.rndx]]. *)
Fixpoint rndx_at (rndx : list (list F)) (wl : Z) : result (list F) :=
  match rndx with
  | [] => Ret []
  | n :: rest =>
      match Py.index n wl with
      | None => Raise IndexError
      | Some v => vs <- rndx_at rest wl ;; Ret (v :: vs)
      end
  end.

Definition trace_coddington_fan (opt_model : OpticalModel) (ray_pkg : RayPkg)
    (foc : option F) : result (F * F) :=
  let seq_model := seq_model opt_model in
  let wl := index_for_wavelength seq_model (pkg_wvl ray_pkg) in
  rindices <- rndx_at (rndx seq_model) wl ;;
  let path := Py.zip_longest (pkg_ray ray_pkg) (ifcs seq_model) rindices
                             (lcl_tfrms seq_model) (z_dir seq_model) in
  match rindices with
  | [] => Raise IndexError
  | rind0 :: _ =>
      st <- coddington_loop path
              (mkCoddington rind0 None None None None None None None) ;;
      match s_prime st, t_prime st, after_dir st, pt st with
      | Some s_prime, Some t_prime, Some after_dir, Some pt =>
          let s_dfoc := s_prime * vz after_dir + vz pt in
          let t_dfoc := t_prime * vz after_dir + vz pt in
          match foc with
          | Some focus_shift => Ret (s_dfoc - focus_shift, t_dfoc - focus_shift)
          | None => Ret (s_dfoc, t_dfoc)
          end
      | _, _, _, _ => Raise UnboundLocalError
      end
  end.

(** ** intersect_2_lines *)

Definition intersect_2_lines (P1 V1 P2 V2 : vec3) : F :=
  let Vx := cross V1 V2 in
  dot (cross (vsub P2 P1) V1) Vx / dot Vx Vx.

End Model.

(** ** The remaining functions of the file *)

Section ModelRest.

Context {F : Type} {FO : FloatOps F} {Obj : Type} {X : @Collaborators F Obj}.

Local Open Scope fl_scope.

(** *** retrieve_ray

    The argument is the triple [(px, py, ray_item)] a grid cell holds. *)
Definition retrieve_ray (px py : F) (ray_item : option (@ray_result F Obj))
  : option (@ray_result F Obj) :=
  match ray_item with
  | Some (RR_err e) => option_map RR_pkg (te_ray_pkg e)
  | _ => ray_item
  end.

(** *** boundary_ray_dict

    A Python dict with string keys, in insertion order: assigning to a key
    that is present replaces its value in place. *)
Definition py_dict (V : Type) : Type := list (string * V).

Fixpoint dict_set {V} (d : py_dict V) (k : string) (v : V) : py_dict V :=
  match d with
  | [] => [(k, v)]
  | (k', v') :: rest =>
      if String.eqb k' k then (k', v) :: rest
      else (k', v') :: dict_set rest k v
  end.

Fixpoint dict_get {V} (d : py_dict V) (k : string) : option V :=
  match d with
  | [] => None
  | (k', v') :: rest => if String.eqb k' k then Some v' else dict_get rest k
  end.

(** The loop over [zip(rim_rays, ray_labels)]. *)
Fixpoint boundary_ray_dict_loop (rim_rays : list (@RayPkg F))
    (ray_labels : list string) (pupil_rays : py_dict (@RayPkg F))
  : py_dict (@RayPkg F) :=
  match rim_rays, ray_labels with
  | ray :: rays, lbl :: lbls =>
      boundary_ray_dict_loop rays lbls (dict_set pupil_rays lbl ray)
  | _, _ => pupil_rays
  end.

(** [ray_labels] is [opt_model.optical_spec.pupil.ray_labels]. *)
Definition boundary_ray_dict (ray_labels : list string)
    (rim_rays : list (@RayPkg F)) : py_dict (@RayPkg F) :=
  boundary_ray_dict_loop rim_rays ray_labels [].

(** *** apply_paraxial_vignetting *)

(** A float that is neither an infinity nor a NaN. *)
Definition is_finite (x : F) : bool := feqb (x - x) f0.

(** [x**2] on a Python float: the square, or OverflowError when the square
    of a finite [x] is out of range. *)
Definition float_pow2 (x : F) : @result F F :=
  let y := x * x in
  if is_finite x && negb (is_finite y)
  then Raise (OtherException "OverflowError")
  else Ret y.

(** The body of the loop over the fields.  [max_field] and [is_relative]
    are [fov.max_field()[0]] and [fov.is_relative]; [paraxial_vignetting]
    is the method of the paraxial model, which gives for the lower and the
    upper ray a value and the index of the limiting surface, if any, or
    raises.  Everything that can raise comes before the first assignment to
    the field: a body that raises leaves the field as it was. *)
Definition vignette_field (max_field : F) (is_relative : bool)
    (paraxial_vignetting : F -> @result F ((F * option Z) * (F * option Z)))
    (fld : @Field F) : @result F (@Field F) :=
  x2 <- float_pow2 (fld_x fld) ;;
  y2 <- float_pow2 (fld_y fld) ;;
  rel_fov <- math_sqrt (x2 + y2) ;;
  let rel_fov := if negb is_relative && negb (feqb max_field f0)
                 then rel_fov / max_field else rel_fov in
  mins <- paraxial_vignetting rel_fov ;;
  let '(min_vly, min_vuy) := mins in
  let fld := match snd min_vly with
             | Some _ =>
                 mkField (fld_x fld) (fld_y fld) (vux fld) (vuy fld) (vlx fld)
                         (f1 - fst min_vly) (aim_pt fld) (chief_ray fld)
                         (ref_sphere fld)
             | None => fld
             end in
  let fld := match snd min_vuy with
             | Some _ =>
                 mkField (fld_x fld) (fld_y fld) (vux fld) (f1 - fst min_vuy)
                         (vlx fld) (vly fld) (aim_pt fld) (chief_ray fld)
                         (ref_sphere fld)
             | None => fld
             end in
  Ret fld.

(** The loop over the fields of the field of view: how it ends, and the
    fields as it leaves them.  The fields are objects assigned to in place,
    so those before a field whose turn raises keep their new values. *)
Fixpoint apply_paraxial_vignetting (max_field : F) (is_relative : bool)
    (paraxial_vignetting : F -> @result F ((F * option Z) * (F * option Z)))
    (fields : list (@Field F)) : @result F unit * list (@Field F) :=
  match fields with
  | [] => (Ret tt, [])
  | fld :: rest =>
      match vignette_field max_field is_relative paraxial_vignetting fld with
      | Raise e => (Raise e, fld :: rest)
      | Ret fld' =>
          let '(r, rest') := apply_paraxial_vignetting max_field is_relative
                               paraxial_vignetting rest in
          (r, fld' :: rest')
      end
  end.

(** *** refocus

    [fields] is [osp['fov'].fields], [central_wvl] is
    [osp['wvls'].central_wvl]. *)
Definition refocus (opt_model : OpticalModel) (fields : list (@Field F))
    (central_wvl : F) : @result F F :=
  match Py.index fields 0 with
  | None => Raise IndexError
  | Some fld =>
      ray_result <- trace_safe opt_model (V2 f0 f1) fld central_wvl None
                      (Some "full"%string)
                      (mkKwargs None (Some true) None None None None) ;;
      match ray_result with
      | Some (RR_pkg pkg) =>
          let df_ray := pkg_ray pkg in
          match Py.index df_ray (-1), Py.index df_ray (-2) with
          | Some last, Some prev =>
              Ret (- vy (seg_p last) / (vy (seg_d prev) / vz (seg_d prev)))
          | _, _ => Raise IndexError
          end
      (* an exception object cannot be unpacked; the other kinds of
         result are not produced under these filters *)
      | Some (RR_last _ _ _) => Raise AttributeError
      | _ => Raise TypeError
      end
  end.

(** *** trace_astigmatism_coddington_fan *)
Definition trace_astigmatism_coddington_fan (opt_model : OpticalModel)
    (fld : Field) (wvl : F) (foc : option F) : @result F (F * F) :=
  cr <- call_trace_base opt_model (V2 f0 f0) fld wvl no_kwargs ;;
  trace_coddington_fan opt_model cr foc.

(** *** trace_astigmatism *)

(** [ray[-1]] of a ray package. *)
Definition last_seg (pkg : @RayPkg F) : @result F (@RaySeg F) :=
  match Py.index (pkg_ray pkg) (-1) with
  | None => Raise IndexError
  | Some seg => Ret seg
  end.

Definition trace_astigmatism (opt_model : OpticalModel) (fld : Field)
    (wvl : F) (foc : option F) (dx dy : F) : @result F (F * F) :=
  r0 <- call_trace_base opt_model (V2 f0 f0) fld wvl no_kwargs ;;
  r1 <- call_trace_base opt_model (V2 dx f0) fld wvl no_kwargs ;;
  r2 <- call_trace_base opt_model (V2 f0 dy) fld wvl no_kwargs ;;
  r3 <- call_trace_base opt_model (V2 (- dx) f0) fld wvl no_kwargs ;;
  r4 <- call_trace_base opt_model (V2 f0 (- dy)) fld wvl no_kwargs ;;
  seg1 <- last_seg r1 ;;
  seg3 <- last_seg r3 ;;
  let s := intersect_2_lines (seg_p seg1) (seg_d seg1) (seg_p seg3) (seg_d seg3) in
  let s_foc := s * vz (seg_d seg1) in
  seg2 <- last_seg r2 ;;
  seg4 <- last_seg r4 ;;
  let t := intersect_2_lines (seg_p seg2) (seg_d seg2) (seg_p seg4) (seg_d seg4) in
  let t_foc := t * vz (seg_d seg2) in
  match foc with
  | Some focus_shift => Ret (s_foc - focus_shift, t_foc - focus_shift)
  | None => Ret (s_foc, t_foc)
  end.

(** *** trace_boundary_rays *)

(** The call [trace_boundary_rays_at_field(opt_model, fld, wvl, **kwargs)]:
    [use_named_tuples] is the only keyword the callee has. *)
Definition call_trace_boundary_rays_at_field (opt_model : @OpticalModel F)
    (fld : @Field F) (wvl : F) (kw : @kwargs F Obj) : @result F (list (@RayPkg F)) :=
  match kw_apply_vignetting kw, kw_check_apertures kw, kw_output_filter kw,
        kw_rayerr_filter kw, kw_image_pt kw with
  | None, None, None, None, None =>
      trace_boundary_rays_at_field opt_model fld wvl
        (Py.get (kw_use_named_tuples kw) false)
  | _, _, _, _, _ => Raise TypeError
  end.

(** The loop over [fov.fields].  [assigned] lists, field by field, the
    dict the loop has stored in [fld.pupil_rays]; the stores stay when a
    later field raises. *)
Fixpoint trace_boundary_rays_loop (opt_model : @OpticalModel F)
    (ray_labels : list string) (kw : @kwargs F Obj) (wvl : F)
    (fields : list (@Field F)) (rayset : list (list (@RayPkg F)))
    (assigned : list (py_dict (@RayPkg F)))
  : @result F (list (list (@RayPkg F))) * list (py_dict (@RayPkg F)) :=
  match fields with
  | [] => (Ret rayset, assigned)
  | fld :: rest =>
      match call_trace_boundary_rays_at_field opt_model fld wvl kw with
      | Raise e => (Raise e, assigned)
      | Ret rim_rays =>
          trace_boundary_rays_loop opt_model ray_labels kw wvl rest
            (rayset ++ [rim_rays])
            (assigned ++ [boundary_ray_dict ray_labels rim_rays])
      end
  end.

(** [fields] is [fov.fields], [ray_labels] is [pupil.ray_labels]. *)
Definition trace_boundary_rays (opt_model : @OpticalModel F)
    (fields : list (@Field F)) (ray_labels : list string) (kw : @kwargs F Obj)
  : @result F (list (list (@RayPkg F))) * list (py_dict (@RayPkg F)) :=
  let wvl := central_wavelength (seq_model opt_model) in
  trace_boundary_rays_loop opt_model ray_labels kw wvl fields [] [].

(** *** trace_ray_list_at_field *)

Fixpoint ray_list_loop (opt_model : @OpticalModel F) (fld : @Field F)
    (ray_list : list (@vec2 F)) (wvl : F) (rayset : list (list (@RaySeg F)))
  : @result F (list (list (@RaySeg F))) :=
  match ray_list with
  | [] => Ret rayset
  | p :: rest =>
      pkg <- call_trace_base opt_model p fld wvl no_kwargs ;;
      ray_list_loop opt_model fld rest (pkg_wvl pkg) (rayset ++ [pkg_ray pkg])
  end.

(** The value is [rayset], the rays that [ray_df] then wraps one by one
    into data frames. *)
Definition trace_ray_list_at_field (opt_model : @OpticalModel F)
    (ray_list : list (@vec2 F)) (fld : @Field F) (wvl foc : F)
  : @result F (list (list (@RaySeg F))) :=
  ray_list_loop opt_model fld ray_list wvl [].

(** *** trace_astigmatism_curve *)

(** [fld.y = f]. *)
Definition set_fld_y (fld : @Field F) (f : F) : @Field F :=
  mkField (fld_x fld) f (vux fld) (vuy fld) (vlx fld) (vly fld)
          (aim_pt fld) (chief_ray fld) (ref_sphere fld).

Notation "x <~ m ;; k" := (m_bind m (fun x => k))
  (at level 61, m at next level, right associativity).

(** The loop over the field heights, on the one [Field] object [fld]. *)
Fixpoint astigmatism_curve_loop (opt_model : @OpticalModel F) (wvl foc dx dy : F)
    (heights : list F) (data : list F * list F * list F)
  : @M F (list F * list F * list F) :=
  match heights with
  | [] => m_ret data
  | f :: rest =>
      let '(field_data, s_data, t_data) := data in
      _ <~ m_assign (fun fld => set_fld_y fld f) ;;
      pc <~ setup_pupil_coords opt_model wvl foc None ;;
      let '(ref_sphere, cr_pkg) := pc in
      _ <~ m_assign (fun fld => set_chief_ray fld (Some cr_pkg)) ;;
      _ <~ m_assign (fun fld => set_ref_sphere fld (Some ref_sphere)) ;;
      fld <~ m_get ;;
      st <~ m_lift (trace_astigmatism opt_model fld wvl (Some foc) dx dy) ;;
      astigmatism_curve_loop opt_model wvl foc dx dy rest
        (field_data ++ [f], s_data ++ [fst st], t_data ++ [snd st])
  end.

(** [wvl] and [foc] are what [osp.lookup_fld_wvl_focus(0)] gives,
    [heights] is [np.linspace(0., max_field, num=num_points)], [dx] and
    [dy] are the keyword arguments handed on to [trace_astigmatism] (0.001
    when absent); the state the computation starts from is the new
    [Field()]. *)
Definition trace_astigmatism_curve (opt_model : @OpticalModel F) (wvl foc : F)
    (heights : list F) (dx dy : F) : @M F (list F * list F * list F) :=
  astigmatism_curve_loop opt_model wvl foc dx dy heights ([], [], []).

End ModelRest.

(** ** Vocabulary of the properties *)

Section Vocabulary.

Context {F : Type} {FO : FloatOps F} {Obj : Type}.

(** The direction from [pt0] towards [pt1], as the source normalises it. *)
Definition aim_dir (pt1 pt0 : @vec3 F) : vec3 :=
  vdivs (vsub pt1 pt0) (norm (vsub pt1 pt0)).

(** A computation that leaves the field as it found it. *)
Definition read_only {A} (m : @M F A) : Prop := forall fld, snd (m fld) = fld.

(** The length of the list [working_grid] names. *)
Definition wg_length (st : @grid_state F Obj) : nat :=
  match gs_working st with
  | WG_unbound => 0
  | WG_grid => List.length (gs_grid st)
  | WG_row => List.length (gs_grid_row st)
  end.

(** The entries a cell appends, from its pupil point and what the safe
    trace gave. *)
Definition cell_entries
    (img_filter : option (@vec2 F -> option (@ray_result F Obj) -> option Obj))
    (append_if_none : bool) (pupil : @vec2 F)
    (ray_result : option (@ray_result F Obj)) : list (@grid_entry F Obj) :=
  match ray_result, img_filter with
  | Some rr, Some f => [GE_filtered (f pupil (Some rr))]
  | Some rr, None => [GE_triple (v2x pupil) (v2y pupil) (Some rr)]
  | None, Some f =>
      if is_not_None (f pupil None) || append_if_none
      then [GE_filtered (f pupil None)] else []
  | None, None =>
      if append_if_none then [GE_triple (v2x pupil) (v2y pupil) None] else []
  end.

(** A sample's trace completes, or raises a trace error that carries a
    ray package. *)
Definition recoverable (r : @result F (@RayPkg F)) : Prop :=
  match r with
  | Ret _ => True
  | Raise (TraceErr e) => te_ray_pkg e <> None
  | Raise _ => False
  end.

(** The package a sample contributes: the traced one, or the one carried
    by the trace error. *)
Definition sample_pkg (r : @result F (@RayPkg F)) : option RayPkg :=
  match r with
  | Ret pkg => Some pkg
  | Raise (TraceErr e) => te_ray_pkg e
  | Raise _ => None
  end.

End Vocabulary.

(** ** Vocabulary of the further properties *)

Section VocabularyRest.

Context {F : Type} {FO : FloatOps F} {Obj : Type}.

(** The pupil point of a fan item. *)
Definition fan_pupil (item : @fan_item F Obj) : @vec2 F :=
  match item with
  | Fan_filtered pupil _ => pupil
  | Fan_pkg pupil _ => pupil
  end.

(** The pupil point of sample [i]: [step] added [i] times to [start]. *)
Definition fan_sample (start step : @vec2 F) (i : nat) : @vec2 F :=
  Nat.iter i (fun p => v2add p step) start.

(** A fan item holds the package [pkg], as it is or through the filter. *)
Definition fan_item_of (img_filter : option (@vec2 F -> @RayPkg F -> option Obj))
    (pupil : @vec2 F) (pkg : @RayPkg F) : @fan_item F Obj :=
  match img_filter with
  | Some f => Fan_filtered pupil (f pupil pkg)
  | None => Fan_pkg pupil pkg
  end.

(** Two fields that differ at most in their lower and upper y vignetting. *)
Definition same_but_y_vignetting (fld fld' : @Field F) : Prop :=
  fld_x fld' = fld_x fld /\ fld_y fld' = fld_y fld /\
  vux fld' = vux fld /\ vlx fld' = vlx fld /\
  aim_pt fld' = aim_pt fld /\ chief_ray fld' = chief_ray fld /\
  ref_sphere fld' = ref_sphere fld.

(** The mirror image of a vector in the y-z plane. *)
Definition mirror_x (v : @vec3 F) : @vec3 F := V3 (fneg (vx v)) (vy v) (vz v).

(** The cosine between the direction after an interface and its normal. *)
Definition cos_after (seg : @RaySeg F) : F :=
  fdiv (dot (seg_d seg) (seg_nrml seg)) (norm (seg_nrml seg)).

(** The list of the pairs [(lbl, ray)] that [zip] yields, latest first. *)
Definition labelled (ray_labels : list string) (rim_rays : list (@RayPkg F))
  : list (string * @RayPkg F) :=
  rev (combine ray_labels rim_rays).

(** A ray that fits the sequential model: at least two segments, one
    interface per segment, and no other list of the path longer than the
    ray. *)
Definition fits (sm : @SequentialModel F) (ray : list (@RaySeg F)) : Prop :=
  (2 <= List.length ray)%nat /\
  List.length (ifcs sm) = List.length ray /\
  (1 <= List.length (rndx sm) <= List.length ray)%nat /\
  (List.length (lcl_tfrms sm) <= List.length ray)%nat /\
  (List.length (z_dir sm) <= List.length ray)%nat.

(** The divisors of one turn of the Coddington loop, in the order of the
    source: the length of the normal, the index before the interface, the
    index difference (when the power is not zero), and for the sagittal
    and the tangential fan the vergence before the interface and the
    quantity the image distance is divided out of. *)
Definition step_divisors (st : @coddington_state F) (item : @path_item F)
  : list F :=
  let '(r, ifc, after_rind, tfrm, z_dir) := item in
  match r, ifc, before_dir st, s_before st, t_before st with
  | Some seg, Some ifc, Some _, Some s_b, Some t_b =>
      let after_rind := match after_rind with
                        | Some n => n
                        | None => before_rind st
                        end in
      let normal_len := norm (seg_nrml seg) in
      let cosI_prime := fdiv (dot (seg_d seg) (seg_nrml seg)) normal_len in
      let sinI_prime := fsqrt (fsub f1 (fmul cosI_prime cosI_prime)) in
      let sinI := fdiv (fmul after_rind sinI_prime) (before_rind st) in
      let cosI := fsqrt (fsub f1 (fmul sinI sinI)) in
      let obl_power := obl_power_of (optical_power ifc) (before_rind st)
                                    after_rind cosI cosI_prime in
      [normal_len; before_rind st]
        ++ (if negb (feqb (optical_power ifc) f0)
            then [fsub after_rind (before_rind st)] else [])
        ++ [s_b; fadd (fdiv (before_rind st) s_b) obl_power;
            t_b;
            fadd (fdiv (fmul (before_rind st) (fmul cosI cosI)) t_b) obl_power]
  | _, _, _, _, _ => []
  end.

(** The divisors of the whole loop, as far as it runs. *)
Fixpoint path_divisors (path : list (@path_item F))
    (st : @coddington_state F) : list F :=
  match path with
  | [] => []
  | item :: rest =>
      step_divisors st item
        ++ match coddington_step st item with
           | Ret st' => path_divisors rest st'
           | Raise _ => []
           end
  end.

(** The divisors of [trace_coddington_fan] on a ray and the refractive
    indices at its wavelength. *)
Definition fan_divisors (sm : @SequentialModel F) (ray : list (@RaySeg F))
    (rindices : list F) : list F :=
  match rindices with
  | [] => []
  | rind0 :: _ =>
      path_divisors
        (Py.zip_longest ray (ifcs sm) rindices (lcl_tfrms sm) (z_dir sm))
        (mkCoddington rind0 None None None None None None None)
  end.

(** The two vergences before the next interface are bound and equal. *)
Definition balanced (st : @coddington_state F) : Prop :=
  before_dir st <> None /\
  exists s, s_before st = Some s /\ t_before st = Some s.

(** The two image distances are bound and equal, and so are the last
    direction and point. *)
Definition focused (st : @coddington_state F) : Prop :=
  exists sp d p,
    s_prime st = Some sp /\ t_prime st = Some sp /\
    after_dir st = Some d /\ pt st = Some p.

End VocabularyRest.

(** ** A small system for concrete runs *)

Module Demo.

Section System.

Context {F : Type} {FO : FloatOps F}.

Local Open Scope fl_scope.

(** A segment at height [y] travelling along the axis. *)
Definition seg (y : F) : @RaySeg F :=
  mkRaySeg (V3 f0 y f0) (V3 f0 f0 f1) f1 (V3 f0 f0 f1).

(** A ray stopped after [n] interfaces, and a ray through all three. *)
Definition partial_pkg (n : nat) (wvl : F) : @RayPkg F :=
  mkRayPkg (repeat (seg f0) n) f0 wvl.
Definition full_pkg (y wvl : F) : @RayPkg F :=
  mkRayPkg [seg f0; seg y; seg y] f0 wvl.

(** A trace primitive that misses surface 1 when the ray starts downwards. *)
Definition trace_upper_half (_ : @SequentialModel F) (_ dir0 : @vec3 F)
    (wvl : F) (_ : @kwargs F unit) : @result F (@RayPkg F) :=
  if fltb (vy dir0) f0
  then Raise (TraceErr (TraceMissedSurfaceError 1 (Some (partial_pkg 1 wvl))))
  else Ret (full_pkg (vy dir0) wvl).

(** A trace primitive that always fails with [e]. *)
Definition trace_raising (e : @trace_error F) (_ : @SequentialModel F)
    (_ _ : @vec3 F) (_ : F) (_ : @kwargs F unit) : @result F (@RayPkg F) :=
  Raise (TraceErr e).

(** [np.array] as numpy 1.24 and later has it: a list whose rows differ in
    length, or one of whose cells holds a tuple next to two floats, is a
    ValueError (inhomogeneous shape); anything else becomes an array. *)
Definition holds_tuple (e : @grid_entry F unit) : bool :=
  match e with
  | GE_triple _ _ (Some (RR_pkg _)) | GE_triple _ _ (Some (RR_last _ _ _)) => true
  | _ => false
  end.

Definition item_holds_tuple (item : @grid_item F unit) : bool :=
  match item with
  | GI_entry e => holds_tuple e
  | GI_row row => existsb holds_tuple row
  end.

Definition item_length (item : @grid_item F unit) : nat :=
  match item with
  | GI_entry _ => 0
  | GI_row row => List.length row
  end.

Definition np_array_1_24 (grid : list (@grid_item F unit))
  : @result F (list (@grid_item F unit)) :=
  let ragged := match grid with
                | [] => false
                | item :: rest =>
                    existsb (fun it => negb (Nat.eqb (item_length it)
                                                     (item_length item))) rest
                end in
  if ragged || existsb item_holds_tuple grid then Raise ValueError
  else Ret grid.

(** Collaborators around a trace primitive: the object point is the field
    point, nothing is vignetted, the root finders evaluate the residual
    once at the starting guess, and numpy is 1.24 or later. *)
Definition collaborators
    (t : @SequentialModel F -> vec3 -> vec3 -> F -> @kwargs F unit ->
         result RayPkg)
  : @Collaborators F unit :=
  {| rt_trace := t;
     obj_coords := fun _ fld => V3 (fld_x fld) (fld_y fld) f0;
     apply_vignetting := fun _ pupil => pupil;
     pupil_after_vignetting := fun _ pupil => pupil;
     transfer_to_exit_pupil := fun _ pd dist => Ret (mkExpSeg (fst pd) (snd pd) dist);
     calculate_reference_sphere :=
       fun _ _ _ foc crp _ => Ret (mkRefSphere (V3 f0 f0 foc) (V3 f0 f0 f1) f1);
     wave_abr_full_calc := fun _ _ _ _ _ _ _ => Ret f0;
     newton := fun func x0 => _ <- func x0 ;; Ret x0;
     fsolve := fun func x0 _ => _ <- func x0 ;; Ret x0;
     index_for_wavelength := fun _ _ => 0%Z;
     central_wavelength := fun _ => of_int 550;
     np_array := np_array_1_24 |}.

(** Object, stop and image surface; the entrance pupil has radius 1 and
    lies 10 behind the object. *)
Definition model : @OpticalModel F :=
  mkOpticalModel
    (mkSeqModel [mkInterface f0; mkInterface f1; mkInterface f0]
                [[f1]; [f1]; [f1]] [] [f1] (Some 1%Z))
    (mkFod f1 (of_int 10) f0 f1)
    [V2 f0 f0; V2 f0 f1; V2 f0 (- f1)].

(** Object surface and one refracting surface of power 1/2 from index 1
    into index 3/2, one unit behind the object. *)
Definition single_surface : @OpticalModel F :=
  mkOpticalModel
    (mkSeqModel [mkInterface f0; mkInterface (f1 / of_int 2)]
                [[f1]; [of_int 3 / of_int 2]] [] [f1] (Some 1%Z))
    (mkFod f1 (of_int 10) f0 f1)
    [V2 f0 f0].

(** The same surface followed by an image surface in the glass. *)
Definition refracting : @OpticalModel F :=
  mkOpticalModel
    (mkSeqModel [mkInterface f0; mkInterface (f1 / of_int 2); mkInterface f0]
                [[f1]; [of_int 3 / of_int 2]; [of_int 3 / of_int 2]]
                [] [f1] (Some 1%Z))
    (mkFod f1 (of_int 10) f0 f1)
    [V2 f0 f0].

(** The axial field, nothing cached. *)
Definition field0 : @Field F := mkField f0 f0 f0 f0 f0 f0 None None None.

(** A trace primitive that returns [pkg] at the wavelength asked for. *)
Definition trace_const (ray : list (@RaySeg F)) (_ : @SequentialModel F)
    (_ _ : @vec3 F) (wvl : F) (_ : @kwargs F unit) : @result F (@RayPkg F) :=
  Ret (mkRayPkg ray f0 wvl).

(** A marginal ray that comes down to the image surface under 45 degrees
    and meets it two units above the axis. *)
Definition converging_ray : list (@RaySeg F) :=
  [seg f0;
   mkRaySeg (V3 f0 (of_int 3) f0) (V3 f0 (- f1) f1) f1 (V3 f0 f0 f1);
   mkRaySeg (V3 f0 (of_int 2) f0) (V3 f0 (- f1) f1) f0 (V3 f0 f0 f1)].

(** A trace primitive whose ray ends on the image surface where its start
    direction points, heading back towards the y-z plane. *)
Definition crossing_seg (dir0 : @vec3 F) : @RaySeg F :=
  mkRaySeg (V3 (vx dir0) (vy dir0) f0) (V3 (- vx dir0) (vy dir0) (vz dir0)) f0
           (V3 f0 f0 f1).
Definition trace_crossing (_ : @SequentialModel F) (_ dir0 : @vec3 F)
    (wvl : F) (_ : @kwargs F unit) : @result F (@RayPkg F) :=
  Ret (mkRayPkg [seg f0; crossing_seg dir0] f0 wvl).

(** The collaborators around the half-plane trace, with a root finder
    that gives up with the exception [e]. *)
Definition stalled (e : @exn F) : @Collaborators F unit :=
  {| rt_trace := trace_upper_half;
     obj_coords := fun _ fld => V3 (fld_x fld) (fld_y fld) f0;
     apply_vignetting := fun _ pupil => pupil;
     pupil_after_vignetting := fun _ pupil => pupil;
     transfer_to_exit_pupil := fun _ pd dist => Ret (mkExpSeg (fst pd) (snd pd) dist);
     calculate_reference_sphere :=
       fun _ _ _ foc crp _ => Ret (mkRefSphere (V3 f0 f0 foc) (V3 f0 f0 f1) f1);
     wave_abr_full_calc := fun _ _ _ _ _ _ _ => Ret f0;
     newton := fun _ _ => Raise e;
     fsolve := fun func x0 _ => _ <- func x0 ;; Ret x0;
     index_for_wavelength := fun _ _ => 0%Z;
     central_wavelength := fun _ => of_int 550;
     np_array := np_array_1_24 |}.

(** [fld.apply_vignetting] of a field that scales each pupil coordinate
    by one minus the vignetting factor of the side it lies on, unless that
    factor is zero. *)
Definition scale_pupil (fld : @Field F) (pupil : @vec2 F) : @vec2 F :=
  let scaled (c lower upper : F) :=
    let v := if fltb c f0 then lower else upper in
    if feqb v f0 then c else c * (f1 - v) in
  V2 (scaled (v2x pupil) (vlx fld) (vux fld))
     (scaled (v2y pupil) (vly fld) (vuy fld)).

(** The collaborators around the half-plane trace with that method, which
    works on the array it is given. *)
Definition vignetting : @Collaborators F unit :=
  {| rt_trace := trace_upper_half;
     obj_coords := fun _ fld => V3 (fld_x fld) (fld_y fld) f0;
     apply_vignetting := scale_pupil;
     pupil_after_vignetting := scale_pupil;
     transfer_to_exit_pupil := fun _ pd dist => Ret (mkExpSeg (fst pd) (snd pd) dist);
     calculate_reference_sphere :=
       fun _ _ _ foc crp _ => Ret (mkRefSphere (V3 f0 f0 foc) (V3 f0 f0 f1) f1);
     wave_abr_full_calc := fun _ _ _ _ _ _ _ => Ret f0;
     newton := fun func x0 => _ <- func x0 ;; Ret x0;
     fsolve := fun func x0 _ => _ <- func x0 ;; Ret x0;
     index_for_wavelength := fun _ _ => 0%Z;
     central_wavelength := fun _ => of_int 550;
     np_array := np_array_1_24 |}.

(** The axial field with half of the upper pupil vignetted in y. *)
Definition half_vignetted : @Field F :=
  mkField f0 f0 f0 (f1 / of_int 2) f0 f0 None None None.

(** The system around a trace that gives every ray the same three
    segments along the axis. *)
Definition axial_ray : list (@RaySeg F) := [seg f0; seg f0; seg f0].
Definition steady : @Collaborators F unit := collaborators (trace_const axial_ray).

End System.

(** The system in binary64 around the trace that misses below the axis,
    and around a trace that always raises [e]. *)
Definition upper : @Collaborators float unit := collaborators trace_upper_half.
Definition raising (e : @trace_error float) : @Collaborators float unit :=
  collaborators (trace_raising e).

End Demo.

(** * Properties *)

Unset Implicit Arguments.

(** ** The safe-trace wrapper *)

Section SafeTrace.

Context {F : Type} {FO : FloatOps F} {Obj : Type} {X : @Collaborators F Obj}.

(** Rebuilding a segment as a named tuple keeps its four items. *)
Lemma RaySeg_of_same (rs : @RaySeg F) : RaySeg_of rs = rs.
Proof. destruct rs; reflexivity. Qed.

Lemma named_pkg_same (pkg : @RayPkg F) : named_pkg pkg = pkg.
Proof.
  destruct pkg as [ray op wvl]; unfold named_pkg; cbn [pkg_ray pkg_op pkg_wvl].
  f_equal. induction ray as [|rs ray IH]; cbn [map]; [reflexivity|].
  now rewrite RaySeg_of_same, IH.
Qed.

Lemma set_ray_pkg_same (e : @trace_error F) :
  set_ray_pkg e (te_ray_pkg e) = e.
Proof. destruct e; reflexivity. Qed.

(** The last item of a non-empty list is what index [-1] reads. *)
Lemma index_last {A} (init : list A) (x : A) : Py.index (init ++ [x]) (-1) = Some x.
Proof.
  unfold Py.index. rewrite length_app. cbn [List.length].
  replace (0 <=? -1)%Z with false by reflexivity.
  replace (Z.of_nat (List.length init + 1) + -1)%Z
    with (Z.of_nat (List.length init)) by lia.
  destruct (Z.leb_spec 0 (Z.of_nat (List.length init))); [|lia].
  rewrite Nat2Z.id, nth_error_app2 by lia.
  now rewrite Nat.sub_diag.
Qed.

(** C2. [trace_safe] never raises a trace error, and what it returns is
    fixed by the two filters and the outcome of the trace.  On a trace
    error: no [rayerr_filter] gives [None]; 'summary' gives the error with
    its [ray_pkg] reset to [None]; 'full' gives the error with the package
    it carries.  On a completed trace: no [output_filter] gives the ray
    package; 'last' gives the final segment with the optical path and the
    wavelength; a callable gives its value on the package. *)
Theorem trace_safe_filter_table
    (opt_model : OpticalModel) (pupil : vec2) (fld : Field) (wvl : F)
    (output_filter : option output_filter) (rayerr_filter : option string)
    (kw : kwargs) :
  let traced := call_trace_base opt_model pupil fld wvl kw in
  let safe := trace_safe opt_model pupil fld wvl output_filter rayerr_filter kw in
  (forall e, safe <> Raise (TraceErr e)) /\
  (forall rayerr, traced = Raise (TraceErr rayerr) ->
     (rayerr_filter = None -> safe = Ret None) /\
     (rayerr_filter = Some "summary"%string ->
        safe = Ret (Some (RR_err (set_ray_pkg rayerr None)))) /\
     (rayerr_filter = Some "full"%string ->
        forall pkg, te_ray_pkg rayerr = Some pkg ->
        safe = Ret (Some (RR_err rayerr)))) /\
  (forall ray_pkg, traced = Ret ray_pkg ->
     (output_filter = None -> safe = Ret (Some (RR_pkg ray_pkg))) /\
     (output_filter = Some (OF_str "last") ->
        forall init final_seg, pkg_ray ray_pkg = init ++ [final_seg] ->
        safe = Ret (Some (RR_last final_seg (pkg_op ray_pkg) (pkg_wvl ray_pkg)))) /\
     (forall f, output_filter = Some (OF_call f) ->
        safe = Ret (option_map RR_custom (f ray_pkg)))).
Proof.
  intros traced safe. subst traced safe. unfold trace_safe.
  split; [|split].
  - intros e0.
    destruct (call_trace_base opt_model pupil fld wvl kw) as [pk|e].
    + destruct output_filter as [[s|f]|]; try discriminate.
      destruct (String.eqb s "last"); try discriminate.
      destruct (Py.index _ _); discriminate.
    + destruct e; try discriminate.
      destruct rayerr_filter as [s|]; try discriminate.
      destruct (String.eqb s "full").
      * destruct (te_ray_pkg e); discriminate.
      * destruct (String.eqb s "summary"); discriminate.
  - intros rayerr ->. repeat split.
    + now intros ->.
    + now intros ->.
    + intros -> pkg Hpkg. cbn. rewrite Hpkg, named_pkg_same, <- Hpkg.
      now rewrite set_ray_pkg_same.
  - intros ray_pkg ->.
    assert (Hnamed : (if Py.get (kw_use_named_tuples kw) false
                      then named_pkg ray_pkg else ray_pkg) = ray_pkg)
      by (destruct (Py.get _ _); [apply named_pkg_same | reflexivity]).
    cbv zeta. rewrite Hnamed. repeat split.
    + now intros ->.
    + intros -> init final_seg Hray.
      now rewrite String.eqb_refl, Hray, index_last.
    + now intros f ->.
Qed.

End SafeTrace.

(** ** Ray aiming: the residual of the 1D iteration *)

Section Aiming.

Context {F : Type} {FO : FloatOps F} {Obj : Type} {X : @Collaborators F Obj}.

(** Reading the residual off a ray or a payload raises no trace error. *)
Lemma y_residual_no_trace_error (ray : ray_var) (ifcx : Z) (y_target : F)
    (e : trace_error) :
  y_residual ray ifcx y_target <> Raise (TraceErr e).
Proof.
  unfold y_residual. destruct ray as [segs|[pkg|]]; try discriminate.
  - destruct (Py.index segs ifcx); discriminate.
  - destruct (Py.index (pkg_items pkg) ifcx) as [[segs|x]|]; try discriminate.
    destruct (Py.index segs 0); discriminate.
Qed.

(** What [y_stop_coordinate] does with each outcome of the trace. *)
Lemma y_stop_coordinate_missed y1 sm ifcx pt0 dist wvl y_target surf ray_pkg :
  rt_trace sm pt0 (aim_dir (V3 f0 y1 dist) pt0) wvl no_kwargs
    = Raise (TraceErr (TraceMissedSurfaceError surf ray_pkg)) ->
  y_stop_coordinate y1 sm ifcx pt0 dist wvl y_target
    = if (surf <=? ifcx)%Z
      then Raise (TraceErr (TraceMissedSurfaceError surf ray_pkg))
      else y_residual (Payload ray_pkg) ifcx y_target.
Proof.
  intros H. unfold y_stop_coordinate, aim_dir in *. cbv zeta. rewrite H.
  now destruct (surf <=? ifcx)%Z.
Qed.

Lemma y_stop_coordinate_tir y1 sm ifcx pt0 dist wvl y_target surf ray_pkg :
  rt_trace sm pt0 (aim_dir (V3 f0 y1 dist) pt0) wvl no_kwargs
    = Raise (TraceErr (TraceTIRError surf ray_pkg)) ->
  y_stop_coordinate y1 sm ifcx pt0 dist wvl y_target
    = if (surf <? ifcx)%Z
      then Raise (TraceErr (TraceTIRError surf ray_pkg))
      else y_residual (Payload ray_pkg) ifcx y_target.
Proof.
  intros H. unfold y_stop_coordinate, aim_dir in *. cbv zeta. rewrite H.
  now destruct (surf <? ifcx)%Z.
Qed.

(** C1 (as the code has it).  When the trace of an iteration raises
    MissedSurface or TotalInternalReflection, the error is raised again if
    the failing surface lies at or before the target interface (a missed
    surface with [surf <= ifcx], a total internal reflection with
    [surf < ifcx]); otherwise it is not raised again and the residual is
    read off the [ray_pkg] the error carries. *)
Theorem y_stop_coordinate_reraise_rule
    (y1 : F) (sm : SequentialModel) (ifcx : Z) (pt0 : vec3)
    (dist wvl y_target : F) (surf : Z) (ray_pkg : option RayPkg) :
  let traced := rt_trace sm pt0 (aim_dir (V3 f0 y1 dist) pt0) wvl no_kwargs in
  let res := y_stop_coordinate y1 sm ifcx pt0 dist wvl y_target in
  (traced = Raise (TraceErr (TraceMissedSurfaceError surf ray_pkg)) ->
     ((surf <= ifcx)%Z ->
        res = Raise (TraceErr (TraceMissedSurfaceError surf ray_pkg))) /\
     ((ifcx < surf)%Z ->
        res = y_residual (Payload ray_pkg) ifcx y_target /\
        forall e, res <> Raise (TraceErr e))) /\
  (traced = Raise (TraceErr (TraceTIRError surf ray_pkg)) ->
     ((surf < ifcx)%Z ->
        res = Raise (TraceErr (TraceTIRError surf ray_pkg))) /\
     ((ifcx <= surf)%Z ->
        res = y_residual (Payload ray_pkg) ifcx y_target /\
        forall e, res <> Raise (TraceErr e))).
Proof.
  intros traced res. subst traced res. split; intros H.
  - erewrite y_stop_coordinate_missed by exact H.
    destruct (Z.leb_spec surf ifcx); split; intros; try lia; auto.
    split; [reflexivity | intros e; apply y_residual_no_trace_error].
  - erewrite y_stop_coordinate_tir by exact H.
    destruct (Z.ltb_spec surf ifcx); split; intros; try lia; auto.
    split; [reflexivity | intros e; apply y_residual_no_trace_error].
Qed.

(** C3 (as the code has it).  A missed surface exactly at the target
    interface is raised again, a total internal reflection exactly at the
    target is not; a failure of either kind one surface before the target
    is raised again; a failure of either kind one surface after the target
    is not raised again. *)
Theorem y_stop_coordinate_around_target
    (y1 : F) (sm : SequentialModel) (ifcx : Z) (pt0 : vec3)
    (dist wvl y_target : F) (ray_pkg : option RayPkg) :
  let traced := rt_trace sm pt0 (aim_dir (V3 f0 y1 dist) pt0) wvl no_kwargs in
  let res := y_stop_coordinate y1 sm ifcx pt0 dist wvl y_target in
  (traced = Raise (TraceErr (TraceMissedSurfaceError ifcx ray_pkg)) ->
     res = Raise (TraceErr (TraceMissedSurfaceError ifcx ray_pkg))) /\
  (traced = Raise (TraceErr (TraceTIRError ifcx ray_pkg)) ->
     forall e, res <> Raise (TraceErr e)) /\
  (traced = Raise (TraceErr (TraceMissedSurfaceError (ifcx - 1) ray_pkg)) ->
     res = Raise (TraceErr (TraceMissedSurfaceError (ifcx - 1) ray_pkg))) /\
  (traced = Raise (TraceErr (TraceTIRError (ifcx - 1) ray_pkg)) ->
     res = Raise (TraceErr (TraceTIRError (ifcx - 1) ray_pkg))) /\
  (traced = Raise (TraceErr (TraceMissedSurfaceError (ifcx + 1) ray_pkg)) ->
     forall e, res <> Raise (TraceErr e)) /\
  (traced = Raise (TraceErr (TraceTIRError (ifcx + 1) ray_pkg)) ->
     forall e, res <> Raise (TraceErr e)).
Proof.
  intros traced res. subst traced res.
  repeat split; intros H;
    first [ erewrite y_stop_coordinate_missed by exact H
          | erewrite y_stop_coordinate_tir by exact H ].
  - destruct (Z.leb_spec ifcx ifcx); [reflexivity | lia].
  - destruct (Z.ltb_spec ifcx ifcx); [lia |].
    intros e; apply y_residual_no_trace_error.
  - destruct (Z.leb_spec (ifcx - 1) ifcx); [reflexivity | lia].
  - destruct (Z.ltb_spec (ifcx - 1) ifcx); [reflexivity | lia].
  - destruct (Z.leb_spec (ifcx + 1) ifcx); [lia |].
    intros e; apply y_residual_no_trace_error.
  - destruct (Z.ltb_spec (ifcx + 1) ifcx); [lia |].
    intros e; apply y_residual_no_trace_error.
Qed.

End Aiming.

(** ** Chief-ray lookup and the field object *)

Section ChiefRay.

Context {F : Type} {FO : FloatOps F} {Obj : Type} {X : @Collaborators F Obj}.

Lemma read_only_ret {A} (a : A) : read_only (F := F) (m_ret a).
Proof. now intros fld. Qed.

Lemma read_only_get : read_only (F := F) m_get.
Proof. now intros fld. Qed.

Lemma read_only_lift {A} (r : @result F A) : read_only (m_lift r).
Proof. now intros fld. Qed.

Lemma read_only_bind {A B} (m : @M F A) (k : A -> @M F B) :
  read_only m -> (forall a, read_only (k a)) -> read_only (m_bind m k).
Proof.
  intros Hm Hk fld. unfold m_bind. specialize (Hm fld).
  destruct (m fld) as [[a|e] fld']; cbn in *; subst; [apply Hk | reflexivity].
Qed.

Create HintDb frame.
#[local] Hint Resolve read_only_ret read_only_get read_only_lift : frame.

Lemma get_chief_ray_pkg_read_only (opt_model : OpticalModel) (wvl foc : F) :
  read_only (get_chief_ray_pkg opt_model wvl foc).
Proof.
  unfold get_chief_ray_pkg. apply read_only_bind; auto with frame.
  intros fld. destruct (chief_ray fld) as [cached|].
  - destruct (negb _); auto with frame.
  - apply read_only_bind; auto with frame.
Qed.

Lemma setup_pupil_coords_read_only (opt_model : OpticalModel) (wvl foc : F)
    (image_pt : option vec3) :
  read_only (setup_pupil_coords opt_model wvl foc image_pt).
Proof.
  unfold setup_pupil_coords.
  apply read_only_bind; [apply get_chief_ray_pkg_read_only|]. intros crp.
  apply read_only_bind; auto with frame. intros fld.
  apply read_only_bind; auto with frame.
Qed.

(** The focus argument is not read by [trace_chief_ray]. *)
Lemma trace_chief_ray_any_focus (opt_model : OpticalModel) (fld : Field)
    (wvl foc foc' : F) :
  trace_chief_ray opt_model fld wvl foc = trace_chief_ray opt_model fld wvl foc'.
Proof. reflexivity. Qed.

(** C4 (as the code has it).  [get_chief_ray_pkg] returns the package
    cached on the field when there is one and its wavelength equals the
    requested one.  With no cached package it aims the chief ray at the
    centre of the stop surface and then traces the chief ray; with a
    package cached at another wavelength it traces the chief ray anew.  In
    no case does it write the field: the traced package is returned, not
    stored.  The focus argument has no influence on the result. *)
Theorem get_chief_ray_pkg_cases
    (opt_model : OpticalModel) (wvl foc : F) (fld : Field) :
  let run := get_chief_ray_pkg opt_model wvl foc fld in
  snd run = fld /\
  (forall cached, chief_ray fld = Some cached ->
     feqb (pkg_wvl (fst cached)) wvl = true -> fst run = Ret cached) /\
  (chief_ray fld = None ->
     fst run = (_ <- iterate_ray opt_model (stop_surface (seq_model opt_model))
                                 (V2 f0 f0) fld wvl ;;
                trace_chief_ray opt_model fld wvl foc)) /\
  (forall cached, chief_ray fld = Some cached ->
     feqb (pkg_wvl (fst cached)) wvl = false ->
     fst run = trace_chief_ray opt_model fld wvl foc) /\
  (forall foc', get_chief_ray_pkg opt_model wvl foc' fld = run).
Proof.
  intros run. subst run. split; [apply get_chief_ray_pkg_read_only|].
  unfold get_chief_ray_pkg, m_bind, m_get, m_lift, m_ret, aim_chief_ray.
  repeat split.
  - intros cached -> Hw. now rewrite Hw.
  - intros ->. now destruct (iterate_ray _ _ _ _ _).
  - intros cached -> Hw. now rewrite Hw.
Qed.

(** What [trace_with_opd] leaves on the field once the chief ray, the
    reference sphere and the ray itself are there. *)
Lemma trace_with_opd_stores (opt_model : OpticalModel) (pupil : vec2)
    (wvl foc : F) (kw : kwargs) (fld : Field)
    (crp : chief_ray_pkg) (rs : RefSphere) (ray_pkg : RayPkg) :
  fst (get_chief_ray_pkg opt_model wvl foc fld) = Ret crp ->
  calculate_reference_sphere opt_model fld wvl foc crp
    (option_map (fun v => V2 (vx v) (vy v)) (kw_image_pt kw)) = Ret rs ->
  call_trace_base opt_model pupil fld wvl kw = Ret ray_pkg ->
  snd (trace_with_opd opt_model pupil wvl foc kw fld)
    = set_ref_sphere (set_chief_ray fld (Some crp)) (Some rs).
Proof.
  intros Hcr Hrs Htr. unfold trace_with_opd.
  pose proof (get_chief_ray_pkg_read_only opt_model wvl foc fld) as Hro.
  unfold m_bind at 1.
  destruct (get_chief_ray_pkg opt_model wvl foc fld) as [r fld'].
  cbn in Hcr, Hro. subst r fld'.
  unfold m_bind, m_get, m_lift, m_assign, m_ret. rewrite Hrs, Htr.
  now destruct (wave_abr_full_calc _ _ _ _ _ _ _).
Qed.

(** C9.  [setup_pupil_coords] leaves the field exactly as it was given,
    whether it returns or raises; [trace_with_opd], once the chief ray, the
    reference sphere and the ray are computed, has stored the chief-ray
    package and the reference sphere on the field. *)
Theorem setup_pupil_coords_frame_trace_with_opd_stores
    (opt_model : OpticalModel) (pupil : vec2) (wvl foc : F)
    (image_pt : option vec3) (kw : kwargs) (fld : Field) :
  snd (setup_pupil_coords opt_model wvl foc image_pt fld) = fld /\
  (forall crp rs ray_pkg,
     fst (get_chief_ray_pkg opt_model wvl foc fld) = Ret crp ->
     calculate_reference_sphere opt_model fld wvl foc crp
       (option_map (fun v => V2 (vx v) (vy v)) (kw_image_pt kw)) = Ret rs ->
     call_trace_base opt_model pupil fld wvl kw = Ret ray_pkg ->
     let fld' := snd (trace_with_opd opt_model pupil wvl foc kw fld) in
     chief_ray fld' = Some crp /\ ref_sphere fld' = Some rs /\
     fld' = set_ref_sphere (set_chief_ray fld (Some crp)) (Some rs)).
Proof.
  split; [apply setup_pupil_coords_read_only|].
  intros crp rs ray_pkg Hcr Hrs Htr fld'. subst fld'.
  erewrite trace_with_opd_stores by eassumption. now repeat split.
Qed.

End ChiefRay.

(** ** Batch sampling engines *)

Section Batch.

Context {F : Type} {FO : FloatOps F} {Obj : Type} {X : @Collaborators F Obj}.

Lemma wg_extend_nil (st : @grid_state F Obj) : wg_extend st [] = st.
Proof.
  unfold wg_extend. destruct st as [s g r w]; destruct w; cbn;
    now rewrite ?app_nil_r.
Qed.

Lemma wg_extend_working (st : @grid_state F Obj) es :
  gs_working (wg_extend st es) = gs_working st.
Proof. unfold wg_extend. now destruct (gs_working st) eqn:E. Qed.

Lemma wg_extend_length (st : @grid_state F Obj) es :
  gs_working st <> WG_unbound ->
  wg_length (wg_extend st es) = wg_length st + List.length es.
Proof.
  intros Hw. unfold wg_length, wg_extend.
  destruct (gs_working st) eqn:E; [contradiction| |]; cbn;
    now rewrite length_app, ?length_map.
Qed.

Lemma wg_length_advance_col (step : vec2) (st : @grid_state F Obj) :
  wg_length (advance_col step st) = wg_length st.
Proof. reflexivity. Qed.

Lemma wg_append_bound (st : @grid_state F Obj) e :
  gs_working st <> WG_unbound -> wg_append st e = Ret (wg_extend st [e]).
Proof. unfold wg_append. now destruct (gs_working st). Qed.

(** A cell whose safe trace returns extends the working list by its
    entries and moves on to the next column. *)
Lemma grid_cell_appends
    (opt_model : OpticalModel) (fld : Field) (wvl : F)
    (img_filter : option (vec2 -> option ray_result -> option Obj))
    (append_if_none : bool) (output_filter : option output_filter)
    (rayerr_filter : option string) (kw : kwargs) (step : vec2)
    (st : grid_state) (ray_result : option ray_result) :
  grid_trace_safe opt_model (gs_start st) fld wvl output_filter rayerr_filter kw
    = Ret ray_result ->
  gs_working st <> WG_unbound ->
  grid_cell opt_model fld wvl img_filter append_if_none output_filter
            rayerr_filter kw step st
    = Ret (advance_col step
             (wg_extend st (cell_entries img_filter append_if_none
                              (pupil_after_trace_base fld kw (gs_start st))
                              ray_result))).
Proof.
  intros Hsafe Hw. unfold grid_cell, cell_entries. cbv zeta.
  rewrite Hsafe. cbn [Py.bind].
  destruct ray_result as [rr|]; destruct img_filter as [f|];
    try (now rewrite wg_append_bound by assumption).
  - destruct (is_not_None (f _ None) || append_if_none);
      [now rewrite wg_append_bound by assumption | now rewrite wg_extend_nil].
  - destruct append_if_none;
      [now rewrite wg_append_bound by assumption | now rewrite wg_extend_nil].
Qed.

(** Closes the cases of the per-cell policy once the cell is evaluated. *)
Ltac policy_cases :=
  rewrite ?wg_length_advance_col, ?wg_extend_length by assumption;
  cbn [List.length];
  repeat split; intros;
  repeat match goal with
         | H : _ /\ _ |- _ => destruct H
         | H : _ \/ _ |- _ => destruct H
         end;
  try reflexivity; try discriminate; try congruence; try lia;
  try (left; congruence); try (right; reflexivity).

(** C8.  A grid cell whose safe-trace result is [None]: with an image
    filter, the filter's value is appended if and only if it is not [None]
    or [append_if_none] is set; with no image filter, the triple
    [(pupil[0], pupil[1], None)] is appended if and only if
    [append_if_none] is set.  A cell with a result always appends: the
    filter's value, or the triple holding the result.  [pupil] is the
    array the cell handed to the trace, as the trace left it. *)
Theorem grid_cell_append_policy
    (opt_model : OpticalModel) (fld : Field) (wvl : F)
    (img_filter : option (vec2 -> option ray_result -> option Obj))
    (append_if_none : bool) (output_filter : option output_filter)
    (rayerr_filter : option string) (kw : kwargs) (step : vec2)
    (st : grid_state) (ray_result : option ray_result) :
  grid_trace_safe opt_model (gs_start st) fld wvl output_filter rayerr_filter kw
    = Ret ray_result ->
  gs_working st <> WG_unbound ->
  let pupil := pupil_after_trace_base fld kw (gs_start st) in
  exists st',
    grid_cell opt_model fld wvl img_filter append_if_none output_filter
              rayerr_filter kw step st = Ret st' /\
    match ray_result, img_filter with
    | Some rr, Some f =>
        st' = advance_col step (wg_extend st [GE_filtered (f pupil (Some rr))])
    | Some rr, None =>
        st' = advance_col step
                (wg_extend st [GE_triple (v2x pupil) (v2y pupil) (Some rr)])
    | None, Some f =>
        (f pupil None <> None \/ append_if_none = true ->
           st' = advance_col step (wg_extend st [GE_filtered (f pupil None)])) /\
        (f pupil None = None /\ append_if_none = false ->
           st' = advance_col step st) /\
        (wg_length st' = S (wg_length st) <->
           f pupil None <> None \/ append_if_none = true)
    | None, None =>
        (append_if_none = true ->
           st' = advance_col step
                   (wg_extend st [GE_triple (v2x pupil) (v2y pupil) None])) /\
        (append_if_none = false -> st' = advance_col step st) /\
        (wg_length st' = S (wg_length st) <-> append_if_none = true)
    end.
Proof.
  intros Hsafe Hw pupil. subst pupil.
  rewrite (grid_cell_appends opt_model fld wvl img_filter append_if_none
             output_filter rayerr_filter kw step st ray_result Hsafe Hw).
  eexists; split; [reflexivity|]. unfold cell_entries.
  destruct ray_result as [rr|]; destruct img_filter as [f|];
    try reflexivity.
  - destruct (f (pupil_after_trace_base fld kw (gs_start st)) None)
      as [v|] eqn:Ef; cbn [is_not_None orb];
      [|destruct append_if_none]; rewrite ?wg_extend_nil; policy_cases.
  - destruct append_if_none; rewrite ?wg_extend_nil; policy_cases.
Qed.

Lemma repack_same (use_named_tuples : bool) (pkg : @RayPkg F) :
  mkRayPkg (if use_named_tuples then map RaySeg_of (pkg_ray pkg)
            else pkg_ray pkg) (pkg_op pkg) (pkg_wvl pkg) = pkg.
Proof.
  destruct use_named_tuples; [apply named_pkg_same | now destruct pkg].
Qed.

Lemma boundary_rays_loop_total (opt_model : OpticalModel) (fld : Field)
    (use_named_tuples : bool) :
  (forall p w, recoverable (call_trace_base opt_model p fld w no_kwargs)) ->
  forall rays wvl acc, exists rim,
    boundary_rays_loop opt_model fld use_named_tuples rays wvl acc
      = Ret (acc ++ rim) /\
    Forall2 (fun p pkg => exists w,
               sample_pkg (call_trace_base opt_model p fld w no_kwargs)
                 = Some pkg) rays rim.
Proof.
  intros Hrec rays. induction rays as [|p rays IH]; intros wvl acc.
  - exists []. cbn. now rewrite app_nil_r.
  - cbn [boundary_rays_loop]. specialize (Hrec p wvl).
    destruct (call_trace_base opt_model p fld wvl no_kwargs) as [pkg|e] eqn:Etr.
    + cbn [Py.bind]. rewrite repack_same.
      destruct (IH (pkg_wvl pkg) (acc ++ [pkg])) as [rim [Hloop Hall]].
      exists (pkg :: rim). rewrite Hloop, <- app_assoc. split; [reflexivity|].
      constructor; [|assumption]. exists wvl. now rewrite Etr.
    + destruct e as [e| | | | | | | |]; cbn in Hrec; try contradiction.
      destruct (te_ray_pkg e) as [pkg|] eqn:Epk; [|now elim Hrec].
      cbn [Py.bind]. rewrite repack_same.
      destruct (IH (pkg_wvl pkg) (acc ++ [pkg])) as [rim [Hloop Hall]].
      exists (pkg :: rim). rewrite Hloop, <- app_assoc. split; [reflexivity|].
      constructor; [|assumption]. exists wvl. now rewrite Etr.
Qed.

(** With no filter the safe trace of a grid cell returns, and returns
    [None] when the trace raised a trace error. *)
Lemma grid_trace_safe_unfiltered (opt_model : OpticalModel) (p : vec2)
    (fld : Field) (w : F) (kw : kwargs) :
  kw_output_filter kw = None -> kw_rayerr_filter kw = None ->
  kw_check_apertures kw = None ->
  recoverable (call_trace_base opt_model p fld w (with_check_apertures kw)) ->
  (exists r, grid_trace_safe opt_model p fld w None None kw = Ret r) /\
  (forall e, call_trace_base opt_model p fld w (with_check_apertures kw)
               = Raise (TraceErr e) ->
             grid_trace_safe opt_model p fld w None None kw = Ret None).
Proof.
  intros Ho Hr Hc Hrec. unfold grid_trace_safe, trace_safe.
  rewrite Ho, Hr, Hc.
  destruct (call_trace_base opt_model p fld w (with_check_apertures kw))
    as [pkg|e].
  - split; [eexists; reflexivity | discriminate].
  - destruct e; cbn in Hrec; try contradiction.
    split; [eexists; reflexivity | reflexivity].
Qed.

Lemma grid_cell_returns (opt_model : OpticalModel) (fld : Field) (wvl : F)
    img_filter (append_if_none : bool) (kw : kwargs) (step : vec2)
    (st : grid_state) :
  kw_output_filter kw = None -> kw_rayerr_filter kw = None ->
  kw_check_apertures kw = None ->
  (forall p w kw', recoverable (call_trace_base opt_model p fld w kw')) ->
  gs_working st <> WG_unbound ->
  exists st',
    grid_cell opt_model fld wvl img_filter append_if_none None None kw step st
      = Ret st' /\ gs_working st' <> WG_unbound.
Proof.
  intros Ho Hr Hc Hrec Hw.
  destruct (grid_trace_safe_unfiltered opt_model (gs_start st) fld wvl kw
              Ho Hr Hc (Hrec _ _ _)) as [[r Hsafe] _].
  rewrite (grid_cell_appends opt_model fld wvl img_filter append_if_none
             None None kw step st r Hsafe Hw).
  eexists; split; [reflexivity|].
  cbn [advance_col gs_working]. now rewrite wg_extend_working.
Qed.

Lemma grid_inner_loop_returns (cell : grid_state -> result grid_state) :
  (forall st, gs_working st <> WG_unbound ->
     exists st', cell st = Ret st' /\ gs_working st' <> WG_unbound) ->
  forall count (st : @grid_state F Obj), gs_working st <> WG_unbound ->
  exists st', grid_inner_loop cell count st = Ret st' /\
              gs_working st' <> WG_unbound.
Proof.
  intros Hcell count. induction count as [|count IH]; intros st Hw.
  - now exists st.
  - cbn [grid_inner_loop]. destruct (Hcell st Hw) as [st1 [-> Hw1]].
    cbn [Py.bind]. now apply IH.
Qed.

Lemma grid_row_step_returns (cell : grid_state -> result grid_state)
    (form : string) (num : Z) (start0 step : vec2) (st : @grid_state F Obj) :
  (forall st, gs_working st <> WG_unbound ->
     exists st', cell st = Ret st' /\ gs_working st' <> WG_unbound) ->
  form = "list"%string \/ form = "grid"%string ->
  exists st', grid_row_step cell form num start0 step st = Ret st'.
Proof.
  intros Hcell Hform. unfold grid_row_step.
  match goal with
  | |- context [grid_inner_loop cell ?n ?s] =>
      destruct (grid_inner_loop_returns cell Hcell n s) as [st1 [-> _]]
  end.
  - destruct Hform as [-> | ->]; cbn; discriminate.
  - cbn [Py.bind]. eexists; reflexivity.
Qed.

Lemma grid_outer_loop_returns (row : grid_state -> result grid_state) :
  (forall st, exists st', row st = Ret st') ->
  forall count (st : @grid_state F Obj),
  exists st', grid_outer_loop row count st = Ret st'.
Proof.
  intros Hrow count. induction count as [|count IH]; intros st.
  - now exists st.
  - cbn [grid_outer_loop]. destruct (Hrow st) as [st1 ->]. cbn [Py.bind].
    apply IH.
Qed.

(** The two engines that handle a failed sample.  When every sample's
    trace either completes or raises a trace error that carries its ray
    package, the boundary-ray engine returns one package per pupil sample,
    the error's package standing in for a failed sample (through its own
    handler), and the grid engine, which goes through [trace_safe], runs
    its loops to the end and hands the grid to [np.array]: a cell whose
    trace raised gets [None] from [trace_safe] and the loop goes on. *)
Lemma boundary_and_grid_handle_trace_errors
    (opt_model : OpticalModel) (fld : Field) (wvl foc : F)
    (use_named_tuples : bool) (grid_rng : vec2 * vec2 * Z)
    (img_filter : option (vec2 -> option ray_result -> option Obj))
    (form : string) (append_if_none : bool) (kw : kwargs) :
  (forall p w kw', recoverable (call_trace_base opt_model p fld w kw')) ->
  kw_output_filter kw = None -> kw_rayerr_filter kw = None ->
  kw_check_apertures kw = None ->
  form = "list"%string \/ form = "grid"%string ->
  (exists rim_rays,
     trace_boundary_rays_at_field opt_model fld wvl use_named_tuples
       = Ret rim_rays /\
     List.length rim_rays = List.length (pupil_rays opt_model) /\
     Forall2 (fun p pkg => exists w,
                sample_pkg (call_trace_base opt_model p fld w no_kwargs)
                  = Some pkg) (pupil_rays opt_model) rim_rays) /\
  (exists grid,
     trace_grid opt_model grid_rng fld wvl foc img_filter form append_if_none kw
       = np_array grid) /\
  (forall p e,
     call_trace_base opt_model p fld wvl (with_check_apertures kw)
       = Raise (TraceErr e) ->
     grid_trace_safe opt_model p fld wvl None None kw = Ret None).
Proof.
  intros Hrec Ho Hr Hc Hform. split; [|split].
  - destruct (boundary_rays_loop_total opt_model fld use_named_tuples
                (fun p w => Hrec p w no_kwargs) (pupil_rays opt_model) wvl [])
      as [rim [Hloop Hall]].
    exists rim. split; [exact Hloop|]. split; [|exact Hall].
    symmetry. exact (Forall2_length Hall).
  - unfold trace_grid. rewrite Ho, Hr. cbn [Py.get].
    destruct grid_rng as [[start stop] num].
    match goal with
    | |- context [grid_outer_loop ?row ?n ?s] =>
        assert (Hrow : forall st, exists st', row st = Ret st');
          [|destruct (grid_outer_loop_returns row Hrow n s) as [st1 ->]]
    end.
    + intros st. apply grid_row_step_returns; [|exact Hform].
      intros st0 Hw. now apply grid_cell_returns.
    + cbn [Py.bind]. eexists; reflexivity.
  - intros p e. apply grid_trace_safe_unfiltered; auto.
Qed.

End Batch.

(** ** Concrete runs in binary64 *)

Section Binary64.

Local Open Scope float_scope.

(** C1, counterexample.  The target is interface 2.  A ray that misses
    surface 1, before the target, has its error raised again instead of
    its partial ray being used; a ray that misses surface 3, beyond the
    target, does not have its error raised again. *)
Lemma reraise_at_or_beyond_target_counterexample :
  let before := TraceMissedSurfaceError 1 (Some (Demo.partial_pkg 1 550)) in
  let beyond := TraceMissedSurfaceError 3 (Some (Demo.partial_pkg 3 550)) in
  y_stop_coordinate (X := Demo.raising before) 0 (seq_model Demo.model) 2
                    (V3 0 0 0) 10 550 0
    = Raise (TraceErr before) /\
  y_stop_coordinate (X := Demo.raising beyond) 0 (seq_model Demo.model) 2
                    (V3 0 0 0) 10 550 0
    <> Raise (TraceErr beyond).
Proof. split; vm_compute; [reflexivity | discriminate]. Qed.

(** C3, counterexample.  A total internal reflection exactly at the target
    interface 2 is not raised again. *)
Lemma tir_at_target_counterexample :
  let at_target := TraceTIRError 2 (Some (Demo.partial_pkg 3 550)) in
  y_stop_coordinate (X := Demo.raising at_target) 0 (seq_model Demo.model) 2
                    (V3 0 0 0) 10 550 0
    <> Raise (TraceErr at_target).
Proof. vm_compute; discriminate. Qed.

(** What the residual evaluation does with the payload of an error it
    does not raise again: with the target at interface 2, indexing the
    package [(ray, op_delta, wvl)] finds the wavelength, a float. *)
Lemma payload_indexed_as_ray :
  let beyond := TraceMissedSurfaceError 3 (Some (Demo.partial_pkg 3 550)) in
  y_stop_coordinate (X := Demo.raising beyond) 0 (seq_model Demo.model) 2
                    (V3 0 0 0) 10 550 0
    = Raise NotSubscriptable.
Proof. vm_compute; reflexivity. Qed.

(** C4, counterexample.  With nothing cached the chief ray is traced and
    returned, and the field still holds no chief ray afterwards. *)
Lemma chief_ray_not_cached_counterexample :
  let run := get_chief_ray_pkg (X := Demo.upper) Demo.model 550 0 Demo.field0 in
  fst run = Ret (Demo.full_pkg 0 550,
                 mkExpSeg (V3 0 0 0) (V3 0 0 1) 1) /\
  chief_ray (snd run) = None.
Proof. split; vm_compute; reflexivity. Qed.

(** C7, counterexample.  Two parallel lines along the z axis: the call
    returns, and what it returns is not a number. *)
Lemma parallel_lines_nan_counterexample :
  PrimFloat.is_nan
    (intersect_2_lines (V3 0 0 0) (V3 0 0 1) (V3 1 0 0) (V3 0 0 1)) = true.
Proof. vm_compute; reflexivity. Qed.

(** C6, counterexample.  Normal incidence on an interface of power 1
    between two media of index 1: the oblique power is not the paraxial
    power but not a number at all (the factor is 0/0), and so is the
    image distance the step leaves. *)
Lemma equal_indices_at_normal_incidence_counterexample :
  let P := obl_power_of 1 1 1 1 1 in
  PrimFloat.eqb P 1 = false /\ PrimFloat.is_nan P = true /\
  exists st',
    coddington_step
      (mkCoddington 1 (Some (V3 0 0 1)) (Some (-1)) (Some (-1))
                    None None (Some (V3 0 0 1)) (Some (V3 0 0 0)))
      (Some (Demo.seg 0), Some (mkInterface 1), Some 1, @None (@Tfrm float),
       @None float)
      = Ret st' /\
    option_map PrimFloat.is_nan (s_prime st') = Some true.
Proof.
  repeat split; try (vm_compute; reflexivity).
  eexists. split; vm_compute; reflexivity.
Qed.

(** Every sample of the demo system traces or fails with a partial ray. *)
Lemma upper_recoverable (p : vec2) (w : float) (kw' : kwargs) :
  recoverable (call_trace_base (X := Demo.upper) Demo.model p Demo.field0 w kw').
Proof.
  unfold call_trace_base, trace_base. cbn.
  unfold Demo.trace_upper_half.
  match goal with |- context [if ?b then _ else _] => destruct b end;
    cbn; [discriminate | exact I].
Qed.

(** C5.  The fan engine at a failing sample.  On the demo system a ray
    that starts below the axis misses surface 1.  A fan of three samples
    up the y axis of the pupil whose first sample lies below the axis:
    [trace_fan] lets the error of that sample out, although the two other
    samples trace.  On the same system and field the boundary-ray engine
    returns all three packages, the error's package standing in for the
    sample below the axis, and the grid engine goes through all nine
    cells, the filter seeing [None] for the cells below the axis. *)
Theorem trace_fan_aborts_on_sample_failure :
  let miss := TraceMissedSurfaceError 1 (Some (Demo.partial_pkg 1 550)) in
  let traced (r : option (@ray_result float unit)) :=
    match r with Some _ => Some tt | None => None end in
  trace_fan (X := Demo.upper) Demo.model (V2 0 (-1), V2 0 1, 3%Z) Demo.field0
            550 0 None no_kwargs
    = Raise (TraceErr miss) /\
  call_trace_base (X := Demo.upper) Demo.model (V2 0 (-1)) Demo.field0 550
                  no_kwargs = Raise (TraceErr miss) /\
  call_trace_base (X := Demo.upper) Demo.model (V2 0 0) Demo.field0 550 no_kwargs
    = Ret (Demo.full_pkg 0 550) /\
  Py.returns (call_trace_base (X := Demo.upper) Demo.model (V2 0 1) Demo.field0
                              550 no_kwargs) /\
  (exists upper_ray,
     trace_boundary_rays_at_field (X := Demo.upper) Demo.model Demo.field0 550
                                  false
       = Ret [Demo.full_pkg 0 550; upper_ray; Demo.partial_pkg 1 550]) /\
  trace_grid (X := Demo.upper) Demo.model (V2 0 (-1), V2 0 1, 3%Z) Demo.field0
             550 0 (Some (fun _ r => traced r)) "list" true no_kwargs
    = Ret (map (fun r => GI_entry (GE_filtered r))
               [None; Some tt; Some tt; None; Some tt; Some tt;
                None; Some tt; Some tt]).
Proof.
  repeat split; try (vm_compute; reflexivity).
  - eexists. vm_compute. reflexivity.
  - eexists. vm_compute. reflexivity.
Qed.

(** C8, witness: a cell below the axis in a row of the 'grid' form, no
    image filter, [append_if_none] set. *)
Lemma grid_cell_append_policy_witness :
  let st := mkGridState (V2 0 (-1)) (@nil (@grid_item float unit)) [] WG_row in
  exists st',
    grid_cell (X := Demo.upper) Demo.model Demo.field0 550 None true None None
              no_kwargs (V2 0 1) st = Ret st' /\
    gs_grid_row st' = [GE_triple 0 (-1) None].
Proof.
  intros st.
  destruct (grid_cell_append_policy (X := Demo.upper) Demo.model Demo.field0 550
              None true None None no_kwargs (V2 0 1) st None)
    as [st' [Hcell [Happ _]]].
  - vm_compute; reflexivity.
  - discriminate.
  - exists st'. split; [exact Hcell|]. now rewrite Happ.
Defined.

(** C1, witness: with the target at interface 2, a miss at surface 1 is
    raised again. *)
Lemma y_stop_coordinate_reraise_rule_witness :
  y_stop_coordinate
    (X := Demo.raising (TraceMissedSurfaceError 1 (Some (Demo.partial_pkg 1 550))))
    0 (seq_model Demo.model) 2 (V3 0 0 0) 10 550 0
    = Raise (TraceErr (TraceMissedSurfaceError 1 (Some (Demo.partial_pkg 1 550)))).
Proof.
  apply (y_stop_coordinate_reraise_rule
           (X := Demo.raising (TraceMissedSurfaceError 1
                                 (Some (Demo.partial_pkg 1 550))))
           0 (seq_model Demo.model) 2 (V3 0 0 0) 10 550 0 1
           (Some (Demo.partial_pkg 1 550))).
  - reflexivity.
  - vm_compute; discriminate.
Defined.

(** C3, witness: a miss exactly at the target interface 2 is raised again. *)
Lemma y_stop_coordinate_around_target_witness :
  y_stop_coordinate
    (X := Demo.raising (TraceMissedSurfaceError 2 (Some (Demo.partial_pkg 2 550))))
    0 (seq_model Demo.model) 2 (V3 0 0 0) 10 550 0
    = Raise (TraceErr (TraceMissedSurfaceError 2 (Some (Demo.partial_pkg 2 550)))).
Proof.
  apply (y_stop_coordinate_around_target
           (X := Demo.raising (TraceMissedSurfaceError 2
                                 (Some (Demo.partial_pkg 2 550))))
           0 (seq_model Demo.model) 2 (V3 0 0 0) 10 550 0
           (Some (Demo.partial_pkg 2 550))).
  reflexivity.
Defined.

(** C2, witness: a sample below the axis fails; under 'summary' the error
    comes back with its ray package reset. *)
Lemma trace_safe_filter_table_witness :
  trace_safe (X := Demo.upper) Demo.model (V2 0 (-1)) Demo.field0 550
             None (Some "summary"%string) no_kwargs
    = Ret (Some (RR_err (TraceMissedSurfaceError 1 None))).
Proof.
  destruct (trace_safe_filter_table (X := Demo.upper) Demo.model (V2 0 (-1))
              Demo.field0 550 None (Some "summary"%string) no_kwargs)
    as [_ [Hfailed _]].
  destruct (Hfailed (TraceMissedSurfaceError 1 (Some (Demo.partial_pkg 1 550))))
    as [_ [Hsummary _]].
  - vm_compute; reflexivity.
  - now rewrite Hsummary.
Defined.

(** C4, witness: a package cached at 550 nm is handed back for 550 nm. *)
Lemma get_chief_ray_pkg_cases_witness :
  let cached := (Demo.full_pkg 0 550, mkExpSeg (V3 0 0 0) (V3 0 0 1) 1) in
  fst (get_chief_ray_pkg (X := Demo.upper) Demo.model 550 0
         (set_chief_ray Demo.field0 (Some cached)))
    = Ret cached.
Proof.
  intros cached.
  destruct (get_chief_ray_pkg_cases (X := Demo.upper) Demo.model 550 0
              (set_chief_ray Demo.field0 (Some cached)))
    as [_ [Hcached _]].
  apply Hcached.
  - reflexivity.
  - vm_compute; reflexivity.
Defined.

(** C9, witness: a full trace at the edge of the pupil stores the chief
    ray and the reference sphere on a field that held neither. *)
Lemma setup_pupil_coords_frame_trace_with_opd_stores_witness :
  let fld' := snd (trace_with_opd (X := Demo.upper) Demo.model (V2 0 1) 550 0
                                  no_kwargs Demo.field0) in
  chief_ray fld'
    = Some (Demo.full_pkg 0 550, mkExpSeg (V3 0 0 0) (V3 0 0 1) 1) /\
  ref_sphere fld' = Some (mkRefSphere (V3 0 0 0) (V3 0 0 1) 1).
Proof.
  intros fld'.
  destruct (setup_pupil_coords_frame_trace_with_opd_stores (X := Demo.upper)
              Demo.model (V2 0 1) 550 0 None no_kwargs Demo.field0)
    as [_ Hstores].
  edestruct Hstores as [Hcr [Hrs _]].
  - vm_compute; reflexivity.
  - vm_compute; reflexivity.
  - vm_compute; reflexivity.
  - split; [exact Hcr | exact Hrs].
Defined.

End Binary64.

(** ** Exact arithmetic: start direction, Coddington step, line intersection *)

Section Reals.

Context {Obj : Type}.

Local Open Scope R_scope.

(** [sqrt] is the square root of the reals here. *)
Local Abbreviation sqrt := R_sqrt.sqrt.

Lemma dot_self_nonneg (a : @vec3 R) : 0 <= dot a a.
Proof. destruct a as [x y z]; unfold dot; cbn. nra. Qed.

Lemma dot_self_zero (a : @vec3 R) : dot a a = 0 -> a = V3 0 0 0.
Proof.
  destruct a as [x y z]; unfold dot; cbn. intros H.
  pose proof (Rle_0_sqr x) as Hx. pose proof (Rle_0_sqr y) as Hy.
  pose proof (Rle_0_sqr z) as Hzz. unfold Rsqr in *.
  assert (Ex : x * x = 0) by lra. assert (Ey : y * y = 0) by lra.
  assert (Ez : z * z = 0) by lra.
  apply Rmult_integral in Ex, Ey, Ez.
  f_equal; tauto.
Qed.

Lemma norm_zero (a : @vec3 R) : norm a = 0 -> a = V3 0 0 0.
Proof.
  unfold norm; cbn [fsqrt R_ops]. intros H. apply dot_self_zero.
  apply sqrt_eq_0; [apply dot_self_nonneg | exact H].
Qed.

Lemma vsub_zero (a b : @vec3 R) : vsub a b = V3 0 0 0 -> a = b.
Proof.
  destruct a, b; unfold vsub; cbn. intros H; injection H; intros.
  f_equal; lra.
Qed.

Lemma norm_vneg (a : @vec3 R) : norm (vneg a) = norm a.
Proof.
  destruct a as [x y z]; unfold norm, dot, vneg; cbn. f_equal. ring.
Qed.

(** A vector divided by its length has length one. *)
Lemma norm_unit (a : @vec3 R) : norm a <> 0 -> norm (vdivs a (norm a)) = 1.
Proof.
  intros Hne. pose proof (dot_self_nonneg a) as Hpos.
  assert (Hs : norm a * norm a = dot a a)
    by (unfold norm; cbn [fsqrt R_ops]; now apply sqrt_sqrt).
  revert Hne Hs. generalize (norm a) as s. intros s Hne Hs.
  destruct a as [x y z]. unfold norm, dot, vdivs in *. cbn in *.
  replace (x / s * (x / s) + y / s * (y / s) + z / s * (z / s))
    with ((x * x + y * y + z * z) / (s * s)) by (field; exact Hne).
  rewrite <- Hs. replace (s * s / (s * s)) with 1 by (field; exact Hne).
  apply sqrt_1.
Qed.

(** C10.  Whenever [trace_base] reaches the trace primitive from an object
    point other than the aim point, the start direction it hands over is a
    unit vector whose z component times [z_dir[0]] is not negative: it is
    the normalised direction to the aim point, negated when that product
    would be negative. *)
Theorem trace_base_start_direction
    (X : @Collaborators R Obj) (opt_model : OpticalModel) (pupil : vec2)
    (fld : Field) (wvl : R) (apply_vig : bool) (kw : kwargs)
    (z0 : R) (zs : list R) :
  z_dir (seq_model opt_model) = z0 :: zs ->
  trace_base_pt1 (X := X) opt_model pupil fld apply_vig
    <> obj_coords opt_model fld ->
  exists dir0 : vec3,
    (forall t,
       trace_base (X := with_rt_trace (X := X) t) opt_model pupil fld wvl
                  apply_vig kw
         = t (seq_model opt_model) (obj_coords opt_model fld) dir0 wvl kw) /\
    norm dir0 = 1 /\ 0 <= vz dir0 * z0 /\
    let d := aim_dir (trace_base_pt1 (X := X) opt_model pupil fld apply_vig)
                     (obj_coords opt_model fld) in
    (vz d * z0 < 0 -> dir0 = vneg d) /\ (0 <= vz d * z0 -> dir0 = d).
Proof.
  intros Hz Hne. unfold aim_dir.
  set (pt1 := trace_base_pt1 (X := X) opt_model pupil fld apply_vig) in *.
  set (pt0 := obj_coords opt_model fld) in *.
  assert (Hlen : norm (vsub pt1 pt0) <> 0).
  { intros H0. apply Hne. apply vsub_zero. now apply norm_zero. }
  pose proof (norm_unit (vsub pt1 pt0) Hlen) as Hunit.
  set (d := vdivs (vsub pt1 pt0) (norm (vsub pt1 pt0))) in *.
  exists (if Rlt_dec (vz d * z0) 0 then vneg d else d).
  split; [|split; [|split; [|split]]].
  - intros t. unfold trace_base. rewrite Hz. cbv zeta.
    change (trace_base_pt1 (X := with_rt_trace (X := X) t)
                           opt_model pupil fld apply_vig) with pt1.
    change (@obj_coords _ _ (with_rt_trace (X := X) t) opt_model fld) with pt0.
    fold d. change (Py.index (z0 :: zs) 0) with (Some z0). cbv iota.
    change (rt_trace (Collaborators := with_rt_trace (X := X) t)) with t.
    cbn [fltb fmul f0 R_ops].
    now destruct (Rlt_dec (vz d * z0) 0).
  - destruct (Rlt_dec (vz d * z0) 0); [now rewrite norm_vneg | assumption].
  - destruct (Rlt_dec (vz d * z0) 0) as [Hlt|Hge]; [|lra].
    destruct d as [dx dy dz]; cbn in *. lra.
  - intros Hlt. destruct (Rlt_dec (vz d * z0) 0); [reflexivity | lra].
  - intros Hge. destruct (Rlt_dec (vz d * z0) 0); [lra | reflexivity].
Qed.

(** [math.sqrt] of a non-negative real returns its square root. *)
Lemma math_sqrt_nonneg (x : R) : 0 <= x -> math_sqrt x = Ret (sqrt x).
Proof.
  intros Hx. unfold math_sqrt. cbn [fltb f0 fsqrt R_ops].
  destruct (Rlt_dec x 0); [lra | reflexivity].
Qed.

(** The oblique power over the reals. *)
Lemma obl_power_of_real (power n n' cosI cosI' : R) :
  obl_power_of power n n' cosI cosI'
    = if Req_dec_T power 0 then 0
      else power * ((n' * cosI' - n * cosI) / (n' - n)).
Proof.
  unfold obl_power_of. cbn [feqb f0 fmul fsub fdiv R_ops].
  destruct (Req_dec_T power 0) as [->|]; reflexivity.
Qed.

(** Dividing [n'] by [n' / v] gives [v] back. *)
Lemma div_div_same (n' v : R) : n' <> 0 -> n' / (n' / v) = v.
Proof.
  intros Hn. destruct (Req_dec_T v 0) as [->|Hv].
  - unfold Rdiv. rewrite Rinv_0, Rmult_0_r, Rinv_0. ring.
  - field. split; assumption.
Qed.

(** The first item of the path: both vergences start as the negated
    distance to the next interface, and the index after the interface is
    handed on. *)
Lemma coddington_step_first (st0 : @coddington_state R) (seg0 : RaySeg)
    (ifc0 : option Interface) (n0 : option R) (tf0 : option Tfrm)
    (zd0 : option R) :
  before_dir st0 = None ->
  coddington_step st0 (Some seg0, ifc0, n0, tf0, zd0)
    = Ret (mkCoddington
             (match n0 with Some v => v | None => before_rind st0 end)
             (Some (seg_d seg0)) (Some (- seg_dst seg0)) (Some (- seg_dst seg0))
             (s_prime st0) (t_prime st0)
             (Some (seg_d seg0)) (Some (seg_p seg0))).
Proof. intros H0. unfold coddington_step. now rewrite H0. Qed.

(** A later item of the path, with every variable the step leaves. *)
Lemma coddington_step_later (st : @coddington_state R) (seg : RaySeg)
    (ifc : Interface) (n_opt : option R) (tfrm : option Tfrm) (zd : option R)
    (b4dir : vec3) (s t : R) :
  let n := before_rind st in
  let n' := match n_opt with Some v => v | None => n end in
  let cosI' := cos_after seg in
  let sinI := n' * sqrt (1 - cosI' * cosI') / n in
  let cosI := sqrt (1 - sinI * sinI) in
  let P := obl_power_of (optical_power ifc) n n' cosI cosI' in
  let s' := n' / (n / s + P) in
  let t' := n' * (cosI' * cosI') / (n * (cosI * cosI) / t + P) in
  before_dir st = Some b4dir -> s_before st = Some s -> t_before st = Some t ->
  0 <= 1 - cosI' * cosI' -> 0 <= 1 - sinI * sinI ->
  coddington_step st (Some seg, Some ifc, n_opt, tfrm, zd)
    = Ret (mkCoddington n' (Some (seg_d seg))
             (Some (s' - seg_dst seg)) (Some (t' - seg_dst seg))
             (Some s') (Some t') (Some (seg_d seg)) (Some (seg_p seg))).
Proof.
  intros n n' cosI' sinI cosI P s' t' Hdir Hs Ht Hc' Hc.
  unfold coddington_step. rewrite Hdir, Hs, Ht. cbv zeta.
  fold (cos_after seg). cbn [f1 fsub fmul fdiv fadd R_ops].
  fold cosI'. fold n. fold n'.
  rewrite (math_sqrt_nonneg _ Hc'). cbn [Py.bind].
  fold sinI. rewrite (math_sqrt_nonneg _ Hc). cbn [Py.bind].
  reflexivity.
Qed.

(** At normal incidence the second cosine is one as well and the oblique
    power is the paraxial power. *)
Lemma normal_incidence (power n n' : R) :
  (power <> 0 -> n' <> n) ->
  let sinI := n' * sqrt (1 - 1 * 1) / n in
  let cosI := sqrt (1 - sinI * sinI) in
  sinI = 0 /\ cosI = 1 /\ obl_power_of power n n' cosI 1 = power.
Proof.
  intros Hrefr sinI cosI.
  assert (HsinI : sinI = 0).
  { unfold sinI. replace (1 - 1 * 1) with 0 by ring.
    rewrite sqrt_0. unfold Rdiv. ring. }
  assert (HcosI : cosI = 1).
  { unfold cosI. rewrite HsinI. replace (1 - 0 * 0) with 1 by ring.
    apply sqrt_1. }
  repeat split; [exact HsinI | exact HcosI |].
  rewrite obl_power_of_real.
  destruct (Req_dec_T power 0) as [E|Hp]; [now rewrite E|].
  rewrite HcosI. field. specialize (Hrefr Hp). lra.
Qed.

(** C6 (as the code has it).  The Coddington recurrence, as the loop of
    [trace_coddington_fan] runs it.  The first item of the path sets both
    vergences to the negated distance to the next interface.  At a later
    item the oblique power is the paraxial power times
    [(n' cosI' - n cosI) / (n' - n)] when the power is not zero and zero
    otherwise, the image distances follow [n'/s' = n/s + P] and
    [n' cosI'^2 / t' = n cosI^2 / t + P], the vergences move on by the
    distance to the next interface and [n'] is the index before the next
    one.  At normal incidence on an interface between different indices
    the oblique power is the paraxial power itself and
    [s' = n' / (n/s + power)]; for a single surface that is what
    [trace_coddington_fan] returns as both foci. *)
Theorem coddington_loop_recurrence
    (X : @Collaborators R Obj)
    (st : @coddington_state R) (seg : RaySeg) (ifc : Interface)
    (n_opt : option R) (tfrm : option Tfrm) (zd : option R)
    (rest : list path_item) (b4dir : vec3) (s t : R) :
  let n := before_rind st in
  let n' := match n_opt with Some v => v | None => n end in
  let power := optical_power ifc in
  let cosI' := cos_after seg in
  let sinI := n' * sqrt (1 - cosI' * cosI') / n in
  let cosI := sqrt (1 - sinI * sinI) in
  let P := obl_power_of power n n' cosI cosI' in
  let s' := n' / (n / s + P) in
  let t' := n' * (cosI' * cosI') / (n * (cosI * cosI) / t + P) in
  (* the first interface *)
  (forall (st0 : coddington_state) seg0 ifc0 n0 tf0 zd0,
     before_dir st0 = None ->
     coddington_loop ((Some seg0, ifc0, n0, tf0, zd0) :: rest) st0
       = coddington_loop rest
           (mkCoddington
              (match n0 with Some v => v | None => before_rind st0 end)
              (Some (seg_d seg0))
              (Some (- seg_dst seg0)) (Some (- seg_dst seg0))
              (s_prime st0) (t_prime st0)
              (Some (seg_d seg0)) (Some (seg_p seg0)))) /\
  (* a later interface *)
  (before_dir st = Some b4dir -> s_before st = Some s -> t_before st = Some t ->
   0 <= 1 - cosI' * cosI' -> 0 <= 1 - sinI * sinI ->
   coddington_loop ((Some seg, Some ifc, n_opt, tfrm, zd) :: rest) st
     = coddington_loop rest
         (mkCoddington n' (Some (seg_d seg))
            (Some (s' - seg_dst seg)) (Some (t' - seg_dst seg))
            (Some s') (Some t') (Some (seg_d seg)) (Some (seg_p seg)))) /\
  (* the oblique power *)
  ((power <> 0 -> P = power * ((n' * cosI' - n * cosI) / (n' - n))) /\
   (power = 0 -> P = 0)) /\
  (* normal incidence *)
  (cosI' = 1 -> (power <> 0 -> n' <> n) ->
   cosI = 1 /\ P = power /\ s' = n' / (n / s + power) /\
   (n' <> 0 -> n / s + power <> 0 -> n' / s' = n / s + power)) /\
  (* a single surface at normal incidence, from the object to both foci *)
  (forall (opt_model : OpticalModel) (ray_pkg : RayPkg) (foc : option R)
          (seg0 seg1 : RaySeg) (ifc0 ifc1 : Interface) (n0 n1 : R),
     pkg_ray ray_pkg = [seg0; seg1] ->
     ifcs (seq_model opt_model) = [ifc0; ifc1] ->
     rndx_at (rndx (seq_model opt_model))
             (index_for_wavelength (seq_model opt_model) (pkg_wvl ray_pkg))
       = Ret [n0; n1] ->
     (List.length (lcl_tfrms (seq_model opt_model)) <= 2)%nat ->
     (List.length (z_dir (seq_model opt_model)) <= 2)%nat ->
     cos_after seg1 = 1 -> (optical_power ifc1 <> 0 -> n1 <> n0) ->
     let focus := n1 / (n0 / (- seg_dst seg0) + optical_power ifc1)
                  * vz (seg_d seg1) + vz (seg_p seg1) in
     let shifted := match foc with
                    | Some focus_shift => focus - focus_shift
                    | None => focus
                    end in
     trace_coddington_fan (X := X) opt_model ray_pkg foc
       = Ret (shifted, shifted)).
Proof.
  intros n n' power cosI' sinI cosI P s' t'.
  split; [|split; [|split; [|split]]].
  - intros st0 seg0 ifc0 n0 tf0 zd0 H0. cbn [coddington_loop].
    now rewrite (coddington_step_first st0 seg0 ifc0 n0 tf0 zd0 H0).
  - intros Hdir Hs Ht Hc' Hc. cbn [coddington_loop].
    now rewrite (coddington_step_later st seg ifc n_opt tfrm zd b4dir s t
                   Hdir Hs Ht Hc' Hc).
  - unfold P. rewrite obl_power_of_real.
    destruct (Req_dec_T power 0); split; intros; try reflexivity; contradiction.
  - intros H1 Hrefr.
    destruct (normal_incidence power n n' Hrefr) as [_ [HcosI HP]].
    cbv zeta in HcosI, HP.
    assert (Ec : cosI = 1) by (unfold cosI, sinI; rewrite H1; exact HcosI).
    assert (EP : P = power) by (unfold P, cosI, sinI; rewrite H1; exact HP).
    split; [exact Ec|]. split; [exact EP|]. split.
    + unfold s'. now rewrite EP.
    + intros Hn' Hv. unfold s'. rewrite EP. revert Hv.
      generalize (n / s + power). intros v Hv. field. split; assumption.
  - intros opt_model ray_pkg foc seg0 seg1 ifc0 ifc1 n0 n1
           Hray Hifcs Hrows Htf Hzd Hcos Hrefr focus shifted.
    unfold trace_coddington_fan. cbv zeta. rewrite Hrows. cbn [Py.bind].
    rewrite Hray, Hifcs. unfold Py.zip_longest.
    replace (Nat.max _ _) with 2%nat by (cbn [List.length]; lia).
    cbn [Py.zip_longest5 hd_error tl coddington_loop].
    rewrite coddington_step_first by reflexivity. cbn [Py.bind].
    destruct (normal_incidence (optical_power ifc1) n0 n1 Hrefr)
      as [HsinI [HcosI HP]]. cbv zeta in HsinI, HcosI, HP.
    erewrite coddington_step_later;
      [| reflexivity | reflexivity | reflexivity
       | cbn [before_rind]; rewrite Hcos; lra
       | cbn [before_rind]; rewrite Hcos, HsinI; lra].
    cbn [Py.bind before_rind s_prime t_prime after_dir pt].
    rewrite Hcos, HP, HcosI.
    replace (n1 * (1 * 1) / (n0 * (1 * 1) / - seg_dst seg0 + optical_power ifc1))
      with (n1 / (n0 / - seg_dst seg0 + optical_power ifc1))
      by (unfold Rdiv; rewrite !Rmult_1_r; reflexivity).
    cbn [fmul fadd fsub R_ops]. fold focus.
    unfold shifted. now destruct foc.
Qed.

(** C7 (as the code has it).  For direction vectors that are not
    parallel, [intersect_2_lines] returns
    [((P2 - P1) x V1) . (V1 x V2) / |V1 x V2|^2]; when the two lines meet
    in a point [P1 + a V1 = P2 + b V2] this is [b], the parameter of that
    point along the second line.  For parallel direction vectors there is
    no error path: the dividend and the divisor are both zero and the
    value is their quotient. *)
Theorem intersect_2_lines_formula (P1 V1 P2 V2 : @vec3 R) :
  (cross V1 V2 <> V3 0 0 0 ->
     intersect_2_lines P1 V1 P2 V2
       = dot (cross (vsub P2 P1) V1) (cross V1 V2)
         / (norm (cross V1 V2) * norm (cross V1 V2)) /\
     (forall a b, vadd P1 (vscale a V1) = vadd P2 (vscale b V2) ->
        intersect_2_lines P1 V1 P2 V2 = b)) /\
  (cross V1 V2 = V3 0 0 0 -> intersect_2_lines P1 V1 P2 V2 = 0 / 0).
Proof.
  split.
  - intros Hx.
    assert (Hsq : norm (cross V1 V2) * norm (cross V1 V2)
                  = dot (cross V1 V2) (cross V1 V2))
      by (unfold norm; cbn [fsqrt R_ops]; apply sqrt_sqrt, dot_self_nonneg).
    assert (Hd : dot (cross V1 V2) (cross V1 V2) <> 0)
      by (intros H0; apply Hx; now apply dot_self_zero).
    split.
    + unfold intersect_2_lines. cbv zeta. cbn [fdiv R_ops]. now rewrite Hsq.
    + intros a b Hmeet. unfold intersect_2_lines. cbv zeta. cbn [fdiv R_ops].
      apply Rmult_eq_reg_r with (r := dot (cross V1 V2) (cross V1 V2));
        [|exact Hd].
      unfold Rdiv. rewrite Rmult_assoc, Rinv_l, Rmult_1_r by exact Hd.
      destruct P1 as [p1x p1y p1z], V1 as [v1x v1y v1z],
               P2 as [p2x p2y p2z], V2 as [v2x v2y v2z].
      unfold vadd, vscale in Hmeet. cbn in Hmeet.
      injection Hmeet as Ex Ey Ez.
      unfold dot, cross, vsub. cbn.
      replace (p2x - p1x) with (a * v1x - b * v2x) by lra.
      replace (p2y - p1y) with (a * v1y - b * v2y) by lra.
      replace (p2z - p1z) with (a * v1z - b * v2z) by lra.
      ring.
  - intros Hpar. unfold intersect_2_lines. cbv zeta. rewrite Hpar.
    cbn [fdiv R_ops]. f_equal.
    + destruct (cross (vsub P2 P1) V1); unfold dot; cbn. ring.
    + unfold dot; cbn. ring.
Qed.

End Reals.

(** ** Instances over the reals *)

Section RealInstances.

Local Open Scope R_scope.

(** C10, witness: the axial field of the demo system, chief ray. *)
Lemma trace_base_start_direction_witness :
  exists dir0 : @vec3 R, norm dir0 = 1 /\ 0 <= vz dir0 * 1.
Proof.
  destruct (trace_base_start_direction
              (Demo.collaborators (F := R) Demo.trace_upper_half)
              Demo.model (V2 0 0) Demo.field0 550 true no_kwargs 1 [])
    as [dir0 [_ [Hn [Hs _]]]].
  - reflexivity.
  - intros H. apply (f_equal vz) in H.
    cbn [vz trace_base_pt1 Demo.model Demo.collaborators fod enp_radius
         obj_dist enp_dist obj_coords aim_pt Demo.field0 apply_vignetting
         v2x v2y f0 f1 fadd fmul of_int R_ops] in H.
    lra.
  - exists dir0. split; assumption.
Defined.

(** A segment of the demo system meets its surface along the normal. *)
Lemma demo_seg_normal (y : R) : cos_after (Demo.seg y) = 1.
Proof.
  unfold cos_after, norm, dot. cbn.
  replace (0 * 0 + 0 * 0 + 1 * 1) with 1 by ring. rewrite sqrt_1. field.
Qed.

(** C6, witness: a ray along the axis through a single surface of power
    1/2 from index 1 into index 3/2, the object one unit in front: both
    foci lie where [3/2 / s' = 1 / -1 + 1/2], three units in front of the
    surface. *)
Lemma coddington_loop_recurrence_witness :
  trace_coddington_fan (X := Demo.steady (F := R)) Demo.single_surface
                       (mkRayPkg [Demo.seg 0; Demo.seg 0] 0 550) None
    = Ret (3 / 2 / (1 / - (1) + 1 / 2) * 1 + 0,
           3 / 2 / (1 / - (1) + 1 / 2) * 1 + 0) /\
  3 / 2 / (1 / - (1) + 1 / 2) * 1 + 0 = -3.
Proof.
  destruct (coddington_loop_recurrence (Demo.steady (F := R))
              (mkCoddington 1 None None None None None None None)
              (Demo.seg 0) (mkInterface 0) None None None [] (V3 0 0 1) 1 1)
    as [_ [_ [_ [_ Hsingle]]]].
  split; [|field].
  assert (Hrefr : optical_power (mkInterface (1 / 2)) <> 0 -> 3 / 2 <> 1)
    by (intros _; lra).
  exact (Hsingle Demo.single_surface
                 (mkRayPkg [Demo.seg 0; Demo.seg 0] 0 550) None
                 (Demo.seg 0) (Demo.seg 0) (mkInterface 0)
                 (mkInterface (1 / 2)) 1 (3 / 2)
                 eq_refl eq_refl eq_refl (le_S _ _ (le_S _ _ (le_n 0)))
                 (le_S _ _ (le_n 1)) (demo_seg_normal 0) Hrefr).
Defined.

(** C7, witness: the z axis and the line through (1, 0, 5) along x meet
    in (0, 0, 5), one unit behind the start of the second line. *)
Lemma intersect_2_lines_formula_witness :
  intersect_2_lines (F := R) (V3 0 0 0) (V3 0 0 1) (V3 1 0 5) (V3 1 0 0) = -1.
Proof.
  destruct (intersect_2_lines_formula (V3 0 0 0) (V3 0 0 1) (V3 1 0 5) (V3 1 0 0))
    as [Hmeet _].
  destruct Hmeet as [_ Hpoint].
  - unfold cross; cbn. intros H. apply (f_equal vy) in H. cbn in H. lra.
  - apply (Hpoint 5 (-1)). unfold vadd, vscale; cbn. f_equal; ring.
Defined.

End RealInstances.

(** * Further properties of the code *)

(** ** What escapes the safe trace, and what the aiming handlers do *)

Section Handlers.

Context {F : Type} {FO : FloatOps F} {Obj : Type} {X : @Collaborators F Obj}.

(** Index [-1] finds nothing only in an empty list. *)
Lemma index_last_none {A} (l : list A) : Py.index l (-1) = None -> l = [].
Proof.
  destruct l as [|a l] using rev_ind; [reflexivity|].
  now rewrite index_last.
Qed.

(** Index [-2] reads the item before the last one. *)
Lemma index_before_last {A} (init : list A) (x y : A) :
  Py.index (init ++ [x; y]) (-2) = Some x.
Proof.
  unfold Py.index. rewrite length_app. cbn [List.length].
  replace (0 <=? -2)%Z with false by reflexivity.
  replace (Z.of_nat (List.length init + 2) + -2)%Z
    with (Z.of_nat (List.length init)) by lia.
  destruct (Z.leb_spec 0 (Z.of_nat (List.length init))); [|lia].
  rewrite Nat2Z.id, nth_error_app2 by lia.
  now rewrite Nat.sub_diag.
Qed.

Lemma index_before_last_none {A} (l : list A) :
  Py.index l (-2) = None <-> (List.length l < 2)%nat.
Proof.
  destruct l as [|y l] using rev_ind; [cbn; split; [lia | reflexivity]|].
  destruct l as [|x l _] using rev_ind.
  - cbn. split; [lia | reflexivity].
  - rewrite <- app_assoc. cbn [app]. rewrite index_before_last.
    rewrite !length_app. cbn. split; [discriminate | lia].
Qed.

(** X1.  With no output filter, or a string for one, an exception leaves
    [trace_safe] only in four ways: [trace_base] raised something that is
    not a trace error; the 'full' filter met a trace error without ray
    package; the 'last' filter met an empty ray; or the output filter is a
    string other than 'last'.  (A callable output filter runs outside the
    handler: what it raises leaves [trace_safe] as well, which is why the
    statement leaves callables out.) *)
Theorem trace_safe_escapes
    (opt_model : OpticalModel) (pupil : vec2) (fld : Field) (wvl : F)
    (output_filter : option output_filter) (rayerr_filter : option string)
    (kw : kwargs) (e : exn) :
  (forall f, output_filter <> Some (OF_call f)) ->
  trace_safe opt_model pupil fld wvl output_filter rayerr_filter kw = Raise e ->
  let traced := call_trace_base opt_model pupil fld wvl kw in
  (traced = Raise e /\ forall te, e <> TraceErr te) \/
  (e = TypeError /\ rayerr_filter = Some "full"%string /\
   exists te, traced = Raise (TraceErr te) /\ te_ray_pkg te = None) \/
  (e = IndexError /\ output_filter = Some (OF_str "last") /\
   exists pkg, traced = Ret pkg /\ pkg_ray pkg = []) \/
  (e = TypeError /\
   exists pkg s, traced = Ret pkg /\ output_filter = Some (OF_str s) /\
                 s <> "last"%string).
Proof.
  intros _ H traced. subst traced. unfold trace_safe in H.
  destruct (call_trace_base opt_model pupil fld wvl kw) as [pkg|e0].
  - assert (Hnamed : (if Py.get (kw_use_named_tuples kw) false
                      then named_pkg pkg else pkg) = pkg)
      by (destruct (Py.get _ _); [apply named_pkg_same | reflexivity]).
    cbv zeta in H. rewrite Hnamed in H.
    destruct output_filter as [[s|f]|]; try discriminate.
    destruct (String.eqb_spec s "last") as [->|Hs].
    + destruct (Py.index (pkg_ray pkg) (-1)) eqn:Ei; [discriminate|].
      injection H as <-. right; right; left.
      repeat split. exists pkg. split; [reflexivity|].
      now apply index_last_none.
    + injection H as <-. right; right; right.
      split; [reflexivity|]. now exists pkg, s.
  - destruct e0 as [te| | | | | | | |];
      try (injection H as <-; left; split; [reflexivity | discriminate]).
    destruct rayerr_filter as [s|]; [|discriminate].
    destruct (String.eqb_spec s "full") as [->|Hs].
    + destruct (te_ray_pkg te) eqn:Epk; [discriminate|].
      injection H as <-. right; left. repeat split. now exists te.
    + destruct (String.eqb s "summary"); discriminate.
Qed.

(** X2.  Neither [iterate_ray] nor [aim_chief_ray] ever raises a trace
    error: one that comes out of the root finder is replaced by the zero
    aim point, in the 1D and in the 2D iteration alike. *)
Theorem iterate_ray_never_trace_error
    (opt_model : OpticalModel) (ifcx : option Z) (xy_target : vec2)
    (fld : Field) (wvl : F) (wvl' : option F) :
  (forall e, iterate_ray opt_model ifcx xy_target fld wvl <> Raise (TraceErr e)) /\
  (forall e, aim_chief_ray opt_model fld wvl' <> Raise (TraceErr e)) /\
  (forall i e,
     ifcx = Some i ->
     (let pt0 := obj_coords opt_model fld in
      if feqb (vx pt0) f0 && feqb (v2x xy_target) f0
      then newton (fun y1 => y_stop_coordinate y1 (seq_model opt_model) i pt0
                               (fadd (obj_dist (fod opt_model))
                                     (enp_dist (fod opt_model)))
                               wvl (v2y xy_target)) f0
           = Raise (TraceErr e)
      else fsolve (fun coord => surface_coordinate coord (seq_model opt_model)
                                  i pt0
                                  (fadd (obj_dist (fod opt_model))
                                        (enp_dist (fod opt_model)))
                                  wvl xy_target)
                  (V2 f0 f0) (fmul f1em4 (enp_radius (fod opt_model)))
           = Raise (TraceErr e)) ->
     iterate_ray opt_model ifcx xy_target fld wvl = Ret (V2 f0 f0)).
Proof.
  assert (Hnever : forall ifcx xy w e,
             iterate_ray opt_model ifcx xy fld w <> Raise (TraceErr e)).
  { intros ifcx0 xy w e0. unfold iterate_ray. cbv zeta.
    destruct ifcx0 as [i|]; [|discriminate].
    destruct (feqb _ _ && feqb _ _).
    - destruct (newton _ _) as [y|ex]; [discriminate|].
      destruct ex; discriminate.
    - destruct (fsolve _ _ _) as [c|ex]; [discriminate|].
      destruct ex; discriminate. }
  split; [apply Hnever|]. split; [intros e; apply Hnever|].
  intros i e -> Hsolver. unfold iterate_ray. cbv zeta in *.
  destruct (feqb _ _ && feqb _ _); now rewrite Hsolver.
Qed.

(** X3.  In the 1D iteration a RuntimeError of the root finder is not
    turned into an estimate: its handler reads a name that was never
    bound, so an UnboundLocalError comes out.  Any other exception that is
    not a trace error passes through unchanged. *)
Theorem iterate_ray_runtime_error
    (opt_model : OpticalModel) (ifcx : Z) (xy_target : vec2)
    (fld : Field) (wvl : F) (e : exn) :
  let pt0 := obj_coords opt_model fld in
  feqb (vx pt0) f0 && feqb (v2x xy_target) f0 = true ->
  newton (fun y1 => y_stop_coordinate y1 (seq_model opt_model) ifcx pt0
                      (fadd (obj_dist (fod opt_model)) (enp_dist (fod opt_model)))
                      wvl (v2y xy_target)) f0
    = Raise e ->
  (e = RuntimeError ->
     iterate_ray opt_model (Some ifcx) xy_target fld wvl = Raise UnboundLocalError) /\
  (e <> RuntimeError -> (forall te, e <> TraceErr te) ->
     iterate_ray opt_model (Some ifcx) xy_target fld wvl = Raise e).
Proof.
  intros pt0 H1d Hnewton. subst pt0. unfold iterate_ray. cbv zeta.
  rewrite H1d, Hnewton. split.
  - now intros ->.
  - intros Hrt Hte. destruct e; try reflexivity.
    + now elim (Hte e).
    + now elim Hrt.
Qed.

End Handlers.

(** ** The full trace and the chief ray, on failure and in sequence *)

Section FullTrace.

Context {F : Type} {FO : FloatOps F} {Obj : Type} {X : @Collaborators F Obj}.

(** X4.  [trace_with_opd] touches the field only after the chief ray, the
    reference sphere and the ray itself are there: when any of the three
    raises, that exception comes out and the field is as before.  When the
    wavefront calculation raises afterwards, the exception comes out and
    the field already holds the new chief ray and reference sphere. *)
Theorem trace_with_opd_field_on_failure
    (opt_model : OpticalModel) (pupil : vec2) (wvl foc : F) (kw : kwargs)
    (fld : Field) :
  let image_pt_2d := option_map (fun v => V2 (vx v) (vy v)) (kw_image_pt kw) in
  let run := trace_with_opd opt_model pupil wvl foc kw fld in
  (forall e, fst (get_chief_ray_pkg opt_model wvl foc fld) = Raise e ->
     run = (Raise e, fld)) /\
  (forall crp, fst (get_chief_ray_pkg opt_model wvl foc fld) = Ret crp ->
     (forall e,
        calculate_reference_sphere opt_model fld wvl foc crp image_pt_2d
          = Raise e ->
        run = (Raise e, fld)) /\
     (forall rs,
        calculate_reference_sphere opt_model fld wvl foc crp image_pt_2d
          = Ret rs ->
        (forall e, call_trace_base opt_model pupil fld wvl kw = Raise e ->
           run = (Raise e, fld)) /\
        (forall ray_pkg e,
           call_trace_base opt_model pupil fld wvl kw = Ret ray_pkg ->
           let fld' := set_ref_sphere (set_chief_ray fld (Some crp)) (Some rs) in
           wave_abr_full_calc (fod opt_model) fld' (pkg_wvl ray_pkg) foc
                              ray_pkg crp rs = Raise e ->
           run = (Raise e, fld')))).
Proof.
  intros image_pt_2d run. subst image_pt_2d run.
  unfold trace_with_opd, m_bind, m_get, m_lift, m_assign, m_ret.
  cbv beta zeta.
  pose proof (get_chief_ray_pkg_read_only opt_model wvl foc fld) as Hro.
  destruct (get_chief_ray_pkg opt_model wvl foc fld) as [r fld0].
  cbn [fst snd] in *. subst fld0.
  split.
  - now intros e ->.
  - intros crp ->. split.
    + now intros e ->.
    + intros rs ->. split.
      * now intros e ->.
      * intros ray_pkg e -> Habr. now rewrite Habr.
Qed.

(** What a returning [trace_with_opd] has computed. *)
Lemma trace_with_opd_returns (opt_model : OpticalModel) (pupil : vec2)
    (wvl foc : F) (kw : kwargs) (fld : Field) v :
  fst (trace_with_opd opt_model pupil wvl foc kw fld) = Ret v ->
  exists crp rs,
    fst (get_chief_ray_pkg opt_model wvl foc fld) = Ret crp /\
    snd (trace_with_opd opt_model pupil wvl foc kw fld)
      = set_ref_sphere (set_chief_ray fld (Some crp)) (Some rs).
Proof.
  unfold trace_with_opd, m_bind, m_get, m_lift, m_assign, m_ret.
  cbv beta zeta.
  pose proof (get_chief_ray_pkg_read_only opt_model wvl foc fld) as Hro.
  destruct (get_chief_ray_pkg opt_model wvl foc fld) as [r fld0].
  cbn [fst snd] in Hro |- *. subst fld0.
  destruct r as [crp|e]; [|discriminate].
  destruct (calculate_reference_sphere _ _ _ _ _ _) as [rs|e]; [|discriminate].
  destruct (call_trace_base _ _ _ _ _) as [pkg|e]; [|discriminate].
  destruct (wave_abr_full_calc _ _ _ _ _ _ _) as [opd|e]; [|discriminate].
  intros _. now exists crp, rs.
Qed.

End FullTrace.

Section FullTraceThenLookup.

Context {F : Type} {FO : FloatOps F} {Obj : Type}.

(** X5.  After a [trace_with_opd] that returned, the field holds the chief
    ray it used, and a lookup at the same wavelength hands that package
    back without tracing anything (whatever the collaborators are), as
    long as the package carries the wavelength it was asked at. *)
Theorem trace_with_opd_then_get_chief_ray_pkg
    (X X' : @Collaborators F Obj) (opt_model : OpticalModel) (pupil : vec2)
    (wvl foc foc' : F) (kw : kwargs) (fld : Field) v :
  fst (trace_with_opd (X := X) opt_model pupil wvl foc kw fld) = Ret v ->
  let fld' := snd (trace_with_opd (X := X) opt_model pupil wvl foc kw fld) in
  exists crp,
    fst (get_chief_ray_pkg (X := X) opt_model wvl foc fld) = Ret crp /\
    chief_ray fld' = Some crp /\
    (feqb (pkg_wvl (fst crp)) wvl = true ->
     get_chief_ray_pkg (X := X') opt_model wvl foc' fld' = (Ret crp, fld')).
Proof.
  intros Hret fld'. subst fld'.
  destruct (trace_with_opd_returns opt_model pupil wvl foc kw fld v Hret)
    as [crp [rs [Hcr ->]]].
  exists crp. split; [exact Hcr|]. split; [reflexivity|].
  intros Hw. unfold get_chief_ray_pkg, m_bind, m_get, m_ret.
  cbn [chief_ray set_ref_sphere set_chief_ray]. now rewrite Hw.
Qed.

End FullTraceThenLookup.

Section ChiefRayEdge.

Context {F : Type} {FO : FloatOps F} {Obj : Type} {X : @Collaborators F Obj}.

(** X6.  [trace_chief_ray] reads the interface and the ray segment before
    the last: when the chief ray traces but the model has fewer than two
    interfaces or the ray fewer than two segments, an IndexError comes
    out; and whenever it returns, the package it returns is the trace of
    the pupil centre. *)
Theorem trace_chief_ray_needs_two
    (opt_model : OpticalModel) (fld : Field) (wvl foc : F) (cr : RayPkg) :
  call_trace_base opt_model (V2 f0 f0) fld wvl no_kwargs = Ret cr ->
  ((List.length (ifcs (seq_model opt_model)) < 2)%nat \/
   (List.length (pkg_ray cr) < 2)%nat ->
   trace_chief_ray opt_model fld wvl foc = Raise IndexError) /\
  (forall v, trace_chief_ray opt_model fld wvl foc = Ret v ->
     fst v = cr /\
     (2 <= List.length (ifcs (seq_model opt_model)))%nat /\
     (2 <= List.length (pkg_ray cr))%nat).
Proof.
  intros Htr. unfold trace_chief_ray. cbv zeta. rewrite Htr. cbn [Py.bind].
  pose proof (index_before_last_none (ifcs (seq_model opt_model))) as Hi.
  pose proof (index_before_last_none (pkg_ray cr)) as Hr.
  destruct (Py.index (ifcs (seq_model opt_model)) (-2)) as [ifc|].
  - destruct (Py.index (pkg_ray cr) (-2)) as [seg|].
    + split.
      * intros [H|H]; [apply Hi in H | apply Hr in H]; discriminate.
      * intros v Hv.
        destruct (transfer_to_exit_pupil _ _ _) as [es|e]; [|discriminate].
        injection Hv as <-. cbn.
        assert (Hni : ~ (List.length (ifcs (seq_model opt_model)) < 2)%nat)
          by (intros Hlt; apply Hi in Hlt; discriminate).
        assert (Hnr : ~ (List.length (pkg_ray cr) < 2)%nat)
          by (intros Hlt; apply Hr in Hlt; discriminate).
        repeat split; lia.
    + split; [reflexivity | discriminate].
  - split; [reflexivity | discriminate].
Qed.

End ChiefRayEdge.

(** ** The fan: all samples or none *)

Section Fan.

Context {F : Type} {FO : FloatOps F} {Obj : Type} {X : @Collaborators F Obj}.

Lemma fan_sample_succ (start step : @vec2 F) (i : nat) :
  fan_sample (v2add start step) step i = fan_sample start step (S i).
Proof.
  unfold fan_sample. symmetry.
  exact (Nat.iter_succ_r i _ (fun p => v2add p step) start).
Qed.

(** A fan loop that returns has appended one item per sample, each one the
    trace of its pupil point, stored with the pupil array as the trace
    left it. *)
Lemma fan_loop_returns (opt_model : OpticalModel) (fld : Field)
    (img_filter : option (vec2 -> RayPkg -> option Obj)) (kw : kwargs)
    (step : vec2) :
  forall count start wvl acc fan,
    fan_loop opt_model fld img_filter kw step count start wvl acc = Ret fan ->
    exists items,
      fan = acc ++ items /\ List.length items = count /\
      forall i item, nth_error items i = Some item ->
        exists w pkg,
          call_trace_base opt_model (fan_sample start step i) fld w kw = Ret pkg /\
          item = fan_item_of img_filter
                   (pupil_after_trace_base fld kw (fan_sample start step i)) pkg.
Proof.
  induction count as [|count IH]; intros start wvl acc fan H.
  - cbn in H. injection H as <-. exists []. rewrite app_nil_r.
    repeat split. intros [|i] item Hi; discriminate.
  - cbn [fan_loop] in H.
    destruct (call_trace_base opt_model start fld wvl kw) as [pkg|e] eqn:Etr;
      [|discriminate].
    cbn [Py.bind] in H.
    cbv zeta in H.
    assert (Hacc : (match img_filter with
                    | Some f =>
                        acc ++ [Fan_filtered (pupil_after_trace_base fld kw start)
                                  (f (pupil_after_trace_base fld kw start) pkg)]
                    | None =>
                        acc ++ [Fan_pkg (pupil_after_trace_base fld kw start) pkg]
                    end)
                   = acc ++ [fan_item_of img_filter
                               (pupil_after_trace_base fld kw start) pkg])
      by (unfold fan_item_of; now destruct img_filter).
    rewrite Hacc in H. apply IH in H. destruct H as [items [-> [Hlen Hitems]]].
    exists (fan_item_of img_filter (pupil_after_trace_base fld kw start) pkg
              :: items).
    rewrite <- app_assoc. split; [reflexivity|]. split; [cbn; lia|].
    intros [|i] item Hi.
    + injection Hi as <-. now exists wvl, pkg.
    + cbn in Hi. destruct (Hitems i item Hi) as [w [pk [Htr ->]]].
      rewrite fan_sample_succ in Htr. rewrite fan_sample_succ.
      now exists w, pk.
Qed.

(** X7.  A fan comes whole or not at all: whenever [trace_fan] returns, it
    returns exactly [num] items (none for a negative [num]), and item [i]
    holds the trace of the pupil point reached from the start by [i]
    steps.  The pupil it stores with the trace is the array it handed to
    [trace_base], as that call left it: the point as [fld.apply_vignetting]
    scaled it in place, not the point of the sample, unless the
    [apply_vignetting] keyword is false.  An exception of any sample is
    never swallowed. *)
Theorem trace_fan_all_or_nothing
    (opt_model : OpticalModel) (start stop : vec2) (num : Z) (fld : Field)
    (wvl foc : F) (img_filter : option (vec2 -> RayPkg -> option Obj))
    (kw : kwargs) (fan : list fan_item) :
  trace_fan opt_model (start, stop, num) fld wvl foc img_filter kw = Ret fan ->
  let step := v2divs (v2sub stop start) (of_int (num - 1)) in
  List.length fan = Z.to_nat num /\
  forall i item, nth_error fan i = Some item ->
    fan_pupil item = pupil_after_trace_base fld kw (fan_sample start step i) /\
    exists w pkg,
      call_trace_base opt_model (fan_sample start step i) fld w kw = Ret pkg /\
      item = fan_item_of img_filter
               (pupil_after_trace_base fld kw (fan_sample start step i)) pkg.
Proof.
  intros H step. subst step. unfold trace_fan in H.
  apply fan_loop_returns in H. destruct H as [items [-> [Hlen Hitems]]].
  cbn [app]. split; [exact Hlen|].
  intros i item Hi. destruct (Hitems i item Hi) as [w [pkg [Htr ->]]].
  split; [unfold fan_item_of; now destruct img_filter|]. now exists w, pkg.
Qed.

End Fan.

(** ** The grid: keyword clashes, the form and the shape of the result *)

Section GridShape.

Context {F : Type} {FO : FloatOps F} {Obj : Type} {X : @Collaborators F Obj}.

(** X8.  [trace_grid] hands its own keyword arguments on to [trace_safe]
    next to [output_filter], [rayerr_filter] and [check_apertures]: when
    the caller passes one of these three by keyword and the grid has a
    cell, the first cell's call is a TypeError, whatever the form, the
    filters and the trace. *)
Theorem trace_grid_duplicate_keyword
    (opt_model : OpticalModel) (grid_rng : vec2 * vec2 * Z) (fld : Field)
    (wvl foc : F)
    (img_filter : option (vec2 -> option ray_result -> option Obj))
    (form : string) (append_if_none : bool) (kw : kwargs) :
  (0 < snd grid_rng)%Z ->
  kw_output_filter kw <> None \/ kw_rayerr_filter kw <> None \/
  kw_check_apertures kw <> None ->
  trace_grid opt_model grid_rng fld wvl foc img_filter form append_if_none kw
    = Raise TypeError.
Proof.
  destruct grid_rng as [[start stop] num]. cbn [snd]. intros Hnum Hkw.
  destruct (Z.to_nat num) as [|n] eqn:En; [lia|].
  assert (Hsafe : forall p o r,
             grid_trace_safe opt_model p fld wvl o r kw = Raise TypeError).
  { intros p o r. unfold grid_trace_safe.
    destruct (kw_output_filter kw); [reflexivity|].
    destruct (kw_rayerr_filter kw); [reflexivity|].
    destruct (kw_check_apertures kw); [reflexivity|].
    destruct Hkw as [H|[H|H]]; now elim H. }
  unfold trace_grid. cbv zeta.
  match goal with
  | |- context [grid_outer_loop (grid_row_step ?c _ _ _ _)] => set (cell := c)
  end.
  assert (Hcell : forall st, cell st = Raise TypeError)
    by (intros st; unfold cell, grid_cell; cbv zeta; now rewrite Hsafe).
  unfold Py.range_len. rewrite En. cbn [grid_outer_loop].
  unfold grid_row_step, Py.range_len. cbv zeta. rewrite En.
  cbn [grid_inner_loop]. now rewrite Hcell.
Qed.

(** X9.  With a [form] that is neither 'list' nor 'grid' the name
    [working_grid] is never bound: the first cell that has something to
    append raises UnboundLocalError.  With [append_if_none] set that is
    the very first cell. *)
Theorem trace_grid_unknown_form
    (opt_model : OpticalModel) (grid_rng : vec2 * vec2 * Z) (fld : Field)
    (wvl foc : F)
    (img_filter : option (vec2 -> option ray_result -> option Obj))
    (form : string) (kw : kwargs) :
  (0 < snd grid_rng)%Z ->
  form <> "list"%string -> form <> "grid"%string ->
  kw_output_filter kw = None -> kw_rayerr_filter kw = None ->
  kw_check_apertures kw = None ->
  recoverable (call_trace_base opt_model (fst (fst grid_rng)) fld wvl
                               (with_check_apertures kw)) ->
  trace_grid opt_model grid_rng fld wvl foc img_filter form true kw
    = Raise UnboundLocalError.
Proof.
  destruct grid_rng as [[start stop] num]. cbn [fst snd].
  intros Hnum Hl Hg Ho Hr Hc Hrec.
  destruct (Z.to_nat num) as [|n] eqn:En; [lia|].
  unfold trace_grid. cbv zeta. rewrite Ho, Hr. cbn [Py.get].
  match goal with
  | |- context [grid_outer_loop (grid_row_step ?c _ _ _ _)] => set (cell := c)
  end.
  assert (Hcell : cell (mkGridState start [] [] WG_unbound)
                  = Raise UnboundLocalError).
  { unfold cell, grid_cell. cbv zeta. cbn [gs_start].
    destruct (grid_trace_safe_unfiltered opt_model start fld wvl kw
                Ho Hr Hc Hrec) as [[r ->] _].
    cbn [Py.bind]. unfold wg_append. cbn [gs_working].
    destruct r as [rr|]; destruct img_filter as [f|]; cbn [Py.bind];
      try reflexivity.
    now rewrite orb_true_r. }
  unfold Py.range_len. rewrite En. cbn [grid_outer_loop].
  unfold grid_row_step, Py.range_len. cbv zeta. rewrite En.
  apply String.eqb_neq in Hl, Hg. rewrite Hl, Hg.
  cbn [grid_inner_loop]. now rewrite Hcell.
Qed.

(** The entries of one cell: at most one, and one when [append_if_none]
    is set. *)
Lemma cell_entries_length
    (img_filter : option (vec2 -> option ray_result -> option Obj))
    (append_if_none : bool) (pupil : @vec2 F)
    (r : option (@ray_result F Obj)) :
  (List.length (cell_entries img_filter append_if_none pupil r) <= 1)%nat /\
  (append_if_none = true ->
   List.length (cell_entries img_filter append_if_none pupil r) = 1%nat).
Proof.
  unfold cell_entries.
  destruct r as [rr|]; destruct img_filter as [f|]; cbn;
    try (split; [lia | reflexivity]).
  - destruct (is_not_None (f pupil None)); destruct append_if_none; cbn;
      split; try lia; try reflexivity; discriminate.
  - destruct append_if_none; cbn; split; try lia; try reflexivity; discriminate.
Qed.

Section Cells.

Variables (opt_model : @OpticalModel F) (fld : @Field F) (wvl : F)
          (img_filter : option (@vec2 F -> option (@ray_result F Obj) -> option Obj))
          (append_if_none : bool) (kw : @kwargs F Obj) (step : @vec2 F).

Hypothesis Ho : kw_output_filter kw = None.
Hypothesis Hr : kw_rayerr_filter kw = None.
Hypothesis Hc : kw_check_apertures kw = None.
Hypothesis Hrec :
  forall p, recoverable (call_trace_base opt_model p fld wvl
                                         (with_check_apertures kw)).

Let cell := grid_cell opt_model fld wvl img_filter append_if_none None None
                      kw step.

(** The cells of one row, counted. *)
Lemma grid_inner_loop_counts :
  forall count (st : @grid_state F Obj),
    gs_working st <> WG_unbound ->
    exists es st',
      grid_inner_loop cell count st = Ret st' /\
      gs_grid st' = gs_grid (wg_extend st es) /\
      gs_grid_row st' = gs_grid_row (wg_extend st es) /\
      gs_working st' = gs_working st /\
      (List.length es <= count)%nat /\
      (append_if_none = true -> List.length es = count).
Proof.
  induction count as [|count IH]; intros st Hw.
  - exists [], st. rewrite wg_extend_nil. cbn. repeat split; lia.
  - cbn [grid_inner_loop]. unfold cell at 1.
    destruct (grid_trace_safe_unfiltered opt_model (gs_start st) fld wvl kw
                Ho Hr Hc (Hrec _)) as [[r Hsafe] _].
    rewrite (grid_cell_appends opt_model fld wvl img_filter append_if_none
               None None kw step st r Hsafe Hw).
    cbn [Py.bind].
    set (es1 := cell_entries img_filter append_if_none
                  (pupil_after_trace_base fld kw (gs_start st)) r).
    destruct (cell_entries_length img_filter append_if_none
                (pupil_after_trace_base fld kw (gs_start st)) r)
      as [Hle Heq]. fold es1 in Hle, Heq.
    set (st1 := advance_col step (wg_extend st es1)).
    assert (Hw1 : gs_working st1 = gs_working st)
      by (unfold st1; cbn; apply wg_extend_working).
    destruct (IH st1) as [es [st' [Hloop [Hg [Hrow [Hwk [Hl He]]]]]]];
      [now rewrite Hw1|].
    exists (es1 ++ es), st'. split; [exact Hloop|].
    assert (Hext : gs_grid (wg_extend st1 es) = gs_grid (wg_extend st (es1 ++ es))
                   /\ gs_grid_row (wg_extend st1 es)
                      = gs_grid_row (wg_extend st (es1 ++ es))).
    { unfold st1, wg_extend, advance_col.
      destruct (gs_working st) eqn:E; [contradiction| |]; cbn; rewrite ?E; cbn;
        rewrite ?map_app, ?app_assoc; split; reflexivity. }
    destruct Hext as [Hxg Hxr].
    rewrite length_app.
    repeat split; try congruence; try lia.
    intros Hflag. rewrite (Heq Hflag), (He Hflag). lia.
Qed.

(** The rows of the 'grid' form, counted. *)
Lemma grid_outer_loop_rows (num : Z) (start0 : @vec2 F) :
  forall count (st : @grid_state F Obj),
    exists rows st',
      grid_outer_loop (grid_row_step cell "grid" num start0 step) count st
        = Ret st' /\
      gs_grid st' = gs_grid st ++ map GI_row rows /\
      List.length rows = count /\
      Forall (fun row =>
                (List.length row <= Z.to_nat num)%nat /\
                (append_if_none = true -> List.length row = Z.to_nat num))
             rows.
Proof.
  induction count as [|count IH]; intros st.
  - exists [], st. cbn. rewrite app_nil_r. repeat split. constructor.
  - cbn [grid_outer_loop]. unfold grid_row_step at 1. cbv zeta.
    cbn [String.eqb Ascii.eqb Bool.eqb andb].
    set (st0 := mkGridState (gs_start st) (gs_grid st) [] WG_row).
    destruct (grid_inner_loop_counts (Py.range_len num) st0)
      as [es [st1 [Hloop [Hg [Hrow [Hwk [Hl He]]]]]]]; [discriminate|].
    rewrite Hloop. cbn [Py.bind].
    rewrite Hg, Hrow. unfold wg_extend, st0. cbn.
    match goal with
    | |- context [grid_outer_loop _ count ?s] => destruct (IH s)
        as [rows [st' [Hout [Hgrid [Hlen Hall]]]]]
    end.
    exists (es :: rows), st'. split; [exact Hout|].
    cbn in Hgrid. rewrite Hgrid, <- app_assoc. cbn.
    repeat split; [now rewrite Hlen|].
    constructor; [split; assumption | assumption].
Qed.

(** The entries of the 'list' form, counted. *)
Lemma grid_outer_loop_entries (num : Z) (start0 : @vec2 F) :
  forall count (st : @grid_state F Obj),
    exists es st',
      grid_outer_loop (grid_row_step cell "list" num start0 step) count st
        = Ret st' /\
      gs_grid st' = gs_grid st ++ map GI_entry es /\
      (List.length es <= count * Z.to_nat num)%nat /\
      (append_if_none = true -> List.length es = (count * Z.to_nat num)%nat).
Proof.
  induction count as [|count IH]; intros st.
  - exists [], st. cbn. rewrite app_nil_r. repeat split; lia.
  - cbn [grid_outer_loop]. unfold grid_row_step at 1. cbv zeta.
    cbn [String.eqb Ascii.eqb Bool.eqb andb].
    set (st0 := mkGridState (gs_start st) (gs_grid st) (gs_grid_row st) WG_grid).
    destruct (grid_inner_loop_counts (Py.range_len num) st0)
      as [es1 [st1 [Hloop [Hg [Hrow [Hwk [Hl He]]]]]]]; [discriminate|].
    rewrite Hloop. cbn [Py.bind].
    rewrite Hg. unfold wg_extend, st0. cbn.
    match goal with
    | |- context [grid_outer_loop _ count ?s] => destruct (IH s)
        as [es [st' [Hout [Hgrid [Hlen Hall]]]]]
    end.
    exists (es1 ++ es), st'. split; [exact Hout|].
    cbn in Hgrid. rewrite Hgrid, <- app_assoc, map_app, length_app.
    unfold Py.range_len in Hl, He.
    repeat split; [lia|].
    intros Hflag. rewrite (He Hflag), (Hall Hflag). lia.
Qed.

End Cells.

(** X10.  The shape of the list [trace_grid] hands to [np.array] when no
    cell's trace fails with anything but a trace error carrying its
    package: in the 'grid' form one row per grid line, each of at most
    [num] entries and of exactly [num] with [append_if_none]; in the 'list'
    form one flat list of at most [num * num] entries, exactly that many
    with [append_if_none]; the empty list for a non-positive [num].  What
    [trace_grid] returns or raises is what [np.array] makes of that list. *)
Theorem trace_grid_shape
    (opt_model : OpticalModel) (start stop : vec2) (num : Z) (fld : Field)
    (wvl foc : F)
    (img_filter : option (vec2 -> option ray_result -> option Obj))
    (append_if_none : bool) (kw : kwargs) :
  kw_output_filter kw = None -> kw_rayerr_filter kw = None ->
  kw_check_apertures kw = None ->
  (forall p, recoverable (call_trace_base opt_model p fld wvl
                                          (with_check_apertures kw))) ->
  (exists rows,
      trace_grid opt_model (start, stop, num) fld wvl foc img_filter "grid"
                 append_if_none kw = np_array (map GI_row rows) /\
      List.length rows = Z.to_nat num /\
      Forall (fun row =>
                (List.length row <= Z.to_nat num)%nat /\
                (append_if_none = true -> List.length row = Z.to_nat num))
             rows) /\
  (exists es,
      trace_grid opt_model (start, stop, num) fld wvl foc img_filter "list"
                 append_if_none kw = np_array (map GI_entry es) /\
      (List.length es <= Z.to_nat num * Z.to_nat num)%nat /\
      (append_if_none = true ->
       List.length es = (Z.to_nat num * Z.to_nat num)%nat)).
Proof.
  intros Ho Hr Hc Hrec. split.
  - unfold trace_grid. cbv zeta. rewrite Ho, Hr. cbn [Py.get].
    match goal with
    | |- context [grid_outer_loop (grid_row_step _ _ _ _ ?stp) ?c ?s] =>
        destruct (grid_outer_loop_rows opt_model fld wvl img_filter
                    append_if_none kw stp Ho Hr Hc Hrec num start c s)
          as [rows [st' [Hout [Hgrid [Hlen Hall]]]]]
    end.
    exists rows. rewrite Hout. cbn [Py.bind]. now rewrite Hgrid.
  - unfold trace_grid. cbv zeta. rewrite Ho, Hr. cbn [Py.get].
    match goal with
    | |- context [grid_outer_loop (grid_row_step _ _ _ _ ?stp) ?c ?s] =>
        destruct (grid_outer_loop_entries opt_model fld wvl img_filter
                    append_if_none kw stp Ho Hr Hc Hrec num start c s)
          as [es [st' [Hout [Hgrid [Hlen Hall]]]]]
    end.
    exists es. rewrite Hout. cbn [Py.bind]. now rewrite Hgrid.
Qed.

End GridShape.

(** ** The fan over the reals: where the samples lie *)

Section FanRange.

Context {Obj : Type} {X : @Collaborators R Obj}.

Local Open Scope R_scope.

(** Sample [i] lies [i] steps from the start. *)
Lemma fan_sample_real (start step : @vec2 R) (i : nat) :
  fan_sample start step i
    = V2 (v2x start + INR i * v2x step) (v2y start + INR i * v2y step).
Proof.
  induction i as [|i IH].
  - unfold fan_sample. cbn [Nat.iter INR]. destruct start as [x y]. cbn.
    f_equal; ring.
  - change (fan_sample start step (S i))
      with (v2add (fan_sample start step i) step).
    rewrite IH, S_INR. unfold v2add. cbn. f_equal; ring.
Qed.

(** X11.  Over the reals a fan of [num >= 2] samples that returns has
    traced its range: sample [i] is the trace of the pupil point
    [start + i (stop - start) / (num - 1)], the first of these points is
    the start point and the last one the stop point.  (What the item
    stores next to the trace is the array of that point as the trace left
    it.) *)
Theorem trace_fan_covers_range
    (opt_model : OpticalModel) (start stop : @vec2 R) (num : Z) (fld : Field)
    (wvl foc : R) (img_filter : option (vec2 -> RayPkg -> option Obj))
    (kw : kwargs) (fan : list fan_item) :
  (2 <= num)%Z ->
  trace_fan opt_model (start, stop, num) fld wvl foc img_filter kw = Ret fan ->
  let point (i : nat) :=
    V2 (v2x start + INR i * ((v2x stop - v2x start) / IZR (num - 1)))
       (v2y start + INR i * ((v2y stop - v2y start) / IZR (num - 1))) in
  List.length fan = Z.to_nat num /\
  (forall i item, nth_error fan i = Some item ->
     exists w pkg,
       call_trace_base opt_model (point i) fld w kw = Ret pkg /\
       item = fan_item_of img_filter
                (pupil_after_trace_base fld kw (point i)) pkg) /\
  point 0%nat = start /\ point (Z.to_nat num - 1)%nat = stop.
Proof.
  intros Hnum H point. unfold trace_fan in H.
  apply fan_loop_returns in H. destruct H as [items [-> [Hlen Hitems]]].
  cbn [app]. unfold Py.range_len in Hlen.
  split; [exact Hlen|]. split; [|split].
  - intros i item Hi. destruct (Hitems i item Hi) as [w [pkg [Htr ->]]].
    rewrite fan_sample_real in Htr. rewrite fan_sample_real.
    now exists w, pkg.
  - unfold point. destruct start as [x y]. cbn. f_equal; ring.
  - unfold point.
    assert (Hn : INR (Z.to_nat num - 1) = IZR (num - 1)).
    { rewrite INR_IZR_INZ. f_equal. lia. }
    rewrite Hn.
    assert (Hne : IZR (num - 1) <> 0) by (apply not_0_IZR; lia).
    destruct start as [x y], stop as [x' y']. cbn. f_equal; field; exact Hne.
Qed.

End FanRange.

(** ** Reading a stored result back, and the dict of the rim rays *)

Section Retrieve.

Context {F : Type} {FO : FloatOps F} {Obj : Type} {X : @Collaborators F Obj}.

(** X12.  What [retrieve_ray] recovers from a cell that [trace_safe]
    filled with no output filter: the traced package when the trace
    completed, whatever the error filter; after a trace error the package
    traced up to the failure under the 'full' filter, and nothing under
    'summary', under no filter or under any other one. *)
Theorem retrieve_ray_of_trace_safe
    (opt_model : OpticalModel) (pupil : vec2) (fld : Field) (wvl : F)
    (kw : kwargs) (px py : F) :
  (forall pkg rayerr_filter,
     call_trace_base opt_model pupil fld wvl kw = Ret pkg ->
     exists r,
       trace_safe opt_model pupil fld wvl None rayerr_filter kw = Ret r /\
       retrieve_ray px py r = Some (RR_pkg pkg)) /\
  (forall e pkg,
     call_trace_base opt_model pupil fld wvl kw = Raise (TraceErr e) ->
     te_ray_pkg e = Some pkg ->
     (exists r,
        trace_safe opt_model pupil fld wvl None (Some "full"%string) kw
          = Ret r /\
        retrieve_ray px py r = Some (RR_pkg pkg)) /\
     (forall rayerr_filter, rayerr_filter <> Some "full"%string ->
        exists r,
          trace_safe opt_model pupil fld wvl None rayerr_filter kw = Ret r /\
          retrieve_ray px py r = None)).
Proof.
  split.
  - intros pkg rf Htr. unfold trace_safe. rewrite Htr. cbv zeta.
    eexists. split; [reflexivity|]. cbn [retrieve_ray].
    destruct (Py.get (kw_use_named_tuples kw) false);
      [now rewrite named_pkg_same | reflexivity].
  - intros e pkg Htr Hpk. split.
    + unfold trace_safe. rewrite Htr. cbn [String.eqb Ascii.eqb Bool.eqb andb].
      rewrite Hpk. eexists. split; [reflexivity|]. cbn [retrieve_ray].
      rewrite named_pkg_same. now destruct e.
    + intros rf Hrf. unfold trace_safe. rewrite Htr.
      destruct rf as [s|]; [|eexists; split; reflexivity].
      destruct (String.eqb_spec s "full") as [->|Hs]; [now elim Hrf|].
      destruct (String.eqb s "summary").
      * eexists. split; [reflexivity|]. cbn [retrieve_ray]. now destruct e.
      * eexists. split; reflexivity.
Qed.

End Retrieve.

Section RimRayDict.

Context {F : Type}.

Lemma dict_get_set {V} (d : py_dict V) (k k' : string) (v : V) :
  dict_get (dict_set d k v) k'
    = if String.eqb k k' then Some v else dict_get d k'.
Proof.
  induction d as [|[k0 v0] d IH]; cbn.
  - reflexivity.
  - destruct (String.eqb_spec k0 k) as [->|Hk]; cbn.
    + now destruct (String.eqb k k').
    + rewrite IH. destruct (String.eqb_spec k0 k') as [->|Hk'].
      * destruct (String.eqb_spec k k') as [->|]; [now elim Hk | reflexivity].
      * reflexivity.
Qed.

Lemma find_app_first {A} (f : A -> bool) (l l' : list A) :
  find f (l ++ l') = match find f l with Some a => Some a | None => find f l' end.
Proof.
  induction l as [|a l IH]; cbn; [reflexivity|]. now destruct (f a).
Qed.

(** A lookup after the loop: the latest pair of the key, or else what the
    dict held before. *)
Lemma boundary_ray_dict_loop_get (k : string) :
  forall (rim_rays : list (@RayPkg F)) ray_labels d,
    dict_get (boundary_ray_dict_loop rim_rays ray_labels d) k
      = match find (fun p => String.eqb (fst p) k) (labelled ray_labels rim_rays)
        with
        | Some p => Some (snd p)
        | None => dict_get d k
        end.
Proof.
  unfold labelled.
  induction rim_rays as [|ray rays IH]; intros labels d.
  - destruct labels; reflexivity.
  - destruct labels as [|lbl labels]; [reflexivity|].
    cbn [boundary_ray_dict_loop combine rev]. rewrite IH, find_app_first.
    destruct (find _ (rev (combine labels rays))); [reflexivity|].
    cbn [find fst snd]. rewrite dict_get_set.
    now destruct (String.eqb lbl k).
Qed.

Lemma combine_label_in (labels : list string) :
  forall (rays : list (@RayPkg F)) p,
    In p (combine labels rays) ->
    In (fst p) (firstn (List.length rays) labels).
Proof.
  induction labels as [|lbl labels IH]; intros rays p Hin.
  - contradiction.
  - destruct rays as [|ray rays]; [contradiction|].
    cbn in Hin |- *. destruct Hin as [<-|Hin]; [now left|].
    right. now apply IH.
Qed.

Lemma combine_nth (labels : list string) :
  forall (rays : list (@RayPkg F)) i lbl ray,
    nth_error labels i = Some lbl -> nth_error rays i = Some ray ->
    In (lbl, ray) (combine labels rays).
Proof.
  induction labels as [|l labels IH]; intros rays i lbl ray Hl Hr.
  - destruct i; discriminate.
  - destruct rays as [|r rays]; [destruct i; discriminate|].
    destruct i as [|i]; cbn in Hl, Hr.
    + injection Hl as ->. injection Hr as ->. now left.
    + right. eapply IH; eassumption.
Qed.

Lemma combine_functional (labels : list string) :
  NoDup labels ->
  forall (rays : list (@RayPkg F)) lbl ray ray',
    In (lbl, ray) (combine labels rays) ->
    In (lbl, ray') (combine labels rays) -> ray = ray'.
Proof.
  induction 1 as [|l labels Hnot Hnd IH]; intros rays lbl ray ray' H1 H2.
  - contradiction.
  - destruct rays as [|r rays]; [contradiction|].
    cbn in H1, H2. destruct H1 as [E1|H1], H2 as [E2|H2].
    + congruence.
    + injection E1 as -> ->. apply in_combine_l in H2. contradiction.
    + injection E2 as -> ->. apply in_combine_l in H1. contradiction.
    + eapply IH; eassumption.
Qed.

Lemma find_only {A} (f : A -> bool) (l : list A) (a : A) :
  In a l -> f a = true ->
  (forall b, In b l -> f b = true -> b = a) ->
  find f l = Some a.
Proof.
  induction l as [|b l IH]; intros Hin Hfa Huniq; [contradiction|].
  cbn. destruct (f b) eqn:Efb.
  - f_equal. apply Huniq; [now left | exact Efb].
  - destruct Hin as [->|Hin]; [congruence|].
    apply IH; [exact Hin | exact Hfa |].
    intros c Hc. apply Huniq. now right.
Qed.

(** X13.  The dict [boundary_ray_dict] builds: a label maps to the ray
    paired with its latest occurrence among the labels that got a ray;
    with labels that are all different, label [i] maps to ray [i]; and a
    label beyond the number of rays, or no label at all, is not a key. *)
Theorem boundary_ray_dict_lookup
    (ray_labels : list string) (rim_rays : list (@RayPkg F)) :
  (forall k,
     dict_get (boundary_ray_dict ray_labels rim_rays) k
       = option_map snd (find (fun p => String.eqb (fst p) k)
                              (labelled ray_labels rim_rays))) /\
  (NoDup ray_labels ->
   forall i lbl ray,
     nth_error ray_labels i = Some lbl -> nth_error rim_rays i = Some ray ->
     dict_get (boundary_ray_dict ray_labels rim_rays) lbl = Some ray) /\
  (forall k, ~ In k (firstn (List.length rim_rays) ray_labels) ->
     dict_get (boundary_ray_dict ray_labels rim_rays) k = None).
Proof.
  assert (Hget : forall k,
     dict_get (boundary_ray_dict ray_labels rim_rays) k
       = option_map snd (find (fun p => String.eqb (fst p) k)
                              (labelled ray_labels rim_rays))).
  { intros k. unfold boundary_ray_dict. rewrite boundary_ray_dict_loop_get.
    now destruct (find _ _). }
  split; [exact Hget|]. split.
  - intros Hnd i lbl ray Hl Hr. rewrite Hget.
    pose proof (combine_nth ray_labels rim_rays i lbl ray Hl Hr) as Hin.
    erewrite find_only with (a := (lbl, ray)); [reflexivity | | |].
    + unfold labelled. now apply -> in_rev.
    + cbn. apply String.eqb_refl.
    + intros [l r] Hb Hfb. unfold labelled in Hb. apply in_rev in Hb.
      cbn in Hfb. apply String.eqb_eq in Hfb. subst l. f_equal.
      exact (combine_functional ray_labels Hnd rim_rays lbl r ray Hb Hin).
  - intros k Hnot. rewrite Hget.
    destruct (find _ _) as [p|] eqn:Ef; [|reflexivity].
    apply find_some in Ef. destruct Ef as [Hin Hk].
    unfold labelled in Hin. apply in_rev in Hin.
    apply combine_label_in in Hin. apply String.eqb_eq in Hk.
    subst k. contradiction.
Qed.

End RimRayDict.

(** ** The rim rays of every field, and the same rays without the handler *)

Section BoundaryRays.

Context {F : Type} {FO : FloatOps F} {Obj : Type} {X : @Collaborators F Obj}.

Lemma trace_boundary_rays_loop_total
    (opt_model : OpticalModel) (ray_labels : list string)
    (named : option bool) (wvl : F) :
  let kw := mkKwargs None named None None None None in
  forall fields,
    (forall fld p w, In fld fields ->
       recoverable (call_trace_base opt_model p fld w no_kwargs)) ->
    forall rayset assigned,
    exists rims,
      trace_boundary_rays_loop opt_model ray_labels kw wvl fields rayset assigned
        = (Ret (rayset ++ rims),
           assigned ++ map (boundary_ray_dict ray_labels) rims) /\
      List.length rims = List.length fields /\
      Forall (fun rim => List.length rim = List.length (pupil_rays opt_model))
             rims.
Proof.
  intros kw fields. induction fields as [|fld fields IH];
    intros Hrec rayset assigned.
  - exists []. cbn. rewrite !app_nil_r. repeat split. constructor.
  - cbn [trace_boundary_rays_loop].
    unfold call_trace_boundary_rays_at_field, kw. cbn [kw_apply_vignetting
      kw_check_apertures kw_output_filter kw_rayerr_filter kw_image_pt
      kw_use_named_tuples].
    unfold trace_boundary_rays_at_field.
    destruct (boundary_rays_loop_total opt_model fld (Py.get named false)
                (fun p w => Hrec fld p w (or_introl eq_refl))
                (pupil_rays opt_model) wvl [])
      as [rim [Hloop Hall]].
    rewrite Hloop. cbn [app].
    destruct (IH (fun f p w Hin => Hrec f p w (or_intror Hin))
                 (rayset ++ [rim])
                 (assigned ++ [boundary_ray_dict ray_labels rim]))
      as [rims [Hrest [Hlen Hlens]]].
    exists (rim :: rims). fold kw. rewrite Hrest. cbn [map List.length].
    rewrite <- !app_assoc. cbn [app]. repeat split; [now rewrite Hlen|].
    constructor; [|exact Hlens].
    symmetry. eapply Forall2_length. exact Hall.
Qed.

(** X14.  [trace_boundary_rays] with at most the [use_named_tuples]
    keyword, when every sample is traced or fails with a trace error that
    carries its package: it returns one list of rim rays per field, each
    with one package per pupil ray, and has stored in every field's
    [pupil_rays] the dict of that field's list.  With any other keyword
    the first field's call is a TypeError and nothing is stored. *)
Theorem trace_boundary_rays_stores
    (opt_model : OpticalModel) (fields : list Field)
    (ray_labels : list string) (named : option bool) :
  (forall fld p w, In fld fields ->
     recoverable (call_trace_base opt_model p fld w no_kwargs)) ->
  (exists rayset,
     trace_boundary_rays opt_model fields ray_labels
                         (mkKwargs None named None None None None)
       = (Ret rayset, map (boundary_ray_dict ray_labels) rayset) /\
     List.length rayset = List.length fields /\
     Forall (fun rim => List.length rim = List.length (pupil_rays opt_model))
            rayset) /\
  (forall kw,
     fields <> [] ->
     kw_apply_vignetting kw <> None \/ kw_check_apertures kw <> None \/
     kw_output_filter kw <> None \/ kw_rayerr_filter kw <> None \/
     kw_image_pt kw <> None ->
     trace_boundary_rays opt_model fields ray_labels kw = (Raise TypeError, [])).
Proof.
  intros Hrec. split.
  - unfold trace_boundary_rays. cbv zeta.
    destruct (trace_boundary_rays_loop_total opt_model ray_labels named
                (central_wavelength (seq_model opt_model)) fields Hrec [] [])
      as [rims [Hloop [Hlen Hlens]]].
    exists rims. now rewrite Hloop.
  - intros kw Hne Hkw. destruct fields as [|fld rest]; [now elim Hne|].
    unfold trace_boundary_rays. cbv zeta. cbn [trace_boundary_rays_loop].
    unfold call_trace_boundary_rays_at_field.
    destruct (kw_apply_vignetting kw); [reflexivity|].
    destruct (kw_check_apertures kw); [reflexivity|].
    destruct (kw_output_filter kw); [reflexivity|].
    destruct (kw_rayerr_filter kw); [reflexivity|].
    destruct (kw_image_pt kw); [reflexivity|].
    destruct Hkw as [H|[H|[H|[H|H]]]]; now elim H.
Qed.

Lemma ray_list_loop_returns (opt_model : OpticalModel) (fld : Field)
    (named : bool) :
  forall ray_list wvl rayset rays (rim_rays : list (@RayPkg F)),
    ray_list_loop opt_model fld ray_list wvl rayset = Ret rays ->
    exists rim,
      boundary_rays_loop opt_model fld named ray_list wvl rim_rays
        = Ret (rim_rays ++ rim) /\
      rays = rayset ++ map pkg_ray rim /\
      List.length rim = List.length ray_list.
Proof.
  induction ray_list as [|p rest IH]; intros wvl rayset rays rim_rays H.
  - cbn in H. injection H as <-. exists []. cbn. now rewrite !app_nil_r.
  - cbn [ray_list_loop] in H. cbn [boundary_rays_loop].
    destruct (call_trace_base opt_model p fld wvl no_kwargs) as [pkg|e];
      [|discriminate].
    cbn [Py.bind] in H |- *. rewrite repack_same.
    destruct (IH _ _ _ (rim_rays ++ [pkg]) H) as [rim [Hloop [-> Hlen]]].
    exists (pkg :: rim). rewrite Hloop, <- !app_assoc. cbn.
    repeat split. now rewrite Hlen.
Qed.

Lemma ray_list_loop_total (opt_model : OpticalModel) (fld : Field) :
  forall ray_list,
    (forall p w, In p ray_list ->
       Py.returns (call_trace_base opt_model p fld w no_kwargs)) ->
    forall wvl rayset,
      Py.returns (ray_list_loop opt_model fld ray_list wvl rayset).
Proof.
  induction ray_list as [|p rest IH]; intros Hall wvl rayset.
  - now exists rayset.
  - cbn [ray_list_loop].
    destruct (Hall p wvl (or_introl eq_refl)) as [pkg ->]. cbn [Py.bind].
    apply IH. intros q w Hq. apply Hall. now right.
Qed.

(** X15.  [trace_ray_list_at_field] (and with it [trace_field] and
    [trace_all_fields]) traces without a handler: the exception of the
    first ray's trace comes out as it is, trace errors included.  It
    returns when every trace does; then it holds one ray per pupil point,
    and on the pupil rays of the model these are the rays of the packages
    that [trace_boundary_rays_at_field] returns for the same field and
    wavelength. *)
Theorem trace_ray_list_at_field_unguarded
    (opt_model : OpticalModel) (fld : Field) (wvl foc : F) :
  (forall p rest e,
     call_trace_base opt_model p fld wvl no_kwargs = Raise e ->
     trace_ray_list_at_field opt_model (p :: rest) fld wvl foc = Raise e) /\
  (forall ray_list,
     (forall p w, In p ray_list ->
        Py.returns (call_trace_base opt_model p fld w no_kwargs)) ->
     Py.returns (trace_ray_list_at_field opt_model ray_list fld wvl foc)) /\
  (forall ray_list rays,
     trace_ray_list_at_field opt_model ray_list fld wvl foc = Ret rays ->
     List.length rays = List.length ray_list) /\
  (forall rays named,
     trace_ray_list_at_field opt_model (pupil_rays opt_model) fld wvl foc
       = Ret rays ->
     exists rim_rays,
       trace_boundary_rays_at_field opt_model fld wvl named = Ret rim_rays /\
       map pkg_ray rim_rays = rays).
Proof.
  split; [|split; [|split]].
  - intros p rest e Htr. unfold trace_ray_list_at_field.
    cbn [ray_list_loop]. now rewrite Htr.
  - intros ray_list Hall. unfold trace_ray_list_at_field.
    now apply ray_list_loop_total.
  - intros ray_list rays H. unfold trace_ray_list_at_field in H.
    destruct (ray_list_loop_returns opt_model fld false _ _ _ _ [] H)
      as [rim [_ [-> Hlen]]].
    cbn [app]. now rewrite length_map.
  - intros rays named H. unfold trace_ray_list_at_field in H.
    destruct (ray_list_loop_returns opt_model fld named _ _ _ _ [] H)
      as [rim [Hloop [-> _]]].
    exists rim. unfold trace_boundary_rays_at_field. now rewrite Hloop.
Qed.

End BoundaryRays.

(** ** Paraxial vignetting and refocus *)

Section Vignetting.

Context {F : Type} {FO : FloatOps F}.

Lemma vignette_field_returns (max_field : F) (is_relative : bool)
    (paraxial_vignetting : F -> @result F ((F * option Z) * (F * option Z)))
    (fld fld' : @Field F) :
  vignette_field max_field is_relative paraxial_vignetting fld = Ret fld' ->
  same_but_y_vignetting fld fld' /\
  ((forall rel_fov mins, paraxial_vignetting rel_fov = Ret mins ->
      snd (fst mins) = None /\ snd (snd mins) = None) ->
   fld' = fld).
Proof.
  unfold vignette_field.
  destruct (float_pow2 (fld_x fld)) as [x2|e]; [|discriminate].
  destruct (float_pow2 (fld_y fld)) as [y2|e]; [|discriminate].
  cbn [Py.bind].
  destruct (math_sqrt _) as [rel_fov|e]; [|discriminate].
  cbn [Py.bind]. cbv zeta.
  match goal with
  | |- context [paraxial_vignetting ?r] => set (rel := r)
  end.
  destruct (paraxial_vignetting rel) as [[[lo jlo] [hi jhi]]|e] eqn:Epv;
    [|discriminate].
  cbn [Py.bind fst snd]. intros H. injection H as <-. split.
  - unfold same_but_y_vignetting.
    destruct jlo, jhi; cbn; repeat split; reflexivity.
  - intros Hnone. destruct (Hnone rel _ Epv) as [Hlo Hhi].
    cbn in Hlo, Hhi. subst jlo jhi. reflexivity.
Qed.

(** A field is the same as itself but for its y vignetting. *)
Lemma same_but_y_vignetting_refl (fld : @Field F) :
  same_but_y_vignetting fld fld.
Proof. unfold same_but_y_vignetting. repeat split; reflexivity. Qed.

(** X16.  However [apply_paraxial_vignetting] ends, by returning or by an
    exception at some field, it has changed nothing of a field but its
    lower and upper y vignetting: position, x vignetting, aim point and
    the cached chief ray and reference sphere stay; and when the paraxial
    model names no limiting surface, the fields stay as they are.  (It
    does not always get through: squaring a large field coordinate is an
    OverflowError, and the paraxial model may raise.) *)
Theorem apply_paraxial_vignetting_frame
    (max_field : F) (is_relative : bool)
    (paraxial_vignetting : F -> @result F ((F * option Z) * (F * option Z)))
    (fields : list (@Field F)) :
  let fields' := snd (apply_paraxial_vignetting max_field is_relative
                        paraxial_vignetting fields) in
  Forall2 same_but_y_vignetting fields fields' /\
  ((forall rel_fov mins, paraxial_vignetting rel_fov = Ret mins ->
      snd (fst mins) = None /\ snd (snd mins) = None) ->
   fields' = fields).
Proof.
  cbv zeta. induction fields as [|fld rest IH].
  - cbn. split; [constructor | reflexivity].
  - cbn [apply_paraxial_vignetting].
    destruct (vignette_field _ _ _ fld) as [fld'|e] eqn:Efld.
    + destruct (apply_paraxial_vignetting _ _ _ rest) as [r rest'].
      cbn [snd] in *. destruct IH as [Hframe Hsame].
      destruct (vignette_field_returns _ _ _ _ _ Efld) as [Hf Hs].
      split; [now constructor|].
      intros Hnone. now rewrite (Hs Hnone), (Hsame Hnone).
    + cbn [snd]. split; [|reflexivity].
      clear. induction (fld :: rest) as [|f l IHl]; constructor;
        [apply same_but_y_vignetting_refl | exact IHl].
Qed.

End Vignetting.

Section Refocus.

Context {F : Type} {FO : FloatOps F} {Obj : Type} {X : @Collaborators F Obj}.

(** X17.  How [refocus] fails: without a field it is an IndexError; when
    the trace of the axial marginal ray raises a trace error, with or
    without package, a TypeError comes out in its place; and a ray of
    fewer than two segments is an IndexError. *)
Theorem refocus_failures
    (opt_model : OpticalModel) (fields : list Field) (central_wvl : F) :
  let kw := mkKwargs None (Some true) None None None None in
  (fields = [] -> refocus opt_model fields central_wvl = Raise IndexError) /\
  (forall fld rest,
     fields = fld :: rest ->
     (forall te,
        call_trace_base opt_model (V2 f0 f1) fld central_wvl kw
          = Raise (TraceErr te) ->
        refocus opt_model fields central_wvl = Raise TypeError) /\
     (forall pkg,
        call_trace_base opt_model (V2 f0 f1) fld central_wvl kw = Ret pkg ->
        (List.length (pkg_ray pkg) < 2)%nat ->
        refocus opt_model fields central_wvl = Raise IndexError)).
Proof.
  intros kw. split.
  - now intros ->.
  - intros fld rest ->. unfold refocus. cbn [Py.index Z.leb Z.to_nat nth_error].
    change (Py.index (fld :: rest) 0) with (Some fld). cbv iota.
    fold kw. unfold trace_safe. split.
    + intros te ->. cbn [String.eqb Ascii.eqb Bool.eqb andb].
      now destruct (te_ray_pkg te).
    + intros pkg -> Hlen. cbv zeta. cbn [Py.bind].
      unfold kw. cbn [kw_use_named_tuples Py.get].
      rewrite !named_pkg_same.
      destruct (Py.index (pkg_ray pkg) (-1)); [|reflexivity].
      apply index_before_last_none in Hlen. now rewrite Hlen.
Qed.

End Refocus.

(** ** Exact arithmetic: refocus, closest approach and astigmatism *)

Section RealFocus.

Context {Obj : Type} {X : @Collaborators R Obj}.

Local Open Scope R_scope.

(** X18.  Over the reals, when the axial marginal ray is traced and leaves
    the surface before the image neither parallel nor perpendicular to
    the axis, [refocus] returns the shift along the axis at which that
    ray, continued in a straight line with the slope it has before the
    image surface, comes to the height zero. *)
Theorem refocus_zeroes_marginal_ray
    (opt_model : OpticalModel) (fld : Field) (rest : list Field)
    (central_wvl : R) (pkg : RayPkg) (init : list RaySeg)
    (prev last : RaySeg) :
  call_trace_base opt_model (V2 0 1) fld central_wvl
                  (mkKwargs None (Some true) None None None None) = Ret pkg ->
  pkg_ray pkg = init ++ [prev; last] ->
  vy (seg_d prev) <> 0 -> vz (seg_d prev) <> 0 ->
  exists defocus,
    refocus opt_model (fld :: rest) central_wvl = Ret defocus /\
    vy (seg_p last) + defocus * (vy (seg_d prev) / vz (seg_d prev)) = 0.
Proof.
  intros Htr Hray Hy Hz. unfold refocus.
  change (Py.index (fld :: rest) 0) with (Some fld). cbv iota.
  unfold trace_safe. cbn [f0 f1 R_ops]. rewrite Htr. cbv zeta.
  cbn [kw_use_named_tuples Py.get Py.bind]. rewrite !named_pkg_same.
  rewrite Hray.
  replace (init ++ [prev; last]) with ((init ++ [prev]) ++ [last])
    by now rewrite <- app_assoc.
  rewrite index_last.
  replace ((init ++ [prev]) ++ [last]) with (init ++ [prev; last])
    by now rewrite <- app_assoc.
  rewrite index_before_last.
  eexists. split; [reflexivity|]. cbn [fneg fdiv R_ops].
  field. split; assumption.
Qed.

(** X19.  For two lines that are not parallel, meeting or not,
    [intersect_2_lines] gives the foot of their common perpendicular:
    with [s] its value and [t] its value with the two lines exchanged, the
    vector from [P1 + t V1] to [P2 + s V2] is perpendicular to both
    directions. *)
Theorem intersect_2_lines_closest_approach (P1 V1 P2 V2 : @vec3 R) :
  cross V1 V2 <> V3 0 0 0 ->
  let s := intersect_2_lines P1 V1 P2 V2 in
  let t := intersect_2_lines P2 V2 P1 V1 in
  let gap := vsub (vadd P2 (vscale s V2)) (vadd P1 (vscale t V1)) in
  dot gap V1 = 0 /\ dot gap V2 = 0.
Proof.
  intros Hx s t gap.
  assert (Hd : dot (cross V1 V2) (cross V1 V2) <> 0)
    by (intros H0; apply Hx; now apply dot_self_zero).
  assert (Hd' : dot (cross V2 V1) (cross V2 V1) <> 0).
  { intros H0. apply Hd. rewrite <- H0.
    destruct V1, V2; unfold dot, cross; cbn. ring. }
  subst gap s t. unfold intersect_2_lines. cbv zeta.
  destruct P1 as [p1x p1y p1z], V1 as [v1x v1y v1z],
           P2 as [p2x p2y p2z], V2 as [v2x v2y v2z].
  unfold dot, cross, vsub, vadd, vscale in *. cbn in *.
  split; field; exact Hd'.
Qed.

(** The value of [intersect_2_lines] on a line and its mirror image in the
    y-z plane. *)
Lemma intersect_2_lines_mirror (P V : @vec3 R) :
  vx V <> 0 -> (vy V <> 0 \/ vz V <> 0) ->
  intersect_2_lines P V (mirror_x P) (mirror_x V) = - vx P / vx V.
Proof.
  intros Hvx Hyz. unfold intersect_2_lines, mirror_x. cbv zeta.
  destruct P as [px py pz], V as [a b c].
  unfold dot, cross, vsub. cbn in *.
  assert (Hbc : b * b + c * c <> 0).
  { pose proof (Rle_0_sqr b) as Hb. pose proof (Rle_0_sqr c) as Hc.
    unfold Rsqr in *. intros H0.
    assert (Eb : b * b = 0) by lra. assert (Ec : c * c = 0) by lra.
    apply Rmult_integral in Eb, Ec. destruct Hyz as [H|H]; apply H; tauto. }
  field. split; [exact Hvx|].
  match goal with
  | |- ?e <> 0 => replace e with (4 * (a * a) * (b * b + c * c)) by ring
  end.
  repeat apply Rmult_integral_contrapositive_currified; try lra; assumption.
Qed.

(** X20.  [trace_astigmatism] on a plane of symmetry: when the two rays
    at [+dx] and [-dx] end as mirror images of each other in the y-z
    plane, the sagittal focus returned is the distance along z, from the
    end point of the [+dx] ray, at which that ray crosses the y-z plane,
    less the focus shift. *)
Theorem trace_astigmatism_sagittal_focus
    (opt_model : OpticalModel) (fld : Field) (wvl : R) (foc : option R)
    (dx dy : R) (r0 r1 r2 r3 r4 : RayPkg) (seg1 seg2 seg3 seg4 : RaySeg) :
  call_trace_base opt_model (V2 0 0) fld wvl no_kwargs = Ret r0 ->
  call_trace_base opt_model (V2 dx 0) fld wvl no_kwargs = Ret r1 ->
  call_trace_base opt_model (V2 0 dy) fld wvl no_kwargs = Ret r2 ->
  call_trace_base opt_model (V2 (- dx) 0) fld wvl no_kwargs = Ret r3 ->
  call_trace_base opt_model (V2 0 (- dy)) fld wvl no_kwargs = Ret r4 ->
  last_seg r1 = Ret seg1 -> last_seg r2 = Ret seg2 ->
  last_seg r3 = Ret seg3 -> last_seg r4 = Ret seg4 ->
  seg_p seg3 = mirror_x (seg_p seg1) -> seg_d seg3 = mirror_x (seg_d seg1) ->
  vx (seg_d seg1) <> 0 -> (vy (seg_d seg1) <> 0 \/ vz (seg_d seg1) <> 0) ->
  exists t_foc,
    trace_astigmatism opt_model fld wvl foc dx dy
      = Ret (- vx (seg_p seg1) / vx (seg_d seg1) * vz (seg_d seg1)
             - match foc with Some focus_shift => focus_shift | None => 0 end,
             t_foc) /\
    vx (seg_p seg1)
      + (- vx (seg_p seg1) / vx (seg_d seg1)) * vx (seg_d seg1) = 0.
Proof.
  intros H0 H1 H2 H3 H4 L1 L2 L3 L4 Hp Hd Hvx Hyz.
  unfold trace_astigmatism. cbn [f0 fneg R_ops].
  rewrite H0, H1, H2, H3, H4. cbn [Py.bind].
  rewrite L1, L2, L3, L4. cbn [Py.bind]. cbv zeta.
  rewrite Hp, Hd, (intersect_2_lines_mirror _ _ Hvx Hyz).
  cbn [fmul fsub R_ops].
  destruct foc as [focus_shift|].
  - eexists. split; [reflexivity|]. field; exact Hvx.
  - eexists. split; [f_equal; f_equal; ring|]. field; exact Hvx.
Qed.

End RealFocus.

(** ** The Coddington fan: what it needs, and the axis *)

Section CoddingtonFan.

Context {F : Type} {FO : FloatOps F} {Obj : Type} {X : @Collaborators F Obj}.

Lemma rndx_at_length (wl : Z) :
  forall (rows : list (list F)) rindices,
    rndx_at rows wl = Ret rindices ->
    List.length rindices = List.length rows.
Proof.
  induction rows as [|n rows IH]; intros rindices H.
  - cbn in H. now injection H as <-.
  - cbn [rndx_at] in H. destruct (Py.index n wl); [|discriminate].
    destruct (rndx_at rows wl) as [vs|e]; [|discriminate].
    cbn in H. injection H as <-. cbn. f_equal. now apply IH.
Qed.

(** What a step that returns has read and bound. *)
Lemma coddington_step_returns (st st1 : @coddington_state F)
    (r : option RaySeg) (ifc : option Interface) (n : option F)
    (tfrm : option Tfrm) (zd : option F) :
  coddington_step st (r, ifc, n, tfrm, zd) = Ret st1 ->
  r <> None /\ before_dir st1 <> None /\
  (before_dir st = None -> s_prime st1 = s_prime st) /\
  (before_dir st <> None -> ifc <> None).
Proof.
  unfold coddington_step. destruct r as [seg|]; [|discriminate].
  destruct (before_dir st) as [b|].
  - cbv zeta. destruct (math_sqrt _) as [sinI'|e]; [|discriminate].
    cbn [Py.bind]. destruct (math_sqrt _) as [cosI|e]; [|discriminate].
    cbn [Py.bind]. destruct ifc as [i|]; [|discriminate].
    destruct (s_before st); [|discriminate].
    destruct (t_before st); [|discriminate].
    intros H. injection H as <-. cbn. repeat split; discriminate.
  - intros H. injection H as <-. cbn.
    repeat split; try discriminate. intros Hb. now elim Hb.
Qed.

(** The loop consumes one ray segment per item. *)
Lemma coddington_loop_needs_segments :
  forall fuel (la : list RaySeg) (lb : list Interface) (lc : list F)
         (ld : list Tfrm) (le : list F) (st st' : @coddington_state F),
    coddington_loop (Py.zip_longest5 la lb lc ld le fuel) st = Ret st' ->
    (fuel <= List.length la)%nat.
Proof.
  induction fuel as [|fuel IH]; intros la lb lc ld le st st' H; [lia|].
  cbn [Py.zip_longest5 coddington_loop] in H.
  destruct (coddington_step st _) as [st1|e] eqn:Estep; [|discriminate].
  cbn [Py.bind] in H. apply coddington_step_returns in Estep.
  destruct Estep as [Hr _]. destruct la as [|a la]; [now elim Hr|].
  apply IH in H. cbn in *. lia.
Qed.

(** After the first item, it reads one interface per item. *)
Lemma coddington_loop_needs_interfaces :
  forall fuel (la : list RaySeg) (lb : list Interface) (lc : list F)
         (ld : list Tfrm) (le : list F) (st st' : @coddington_state F),
    before_dir st <> None ->
    coddington_loop (Py.zip_longest5 la lb lc ld le fuel) st = Ret st' ->
    (fuel <= List.length lb)%nat.
Proof.
  induction fuel as [|fuel IH]; intros la lb lc ld le st st' Hb H; [lia|].
  cbn [Py.zip_longest5 coddington_loop] in H.
  destruct (coddington_step st _) as [st1|e] eqn:Estep; [|discriminate].
  cbn [Py.bind] in H. apply coddington_step_returns in Estep.
  destruct Estep as [_ [Hb1 [_ Hifc]]]. specialize (Hifc Hb).
  destruct lb as [|b lb]; [now elim Hifc|].
  apply (IH _ _ _ _ _ _ _ Hb1) in H. cbn in *. lia.
Qed.

(** X21.  [trace_coddington_fan] returns only for a ray that fits the
    model: at least two segments, as many interfaces as segments, at
    least one row of refractive indices and no more rows, transforms or
    z directions than segments.  On anything else it raises. *)
Theorem trace_coddington_fan_needs_fit
    (opt_model : OpticalModel) (ray_pkg : RayPkg) (foc : option F)
    (v : F * F) :
  trace_coddington_fan opt_model ray_pkg foc = Ret v ->
  fits (seq_model opt_model) (pkg_ray ray_pkg).
Proof.
  unfold trace_coddington_fan. cbv zeta.
  destruct (rndx_at _ _) as [rindices|e] eqn:Erndx; [|discriminate].
  cbn [Py.bind]. apply rndx_at_length in Erndx.
  destruct rindices as [|rind0 rest]; [discriminate|].
  unfold Py.zip_longest.
  set (fuel := Nat.max _ _).
  destruct (coddington_loop _ _) as [st|e] eqn:Eloop; [|discriminate].
  cbn [Py.bind]. intros Hret.
  pose proof (coddington_loop_needs_segments _ _ _ _ _ _ _ _ Eloop) as Hseg.
  assert (Hfuel : (2 <= fuel)%nat).
  { destruct fuel as [|[|fuel']] eqn:Ef; [| |lia].
    - cbn in Eloop. injection Eloop as <-. discriminate.
    - cbn [Py.zip_longest5 coddington_loop] in Eloop.
      destruct (coddington_step _ _) as [st1|e] eqn:Estep; [|discriminate].
      cbn [Py.bind] in Eloop. injection Eloop as <-.
      apply coddington_step_returns in Estep.
      destruct Estep as [_ [_ [Hsp _]]].
      rewrite (Hsp eq_refl) in Hret. discriminate. }
  assert (Hifc : (fuel <= List.length (ifcs (seq_model opt_model)))%nat).
  { destruct fuel as [|fuel'] eqn:Ef; [lia|].
    cbn [Py.zip_longest5 coddington_loop] in Eloop.
    destruct (coddington_step _ _) as [st1|e] eqn:Estep; [|discriminate].
    cbn [Py.bind] in Eloop. apply coddington_step_returns in Estep.
    destruct Estep as [_ [Hb1 _]].
    apply (coddington_loop_needs_interfaces _ _ _ _ _ _ _ _ Hb1) in Eloop.
    destruct (ifcs (seq_model opt_model)); cbn in *; lia. }
  unfold fits. subst fuel. cbn [List.length] in *. lia.
Qed.

End CoddingtonFan.

Section CoddingtonAxis.

Context {Obj : Type} {X : @Collaborators R Obj}.

Local Open Scope R_scope.

(** A step at normal incidence keeps the two vergences equal. *)
Lemma coddington_step_normal (st : @coddington_state R) (seg : RaySeg)
    (ifc : Interface) (n : option R) (tfrm : option Tfrm) (zd : option R) :
  balanced st -> cos_after seg * cos_after seg = 1 ->
  exists st1,
    coddington_step st (Some seg, Some ifc, n, tfrm, zd) = Ret st1 /\
    balanced st1 /\ focused st1.
Proof.
  intros [Hb [s [Hs Ht]]] Hcos. unfold coddington_step.
  destruct (before_dir st) as [b|]; [|now elim Hb].
  cbv zeta. fold (cos_after seg).
  cbn [f1 fsub fmul fdiv fadd R_ops].
  revert Hcos. generalize (cos_after seg). intros c Hcos.
  replace (1 - c * c) with 0 by lra.
  rewrite (math_sqrt_nonneg 0) by lra. cbn [Py.bind]. rewrite sqrt_0.
  match goal with
  | |- context [math_sqrt ?e] => replace e with 1 by (unfold Rdiv; ring)
  end.
  rewrite (math_sqrt_nonneg 1) by lra. cbn [Py.bind]. rewrite sqrt_1.
  rewrite Hs, Ht, Hcos.
  replace (before_rind st * (1 * 1) / s) with (before_rind st / s)
    by (unfold Rdiv; ring).
  rewrite Rmult_1_r.
  eexists. split; [reflexivity|].
  unfold balanced, focused.
  cbn [before_dir s_before t_before s_prime t_prime after_dir pt]. split.
  - split; [discriminate|]. eexists. split; reflexivity.
  - do 3 eexists. repeat split.
Qed.

Lemma coddington_loop_normal :
  forall (la : list RaySeg) (lb : list Interface) (lc : list R)
         (ld : list Tfrm) (le : list R) (st : @coddington_state R),
    (List.length la <= List.length lb)%nat ->
    Forall (fun seg => cos_after seg * cos_after seg = 1) la ->
    balanced st -> focused st ->
    exists st',
      coddington_loop (Py.zip_longest5 la lb lc ld le (List.length la)) st
        = Ret st' /\
      focused st'.
Proof.
  induction la as [|seg la IH]; intros lb lc ld le st Hlen Hall Hbal Hfoc.
  - exists st. now split.
  - destruct lb as [|ifc lb]; [cbn in Hlen; lia|].
    inversion Hall as [|? ? Hseg Hrest]; subst.
    cbn [List.length Py.zip_longest5 coddington_loop hd_error tl].
    destruct (coddington_step_normal st seg ifc (hd_error lc) (hd_error ld)
                (hd_error le) Hbal Hseg) as [st1 [-> [Hbal1 Hfoc1]]].
    cbn [Py.bind]. apply IH; [cbn in Hlen; lia | assumption..].
Qed.

(** X22.  No astigmatism on the axis: over the reals, when the chief ray is
    traced, fits the model, finds a refractive index in every row, meets
    every interface after the first along the normal, and no division of
    the loop has a zero divisor, the Coddington fan returns, and the
    sagittal and the tangential focus it returns are the same, for any
    focus shift. *)
Theorem trace_astigmatism_coddington_fan_on_axis
    (opt_model : OpticalModel) (fld : Field) (wvl : R) (foc : option R)
    (cr : RayPkg) (rindices : list R) :
  call_trace_base opt_model (V2 0 0) fld wvl no_kwargs = Ret cr ->
  fits (seq_model opt_model) (pkg_ray cr) ->
  rndx_at (rndx (seq_model opt_model))
          (index_for_wavelength (seq_model opt_model) (pkg_wvl cr))
    = Ret rindices ->
  Forall (fun seg => cos_after seg * cos_after seg = 1) (tl (pkg_ray cr)) ->
  Forall (fun d => d <> 0)
         (fan_divisors (seq_model opt_model) (pkg_ray cr) rindices) ->
  exists s,
    trace_astigmatism_coddington_fan opt_model fld wvl foc = Ret (s, s).
Proof.
  intros Htr [Hray [Hifc [Hrndx [Htf Hzd]]]] Hrows Hall _.
  unfold trace_astigmatism_coddington_fan. cbn [f0 R_ops].
  rewrite Htr. cbn [Py.bind]. unfold trace_coddington_fan. cbv zeta.
  rewrite Hrows. cbn [Py.bind].
  pose proof (rndx_at_length _ _ _ Hrows) as Hlen.
  destruct rindices as [|rind0 rest]; [cbn in Hlen; lia|].
  unfold Py.zip_longest.
  replace (Nat.max _ _) with (List.length (pkg_ray cr)) by lia.
  destruct (pkg_ray cr) as [|seg0 [|seg1 ray]]; [cbn in Hray; lia..|].
  destruct (ifcs (seq_model opt_model)) as [|ifc0 [|ifc1 ifcs']];
    [cbn in Hifc; lia..|].
  cbn [tl] in Hall. inversion Hall as [|? ? Hseg1 Hrest]; subst.
  cbn [List.length Py.zip_longest5 coddington_loop hd_error tl].
  unfold coddington_step at 1. cbn [before_dir]. cbv zeta. cbn [Py.bind].
  match goal with
  | |- context [coddington_step ?st0 (Some seg1, Some ifc1, ?n, ?t, ?z)] =>
      destruct (coddington_step_normal st0 seg1 ifc1 n t z)
        as [st1 [-> [Hbal1 Hfoc1]]]
  end.
  { split; [discriminate|]. now eexists. }
  { exact Hseg1. }
  cbn [Py.bind].
  match goal with
  | |- context [coddington_loop (Py.zip_longest5 ray ?lb ?lc ?ld ?le _) st1] =>
      destruct (coddington_loop_normal ray lb lc ld le st1)
        as [st' [-> [sp [d [p [Hs [Ht [Hd Hp]]]]]]]]
  end; [cbn in Hifc |- *; lia | assumption..|].
  cbn [Py.bind]. rewrite Hs, Ht, Hd, Hp.
  destruct foc; eexists; reflexivity.
Qed.

End CoddingtonAxis.

(** ** The astigmatism curve and the chief ray it leaves on the field *)

Section AstigmatismCurve.

Context {F : Type} {FO : FloatOps F} {Obj : Type} {X : @Collaborators F Obj}.

(** One turn of the loop, with the state written out. *)
Lemma astigmatism_curve_loop_step (opt_model : OpticalModel)
    (wvl foc dx dy f : F) (rest field_data s_data t_data : list F)
    (fld : Field) :
  let fld1 := set_fld_y fld f in
  astigmatism_curve_loop opt_model wvl foc dx dy (f :: rest)
                         (field_data, s_data, t_data) fld
    = match fst (setup_pupil_coords opt_model wvl foc None fld1) with
      | Ret (rs, crp) =>
          let fld2 := set_ref_sphere (set_chief_ray fld1 (Some crp)) (Some rs) in
          match trace_astigmatism opt_model fld2 wvl (Some foc) dx dy with
          | Ret st =>
              astigmatism_curve_loop opt_model wvl foc dx dy rest
                (field_data ++ [f], s_data ++ [fst st], t_data ++ [snd st]) fld2
          | Raise e => (Raise e, fld2)
          end
      | Raise e => (Raise e, fld1)
      end.
Proof.
  intros fld1. cbn [astigmatism_curve_loop].
  unfold m_bind at 1. unfold m_assign at 1. fold fld1.
  unfold m_bind at 1.
  pose proof (setup_pupil_coords_read_only opt_model wvl foc None fld1) as Hro.
  destruct (setup_pupil_coords opt_model wvl foc None fld1) as [r fld1'].
  cbn [fst snd] in *. subst fld1'.
  destruct r as [[rs crp]|e]; [|reflexivity].
  unfold m_bind, m_assign, m_get, m_lift. cbv zeta.
  now destruct (trace_astigmatism _ _ _ _ _ _).
Qed.

(** With the chief ray of the wavelength on the field, the pupil setup
    takes it from there. *)
Lemma setup_pupil_coords_cached (opt_model : OpticalModel) (wvl foc : F)
    (fld : Field) (crp : chief_ray_pkg) :
  chief_ray fld = Some crp -> feqb (pkg_wvl (fst crp)) wvl = true ->
  forall rs crp',
    fst (setup_pupil_coords opt_model wvl foc None fld) = Ret (rs, crp') ->
    crp' = crp.
Proof.
  intros Hc Hw rs crp'.
  unfold setup_pupil_coords, get_chief_ray_pkg, m_bind, m_get, m_lift, m_ret.
  rewrite Hc, Hw. cbn.
  destruct (calculate_reference_sphere _ _ _ _ _ _); [|discriminate].
  intros H. now injection H.
Qed.

(** With no chief ray on the field, the pupil setup traces one. *)
Lemma setup_pupil_coords_fresh (opt_model : OpticalModel) (wvl foc : F)
    (fld : Field) :
  chief_ray fld = None ->
  forall rs crp,
    fst (setup_pupil_coords opt_model wvl foc None fld) = Ret (rs, crp) ->
    trace_chief_ray opt_model fld wvl foc = Ret crp.
Proof.
  intros Hc rs crp.
  unfold setup_pupil_coords, get_chief_ray_pkg, m_bind, m_get, m_lift, m_ret.
  rewrite Hc. cbn.
  destruct (aim_chief_ray _ _ _); [|discriminate].
  destruct (trace_chief_ray opt_model fld wvl foc) as [c|]; [|discriminate].
  destruct (calculate_reference_sphere _ _ _ _ _ _); [|discriminate].
  intros H. now injection H as _ <-.
Qed.

Lemma last_cons_default {A} (l : list A) (a d : A) :
  last (a :: l) d = last l a.
Proof.
  revert a d. induction l as [|b l IH]; intros a d; [reflexivity|].
  change (last (a :: b :: l) d) with (last (b :: l) d).
  now rewrite (IH b d), (IH b a).
Qed.

(** What a loop that returns leaves: the field at the last height, one
    datum per height, and the chief ray it started with if that one
    carries the wavelength. *)
Lemma astigmatism_curve_loop_returns (opt_model : OpticalModel)
    (wvl foc dx dy : F) :
  forall heights field_data s_data t_data fld data' fld',
    astigmatism_curve_loop opt_model wvl foc dx dy heights
                           (field_data, s_data, t_data) fld
      = (Ret data', fld') ->
    fld_y fld' = last heights (fld_y fld) /\
    fst (fst data') = field_data ++ heights /\
    List.length (snd (fst data')) = (List.length s_data + List.length heights)%nat /\
    List.length (snd data') = (List.length t_data + List.length heights)%nat /\
    (forall crp, chief_ray fld = Some crp ->
                 feqb (pkg_wvl (fst crp)) wvl = true ->
                 chief_ray fld' = Some crp).
Proof.
  induction heights as [|f rest IH];
    intros field_data s_data t_data fld data' fld' H.
  - cbn in H. injection H as <- <-. cbn. rewrite app_nil_r.
    repeat split; try lia. auto.
  - rewrite astigmatism_curve_loop_step in H. cbv zeta in H.
    destruct (fst (setup_pupil_coords opt_model wvl foc None (set_fld_y fld f)))
      as [[rs crp']|e] eqn:Esetup; [|discriminate].
    destruct (trace_astigmatism _ _ _ _ _ _) as [st|e]; [|discriminate].
    apply IH in H. destruct H as [Hy [Hfd [Hs [Ht Hc]]]].
    rewrite !length_app in *. cbn [List.length] in *.
    split; [|split; [|split; [|split]]].
    + rewrite Hy. cbn [fld_y set_ref_sphere set_chief_ray set_fld_y].
      symmetry. apply last_cons_default.
    + now rewrite Hfd, <- app_assoc.
    + lia.
    + lia.
    + intros crp Hcr Hw. apply Hc; [|exact Hw].
      cbn [chief_ray set_ref_sphere set_chief_ray]. f_equal.
      exact (setup_pupil_coords_cached opt_model wvl foc (set_fld_y fld f) crp
               Hcr Hw rs crp' Esetup).
Qed.

(** X23.  [trace_astigmatism_curve] works on one [Field] object and
    stores the chief ray on it at every height.  When it returns, the
    field is left at the last height with the three lists holding one
    entry per height; but the chief ray left on it is the one traced at
    the first height, as long as that package carries the wavelength asked
    for: from the second height on the stored chief ray is found and
    handed back as it is. *)
Theorem trace_astigmatism_curve_keeps_first_chief_ray
    (opt_model : OpticalModel) (wvl foc dx dy f : F) (rest : list F)
    (fld0 fld' : Field) (data : list F * list F * list F) :
  chief_ray fld0 = None ->
  trace_astigmatism_curve opt_model wvl foc (f :: rest) dx dy fld0
    = (Ret data, fld') ->
  fld_y fld' = last rest f /\
  fst (fst data) = f :: rest /\
  List.length (snd (fst data)) = S (List.length rest) /\
  List.length (snd data) = S (List.length rest) /\
  exists crp,
    trace_chief_ray opt_model (set_fld_y fld0 f) wvl foc = Ret crp /\
    (feqb (pkg_wvl (fst crp)) wvl = true -> chief_ray fld' = Some crp).
Proof.
  intros Hnone H. unfold trace_astigmatism_curve in H.
  rewrite astigmatism_curve_loop_step in H. cbv zeta in H.
  destruct (fst (setup_pupil_coords opt_model wvl foc None (set_fld_y fld0 f)))
    as [[rs crp]|e] eqn:Esetup; [|discriminate].
  destruct (trace_astigmatism _ _ _ _ _ _) as [st|e]; [|discriminate].
  apply astigmatism_curve_loop_returns in H.
  destruct H as [Hy [Hfd [Hs [Ht Hc]]]]. cbn [app List.length] in *.
  split; [|split; [|split; [|split]]]; try assumption.
  exists crp. split.
  - now apply (setup_pupil_coords_fresh opt_model wvl foc (set_fld_y fld0 f)
                 Hnone rs crp).
  - intros Hw. now apply Hc.
Qed.

End AstigmatismCurve.

(** ** Runs of the further properties in binary64 *)

Section FurtherRuns.

Local Open Scope float_scope.

(** X1, witness: under the 'full' filter a trace error without package
    leaves the safe trace as a TypeError. *)
Lemma trace_safe_escapes_witness :
  exists te,
    call_trace_base (X := Demo.raising (TraceError None)) Demo.model (V2 0 0)
                    Demo.field0 550 no_kwargs = Raise (TraceErr te) /\
    te_ray_pkg te = None.
Proof.
  assert (H : trace_safe (X := Demo.raising (TraceError None)) Demo.model
                (V2 0 0) Demo.field0 550 None (Some "full"%string) no_kwargs
              = Raise TypeError) by (vm_compute; reflexivity).
  pose proof (trace_safe_escapes (X := Demo.raising (TraceError None))
                Demo.model (V2 0 0) Demo.field0 550 None (Some "full"%string)
                no_kwargs TypeError (fun f => ltac:(discriminate)) H)
    as Hcases.
  cbv zeta in Hcases.
  destruct Hcases as [[Htr _]|[[_ [_ Hte]]|[[Hix _]|[_ [pkg [s [Htr _]]]]]]].
  - vm_compute in Htr. discriminate Htr.
  - exact Hte.
  - discriminate Hix.
  - vm_compute in Htr. discriminate Htr.
Defined.

(** X3, witness: the root finder gives up on the axial field. *)
Lemma iterate_ray_runtime_error_witness :
  iterate_ray (X := Demo.stalled RuntimeError) Demo.model (Some 1%Z) (V2 0 0)
              Demo.field0 550
    = Raise UnboundLocalError.
Proof.
  destruct (iterate_ray_runtime_error (X := Demo.stalled RuntimeError)
              Demo.model 1%Z (V2 0 0) Demo.field0 550 RuntimeError)
    as [Hrt _].
  - vm_compute; reflexivity.
  - reflexivity.
  - now apply Hrt.
Defined.

(** X5, witness: after a full trace of the demo system the chief ray is
    found on the field, also by a system whose every trace fails. *)
Lemma trace_with_opd_then_get_chief_ray_pkg_witness :
  let fld' := snd (trace_with_opd (X := Demo.upper) Demo.model (V2 0 1) 550 0
                                  no_kwargs Demo.field0) in
  exists crp,
    get_chief_ray_pkg (X := Demo.raising (TraceError None)) Demo.model 550 1 fld'
      = (Ret crp, fld').
Proof.
  intros fld'.
  edestruct (trace_with_opd_then_get_chief_ray_pkg Demo.upper
               (Demo.raising (TraceError None)) Demo.model (V2 0 1) 550 0 1
               no_kwargs Demo.field0)
    as [crp [Hcr [_ Hget]]].
  - vm_compute; reflexivity.
  - exists crp. apply Hget.
    vm_compute in Hcr. injection Hcr as <-. vm_compute; reflexivity.
Defined.

(** X6, witness: a chief ray of one segment. *)
Lemma trace_chief_ray_needs_two_witness :
  trace_chief_ray (X := Demo.collaborators (Demo.trace_const [Demo.seg 0]))
                  Demo.model Demo.field0 550 0
    = Raise IndexError.
Proof.
  destruct (trace_chief_ray_needs_two
              (X := Demo.collaborators (Demo.trace_const [Demo.seg 0]))
              Demo.model Demo.field0 550 0 (mkRayPkg [Demo.seg 0] 0 550))
    as [Hshort _].
  - vm_compute; reflexivity.
  - apply Hshort. right. cbn. lia.
Defined.

(** X7, witness: a fan over the upper half of the pupil, on a field that
    vignettes half of it.  The samples traced are 0, 1/2 and 1; the pupil
    points the items hold are 0, 1/4 and 1/2. *)
Lemma trace_fan_all_or_nothing_witness :
  exists fan,
    trace_fan (X := Demo.vignetting) Demo.model (V2 0 0, V2 0 1, 3%Z)
              Demo.half_vignetted 550 0 None no_kwargs = Ret fan /\
    List.length fan = 3%nat /\
    map fan_pupil fan = [V2 0 0; V2 0 0x1p-2; V2 0 0x1p-1] /\
    map (fan_sample (V2 0 0) (V2 0 0x1p-1)) [0; 1; 2]%nat
      = [V2 0 0; V2 0 0x1p-1; V2 0 1].
Proof.
  destruct (trace_fan (X := Demo.vignetting) Demo.model (V2 0 0, V2 0 1, 3%Z)
                      Demo.half_vignetted 550 0 None no_kwargs)
    as [fan|e] eqn:E.
  - exists fan. split; [reflexivity|].
    pose proof (trace_fan_all_or_nothing (X := Demo.vignetting) Demo.model
                  (V2 0 0) (V2 0 1) 3%Z Demo.half_vignetted 550 0 None
                  no_kwargs fan E) as H.
    cbv zeta in H. split; [exact (proj1 H)|]. clear H.
    vm_compute in E. injection E as <-.
    split; vm_compute; reflexivity.
  - vm_compute in E. discriminate E.
Defined.

(** X8, witness: [check_apertures] given by the caller. *)
Lemma trace_grid_duplicate_keyword_witness :
  trace_grid (X := Demo.upper) Demo.model (V2 (-1) (-1), V2 1 1, 3%Z)
             Demo.field0 550 0 None "grid" true
             (mkKwargs None None (Some false) None None None)
    = Raise TypeError.
Proof.
  apply (trace_grid_duplicate_keyword (X := Demo.upper)).
  - reflexivity.
  - right. right. discriminate.
Defined.

(** X9, witness: a form that is neither 'list' nor 'grid'. *)
Lemma trace_grid_unknown_form_witness :
  trace_grid (X := Demo.upper) Demo.model (V2 (-1) (-1), V2 1 1, 3%Z)
             Demo.field0 550 0 None "array" true no_kwargs
    = Raise UnboundLocalError.
Proof.
  apply (trace_grid_unknown_form (X := Demo.upper));
    solve [reflexivity | discriminate | apply upper_recoverable].
Defined.

(** X10, witness: the 3 x 3 grid of the demo system, whose lower cells
    fail.  The list has three rows; with no image filter its cells hold
    ray packages next to the two pupil coordinates, which numpy 1.24
    refuses. *)
Lemma trace_grid_shape_witness :
  (exists rows,
     trace_grid (X := Demo.upper) Demo.model (V2 (-1) (-1), V2 1 1, 3%Z)
                Demo.field0 550 0 None "grid" true no_kwargs
       = np_array (Collaborators := Demo.upper) (map GI_row rows) /\
     List.length rows = 3%nat) /\
  trace_grid (X := Demo.upper) Demo.model (V2 (-1) (-1), V2 1 1, 3%Z)
             Demo.field0 550 0 None "grid" true no_kwargs
    = Raise ValueError.
Proof.
  destruct (trace_grid_shape (X := Demo.upper) Demo.model (V2 (-1) (-1))
              (V2 1 1) 3%Z Demo.field0 550 0 None true no_kwargs
              eq_refl eq_refl eq_refl
              (fun p => upper_recoverable p 550 _))
    as [[rows [Hgrid [Hlen _]]] _].
  split; [|vm_compute; reflexivity].
  exists rows. split; [exact Hgrid | exact Hlen].
Defined.

(** X14, witness: the rim rays of the one field of the demo system. *)
Lemma trace_boundary_rays_stores_witness :
  let labels := ["00"; "+Y"; "-Y"]%string in
  exists rayset,
    trace_boundary_rays (X := Demo.upper) Demo.model [Demo.field0] labels
                        no_kwargs
      = (Ret rayset, map (boundary_ray_dict labels) rayset) /\
    List.length rayset = 1%nat.
Proof.
  intros labels.
  destruct (trace_boundary_rays_stores (X := Demo.upper) Demo.model
              [Demo.field0] labels None)
    as [[rayset [Hrun [Hlen _]]] _].
  - intros fld p w [<-|[]]. apply upper_recoverable.
  - exists rayset. split; [exact Hrun | exact Hlen].
Defined.

(** X16, witness: the axial field, with the lower ray limited by
    surface 1 at a quarter of the pupil, and behind it a field whose x
    coordinate cannot be squared: the loop ends in an OverflowError with
    the first field's lower vignetting set. *)
Lemma apply_paraxial_vignetting_frame_witness :
  let far := mkField 0x1p+600 0 0 0 0 0 None None None in
  let limits (_ : float) := Ret ((0x1p-2, Some 1%Z), (0, None)) in
  exists fld',
    apply_paraxial_vignetting 1 true limits [Demo.field0; far]
      = (Raise (OtherException "OverflowError"), [fld'; far]) /\
    same_but_y_vignetting Demo.field0 fld' /\ vly fld' = 0x1.8p-1.
Proof.
  intros far limits.
  pose proof (apply_paraxial_vignetting_frame 1 true limits
                [Demo.field0; far]) as [Hframe _].
  assert (E : apply_paraxial_vignetting 1 true limits [Demo.field0; far]
              = (Raise (OtherException "OverflowError"),
                 [mkField 0 0 0 0 0 0x1.8p-1 None None None; far]))
    by (vm_compute; reflexivity).
  rewrite E in Hframe. cbn [snd] in Hframe.
  eexists. split; [exact E|]. split; [|reflexivity].
  inversion Hframe; subst. assumption.
Defined.

(** A field coordinate whose square is out of range. *)
Lemma vignette_field_overflow :
  vignette_field 1 true (fun _ => Ret ((0, None), (0, None)))
                 (mkField 0x1p+600 0 0 0 0 0 None None None)
    = Raise (OtherException "OverflowError").
Proof. vm_compute; reflexivity. Qed.

(** X21, witness: the axial ray of the demo system. *)
Lemma trace_coddington_fan_needs_fit_witness :
  fits (seq_model Demo.model) (Demo.axial_ray (F := float)).
Proof.
  destruct (trace_coddington_fan (X := Demo.steady) Demo.model
              (mkRayPkg Demo.axial_ray 0 550) None) as [v|e] eqn:E.
  - exact (trace_coddington_fan_needs_fit (X := Demo.steady) Demo.model
             (mkRayPkg Demo.axial_ray 0 550) None v E).
  - vm_compute in E. discriminate E.
Defined.

(** X23, witness: two field heights on the demo system. *)
Lemma trace_astigmatism_curve_keeps_first_chief_ray_witness :
  let run := trace_astigmatism_curve (X := Demo.steady) Demo.model 550 0
               [0; 1] 1 1 Demo.field0 in
  fld_y (snd run) = 1 /\
  exists crp,
    trace_chief_ray (X := Demo.steady) Demo.model (set_fld_y Demo.field0 0)
                    550 0 = Ret crp /\
    chief_ray (snd run) = Some crp.
Proof.
  intros run.
  destruct run as [r fld'] eqn:E. destruct r as [data|e].
  - destruct (trace_astigmatism_curve_keeps_first_chief_ray (X := Demo.steady)
                Demo.model 550 0 1 1 0 [1] Demo.field0 fld' data eq_refl E)
      as [Hy [_ [_ [_ [crp [Htr Hc]]]]]].
    cbn [snd]. split; [exact Hy|]. exists crp. split; [exact Htr|].
    apply Hc. vm_compute in Htr. injection Htr as <-. vm_compute; reflexivity.
  - unfold run in E. vm_compute in E. discriminate E.
Defined.

End FurtherRuns.

(** ** Instances of the further properties over the reals *)

Section FurtherRealInstances.

Local Open Scope R_scope.

(** X11, witness: a fan of three samples up the y axis of the pupil. *)
Lemma trace_fan_covers_range_witness :
  exists fan,
    trace_fan (X := Demo.steady (F := R)) Demo.model (V2 0 0, V2 0 1, 3%Z)
              Demo.field0 550 0 None no_kwargs = Ret fan /\
    List.length fan = 3%nat /\
    V2 (0 + INR 2 * ((0 - 0) / IZR (3 - 1))) (0 + INR 2 * ((1 - 0) / IZR (3 - 1)))
      = V2 0 1.
Proof.
  assert (Hret : exists fan,
             trace_fan (X := Demo.steady (F := R)) Demo.model
                       (V2 0 0, V2 0 1, 3%Z) Demo.field0 550 0 None no_kwargs
               = Ret fan) by (eexists; reflexivity).
  destruct Hret as [fan Hret].
  destruct (trace_fan_covers_range (X := Demo.steady (F := R)) Demo.model
              (V2 0 0) (V2 0 1) 3%Z Demo.field0 550 0 None no_kwargs fan)
    as [Hlen [_ [_ Hstop]]].
  - lia.
  - exact Hret.
  - exists fan. split; [exact Hret|]. split; [exact Hlen | exact Hstop].
Defined.

(** X18, witness: a marginal ray that comes down under 45 degrees and
    meets the image surface two units above the axis is brought to the
    axis two units further on. *)
Lemma refocus_zeroes_marginal_ray_witness :
  exists defocus,
    refocus (X := Demo.collaborators (F := R)
                    (Demo.trace_const Demo.converging_ray))
            Demo.model [Demo.field0] 550 = Ret defocus /\
    2 + defocus * (- 1 / 1) = 0.
Proof.
  destruct (refocus_zeroes_marginal_ray
              (X := Demo.collaborators (F := R)
                      (Demo.trace_const Demo.converging_ray))
              Demo.model Demo.field0 [] 550
              (mkRayPkg Demo.converging_ray 0 550) [Demo.seg 0]
              (mkRaySeg (V3 0 3 0) (V3 0 (- 1) 1) 1 (V3 0 0 1))
              (mkRaySeg (V3 0 2 0) (V3 0 (- 1) 1) 0 (V3 0 0 1)))
    as [defocus [Hret Hzero]].
  - reflexivity.
  - reflexivity.
  - cbn. lra.
  - cbn. lra.
  - exists defocus. split; [exact Hret | exact Hzero].
Defined.

(** X19, witness: the z axis and a line along y through (1, 0, 5), one
    unit apart. *)
Lemma intersect_2_lines_closest_approach_witness :
  let s := intersect_2_lines (F := R) (V3 0 0 0) (V3 0 0 1) (V3 1 0 5) (V3 0 1 0) in
  let t := intersect_2_lines (F := R) (V3 1 0 5) (V3 0 1 0) (V3 0 0 0) (V3 0 0 1) in
  let gap := vsub (vadd (V3 1 0 5) (vscale s (V3 0 1 0)))
                  (vadd (V3 0 0 0) (vscale t (V3 0 0 1))) in
  dot gap (V3 0 0 1) = 0 /\ dot gap (V3 0 1 0) = 0.
Proof.
  apply (intersect_2_lines_closest_approach (V3 0 0 0) (V3 0 0 1) (V3 1 0 5)
                                            (V3 0 1 0)).
  unfold cross; cbn. intros H. apply (f_equal vx) in H. cbn in H. lra.
Defined.

(** On the axis the divisors of a later step are those of the paraxial
    vergence transfer, and the step leaves the two fans equal. *)
Lemma step_on_axis (st : @coddington_state R) (seg : RaySeg) (ifc : Interface)
    (n_opt : option R) (tfrm : option Tfrm) (zd : option R) (b : vec3) (s : R) :
  let n := before_rind st in
  let n' := match n_opt with Some v => v | None => n end in
  let power := optical_power ifc in
  let sp := n' / (n / s + power) in
  before_dir st = Some b -> s_before st = Some s -> t_before st = Some s ->
  cos_after seg = 1 -> (power <> 0 -> n' <> n) ->
  step_divisors st (Some seg, Some ifc, n_opt, tfrm, zd)
    = [norm (seg_nrml seg); n]
        ++ (if negb (feqb power 0) then [n' - n] else [])
        ++ [s; n / s + power; s; n / s + power] /\
  coddington_step st (Some seg, Some ifc, n_opt, tfrm, zd)
    = Ret (mkCoddington n' (Some (seg_d seg))
             (Some (sp - seg_dst seg)) (Some (sp - seg_dst seg))
             (Some sp) (Some sp) (Some (seg_d seg)) (Some (seg_p seg))).
Proof.
  intros n n' power sp Hb Hs Ht Hcos Hrefr.
  destruct (normal_incidence power n n' Hrefr) as [HsinI [HcosI HP]].
  cbv zeta in HsinI, HcosI, HP. split.
  - unfold step_divisors. rewrite Hb, Hs, Ht. cbv zeta.
    fold (cos_after seg). rewrite Hcos.
    cbn [f0 f1 fsub fmul fdiv fadd fsqrt R_ops].
    fold n. fold n'. fold power. rewrite HP, HcosI.
    replace (n * (1 * 1) / s) with (n / s) by (unfold Rdiv; ring).
    reflexivity.
  - erewrite coddington_step_later;
      [| exact Hb | exact Hs | exact Ht
       | rewrite Hcos; lra
       | fold n; fold n'; rewrite Hcos, HsinI; lra].
    fold n. fold n'. fold power. rewrite Hcos, HP, HcosI.
    replace (n' * (1 * 1) / (n * (1 * 1) / s + power)) with sp
      by (unfold sp, Rdiv; rewrite !Rmult_1_r; reflexivity).
    reflexivity.
Qed.

(** X22, witness: a ray along the axis through a surface of power 1/2
    from index 1 into index 3/2 and on to an image surface in the glass. *)
Lemma trace_astigmatism_coddington_fan_on_axis_witness :
  exists s,
    trace_astigmatism_coddington_fan (X := Demo.steady (F := R)) Demo.refracting
                                     Demo.field0 550 None
      = Ret (s, s).
Proof.
  apply (trace_astigmatism_coddington_fan_on_axis (X := Demo.steady (F := R))
           Demo.refracting Demo.field0 550 None (mkRayPkg Demo.axial_ray 0 550)
           [1; 3 / 2; 3 / 2]).
  - reflexivity.
  - unfold fits. cbn. lia.
  - reflexivity.
  - cbn [tl pkg_ray Demo.axial_ray].
    repeat constructor; rewrite demo_seg_normal; ring.
  - unfold fan_divisors.
    change (Py.zip_longest (pkg_ray (mkRayPkg Demo.axial_ray 0 550))
              (ifcs (seq_model Demo.refracting)) [1; 3 / 2; 3 / 2]
              (lcl_tfrms (seq_model Demo.refracting))
              (z_dir (seq_model Demo.refracting)))
      with [(Some (Demo.seg (F := R) 0), Some (mkInterface 0), Some 1,
             @None (@Tfrm R), Some 1);
            (Some (Demo.seg 0), Some (mkInterface (1 / 2)), Some (3 / 2),
             None, None);
            (Some (Demo.seg 0), Some (mkInterface 0), Some (3 / 2),
             None, None)].
    cbn [path_divisors].
    rewrite coddington_step_first by reflexivity.
    change (step_divisors (mkCoddington 1 None None None None None None None)
              (Some (Demo.seg (F := R) 0), Some (mkInterface 0), Some 1,
               @None (@Tfrm R), Some 1)) with (@nil R).
    cbn [app].
    cbn [s_prime t_prime app].
    match goal with
    | |- context [step_divisors ?st1 (Some ?sg, Some ?ifc, ?n, ?tf, ?z)] =>
        edestruct (step_on_axis st1 sg ifc n tf z) as [Hdiv1 Hstep1];
          [reflexivity | reflexivity | reflexivity | apply demo_seg_normal
           | cbn; intros _; lra |]
    end.
    rewrite Hdiv1, Hstep1. clear Hdiv1 Hstep1.
    cbn [before_rind optical_power].
    match goal with
    | |- context [step_divisors ?st2 (Some ?sg, Some ?ifc, ?n, ?tf, ?z)] =>
        edestruct (step_on_axis st2 sg ifc n tf z) as [Hdiv2 Hstep2];
          [reflexivity | reflexivity | reflexivity | apply demo_seg_normal
           | cbn; intros H; now elim H |]
    end.
    rewrite Hdiv2, Hstep2. clear Hdiv2 Hstep2.
    cbn [before_rind optical_power].
    cbn [path_divisors app feqb f0 R_ops negb].
    assert (Hnorm : norm (seg_nrml (Demo.seg (F := R) 0)) = 1).
    { unfold norm, dot. cbn.
      replace (0 * 0 + 0 * 0 + 1 * 1) with 1 by ring. apply sqrt_1. }
    rewrite Hnorm. cbn [seg_dst Demo.seg f1 R_ops].
    destruct (Req_dec_T (1 / 2) 0) as [E|_]; [lra|].
    destruct (Req_dec_T 0 0) as [_|E]; [|now elim E].
    cbn [negb app].
    assert (Hs1 : 3 / 2 / (1 / - (1) + 1 / 2) - 1 = -4) by field.
    rewrite Hs1.
    replace (1 / - (1)) with (-1) by (field; lra).
    repeat (apply Forall_cons; [lra|]). apply Forall_nil.
Defined.

(** Towards a point further along z the start direction points forward. *)
Lemma aim_dir_forward (pt1 pt0 : @vec3 R) :
  0 <= vz pt1 - vz pt0 -> 0 <= vz (aim_dir pt1 pt0) * 1.
Proof.
  intros Hz. unfold aim_dir, vdivs. cbn [vz fdiv R_ops].
  rewrite Rmult_1_r. unfold Rdiv. apply Rmult_le_pos; [exact Hz|].
  destruct (Req_dec (norm (vsub pt1 pt0)) 0) as [->|Hne].
  - rewrite Rinv_0. lra.
  - left. apply Rinv_0_lt_compat.
    pose proof (sqrt_pos (dot (vsub pt1 pt0) (vsub pt1 pt0))) as Hpos.
    unfold norm in *. cbn [fsqrt R_ops] in *. lra.
Qed.

(** The trace of the demo system around [Demo.trace_crossing]. *)
Lemma crossing_trace (px py : R) :
  call_trace_base (X := Demo.collaborators (F := R) Demo.trace_crossing)
                  Demo.model (V2 px py) Demo.field0 550 no_kwargs
    = Ret (mkRayPkg
             [Demo.seg 0;
              Demo.crossing_seg
                (aim_dir (V3 (1 * px + 0) (1 * py + 0) (10 + 0)) (V3 0 0 0))]
             0 550).
Proof.
  unfold call_trace_base, trace_base. cbv zeta.
  change (Py.index (z_dir (seq_model (Demo.model (F := R)))) 0) with (Some 1).
  cbv iota.
  change (trace_base_pt1 (X := Demo.collaborators (F := R) Demo.trace_crossing)
            Demo.model (V2 px py) Demo.field0
            (Py.get (kw_apply_vignetting no_kwargs) true))
    with (V3 (1 * px + 0) (1 * py + 0) (10 + 0)).
  change (obj_coords (Collaborators := Demo.collaborators Demo.trace_crossing)
            Demo.model Demo.field0) with (V3 0 0 0 : @vec3 R).
  fold (aim_dir (V3 (1 * px + 0) (1 * py + 0) (10 + 0)) (V3 0 0 0)).
  pose proof (aim_dir_forward (V3 (1 * px + 0) (1 * py + 0) (10 + 0)) (V3 0 0 0))
    as Hfw.
  cbn [fltb fmul f0 R_ops].
  destruct (Rlt_dec _ 0) as [Hlt|_]; [|reflexivity].
  exfalso. cbn [vz] in Hfw. lra.
Qed.

(** The start directions towards two points that are mirror images. *)
Lemma aim_dir_mirrored (x y z : R) :
  aim_dir (V3 (- x) y z) (V3 0 0 0) = mirror_x (aim_dir (V3 x y z) (V3 0 0 0)).
Proof.
  unfold aim_dir, mirror_x, vdivs, vsub, norm, dot. cbn.
  replace ((- x - 0) * (- x - 0) + (y - 0) * (y - 0) + (z - 0) * (z - 0))
    with ((x - 0) * (x - 0) + (y - 0) * (y - 0) + (z - 0) * (z - 0)) by ring.
  f_equal. unfold Rdiv. ring.
Qed.

(** X20, witness: the demo system around a trace whose rays cross the
    y-z plane, sampled one pupil radius to either side. *)
Lemma trace_astigmatism_sagittal_focus_witness :
  exists s_foc t_foc,
    trace_astigmatism (X := Demo.collaborators (F := R) Demo.trace_crossing)
                      Demo.model Demo.field0 550 None 1 1
      = Ret (s_foc, t_foc).
Proof.
  pose (D := aim_dir (V3 (1 * 1 + 0) (1 * 0 + 0) (10 + 0)) (V3 0 0 0 : @vec3 R)).
  assert (Hn : 0 < norm (vsub (V3 (1 * 1 + 0) (1 * 0 + 0) (10 + 0))
                              (V3 0 0 0 : @vec3 R))).
  { unfold norm. cbn [fsqrt R_ops]. apply sqrt_lt_R0.
    unfold dot, vsub. cbn. lra. }
  destruct (trace_astigmatism_sagittal_focus
              (X := Demo.collaborators (F := R) Demo.trace_crossing)
              Demo.model Demo.field0 550 None 1 1
              (mkRayPkg [Demo.seg 0; Demo.crossing_seg
                 (aim_dir (V3 (1 * 0 + 0) (1 * 0 + 0) (10 + 0)) (V3 0 0 0))]
                 0 550)
              (mkRayPkg [Demo.seg 0; Demo.crossing_seg D] 0 550)
              (mkRayPkg [Demo.seg 0; Demo.crossing_seg
                 (aim_dir (V3 (1 * 0 + 0) (1 * 1 + 0) (10 + 0)) (V3 0 0 0))]
                 0 550)
              (mkRayPkg [Demo.seg 0; Demo.crossing_seg (mirror_x D)] 0 550)
              (mkRayPkg [Demo.seg 0; Demo.crossing_seg
                 (aim_dir (V3 (1 * 0 + 0) (1 * - (1) + 0) (10 + 0)) (V3 0 0 0))]
                 0 550)
              (Demo.crossing_seg D)
              (Demo.crossing_seg
                 (aim_dir (V3 (1 * 0 + 0) (1 * 1 + 0) (10 + 0)) (V3 0 0 0)))
              (Demo.crossing_seg (mirror_x D))
              (Demo.crossing_seg
                 (aim_dir (V3 (1 * 0 + 0) (1 * - (1) + 0) (10 + 0)) (V3 0 0 0))))
    as [t_foc [Hret _]].
  - apply crossing_trace.
  - apply crossing_trace.
  - apply crossing_trace.
  - etransitivity; [apply crossing_trace|].
    apply f_equal. apply (f_equal (fun r => mkRayPkg r 0 550)).
    apply (f_equal (fun sg => [Demo.seg 0; sg])). apply f_equal.
    unfold D. rewrite <- aim_dir_mirrored.
    f_equal; f_equal; cbn [fneg R_ops]; ring.
  - apply crossing_trace.
  - reflexivity.
  - reflexivity.
  - reflexivity.
  - reflexivity.
  - reflexivity.
  - unfold Demo.crossing_seg, mirror_x. cbn.
    solve [reflexivity | f_equal; ring].
  - unfold Demo.crossing_seg, D, aim_dir, vdivs. cbn [seg_d vx fneg fdiv R_ops].
    intros H0. apply Ropp_eq_0_compat in H0. rewrite Ropp_involutive in H0.
    unfold Rdiv in H0. apply Rmult_integral in H0.
    destruct H0 as [H0|H0]; [cbn in H0; lra|].
    apply Rinv_neq_0_compat in H0; [exact H0 | lra].
  - right. unfold Demo.crossing_seg, D, aim_dir, vdivs.
    cbn [seg_d vz fdiv R_ops].
    intros H0. unfold Rdiv in H0. apply Rmult_integral in H0.
    destruct H0 as [H0|H0]; [cbn in H0; lra|].
    apply Rinv_neq_0_compat in H0; [exact H0 | lra].
  - do 2 eexists. exact Hret.
Defined.

End FurtherRealInstances.
